(** * The legal-trainer backend: review scheduler and one-time codes

    A shallow embedding of [src/index.ts].  That file holds several
    versions of the server one after the other; the handlers below are
    transcribed from the version named in each doc comment.  After the
    scheduler and the one-time codes come the authentication middleware
    with the routes behind it, the goals, the history of attempts, and the
    import script for bundles of questions.

    - timestamps ([Date]) are milliseconds since the epoch, in [Z];
    - JSON integers are [Z]; an optional field of a request body is an
      [option], and a string is falsy exactly when it is empty;
    - a database table is the list of its rows, in storage order;
    - the process-wide [global.authCodes] is an [option (gmap string _)]:
      [None] is JavaScript's [undefined], and because a [Map] is a shared
      mutable object, a [set] or [delete] through any alias is a change of
      the one stored map. *)

From Stdlib Require Import ZArith Lia Ascii.
From stdpp Require Import gmap strings list fin_maps sorting pretty.

Local Open Scope Z_scope.

(** ** JavaScript values *)

Module Js.

(** [!s] is true exactly for the empty string. *)
Definition truthy (s : string) : bool := negb (String.eqb s "").

(** A possibly absent field: [!x] for [x : string | undefined]. *)
Definition present (o : option string) : bool :=
  match o with
  | Some s => truthy s
  | None => false
  end.

(** [arr[i]] for an integer [i]: [undefined] ([None]) out of range. *)
Definition index {A} (arr : list A) (i : Z) : option A :=
  if i <? 0 then None else arr !! Z.to_nat i.

(** [Math.round(a / b)] for integers [a] and [b > 0]: the nearest
    integer, a tie going up. *)
Definition round_div (a b : Z) : Z := (2 * a + b) / (2 * b).

(** [s.split('@')[0]]: the part of [s] before its first ['@']. *)
Fixpoint before_at (s : string) : string :=
  match s with
  | EmptyString => EmptyString
  | String c rest =>
      if Ascii.eqb c "@"%char then EmptyString else String c (before_at rest)
  end.

End Js.

(** ** HTTP responses *)

(** The [error] texts the handlers send, one constructor per text. *)
Inductive ErrorText :=
| ErrTopicAndQualityRequired   (* 'topicId и quality обязательны' *)
| ErrQualityOutOfRange         (* 'quality должен быть в диапазоне 0..5' *)
| ErrEmailRequired             (* 'Email is required' *)
| ErrPhoneRequired             (* 'Phone is required' *)
| ErrTelegramIdRequired        (* 'Telegram ID is required' *)
| ErrCodeRequired              (* 'Code is required' *)
| ErrCodeAndPhoneRequired      (* 'Code and phone are required' *)
| ErrInvalidCode               (* 'Invalid code' *)
| ErrCodeExpired               (* 'Code expired' *)
| ErrInternalServerError.      (* 'Internal server error' *)

(** [res.json(body)] is [Json body]; [res.status(s).json({ error })] is
    [Failure s error]. *)
Inductive Response (A : Type) :=
| Json (body : A)
| Failure (status : Z) (error : ErrorText).
Arguments Json {A} body.
Arguments Failure {A} status error.

(** The error taxonomy of the specification. *)
Inductive ErrorKind := InvalidInput | InvalidCode | CodeExpired | StorageError.

Definition errorKind (e : ErrorText) : ErrorKind :=
  match e with
  | ErrTopicAndQualityRequired | ErrQualityOutOfRange
  | ErrEmailRequired | ErrPhoneRequired | ErrTelegramIdRequired
  | ErrCodeRequired | ErrCodeAndPhoneRequired => InvalidInput
  | ErrInvalidCode => InvalidCode
  | ErrCodeExpired => CodeExpired
  | ErrInternalServerError => StorageError
  end.

(** A response fails with kind [k]: a 400 whose text is of that kind. *)
Definition failsWith {A} (r : Response A) (k : ErrorKind) : Prop :=
  exists e, r = Failure 400 e /\ errorKind e = k.

(** ** The progress store *)

Module UserProgress.

(** Modelled from the spec: the table is declared in
    [prisma/schema.prisma], which is not among the sources; the columns
    are the ones of the specification's data model together with the
    [id] and [updatedAt] the handlers name. *)
Record t := mk {
  id : nat;
  userId : string;
  topicId : string;
  masteryLevel : Z;
  lastReviewed : option Z;
  nextReview : option Z;
  updatedAt : Z
}.

(** [where: { userId, topicId }] *)
Definition ofUserTopic (u tp : string) (p : t) : bool :=
  String.eqb (userId p) u && String.eqb (topicId p) tp.

(** [prisma.userProgress.findFirst({ where: { userId, topicId } })] *)
Definition findFirst (u tp : string) (rows : list t) : option t :=
  List.find (ofUserTopic u tp) rows.

Definition freshId (rows : list t) : nat :=
  S (foldr Nat.max 0%nat (map id rows)).

(** [prisma.userProgress.create({ data: { userId, topicId,
    masteryLevel: 0 } })]: the new row is stored after the others. *)
Definition create (now : Z) (u tp : string) (rows : list t) : list t * t :=
  let p := mk (freshId rows) u tp 0 None None now in
  (rows ++ [p], p).

(** The [data] of the grade handler's update. *)
Definition setReview (now level : Z) (next : Z) (p : t) : t :=
  mk (id p) (userId p) (topicId p) level (Some now) (Some next) now.

(** [prisma.userProgress.update({ where: { id }, data: {...} })]: the row
    with that key is rewritten and returned; the call throws ([None])
    when there is none. *)
Definition update (i : nat) (f : t -> t) (rows : list t) : option (list t * t) :=
  match List.find (fun p => Nat.eqb (id p) i) rows with
  | Some p => Some (map (fun r => if Nat.eqb (id r) i then f r else r) rows, f p)
  | None => None
  end.

(** *** Queries: the [where], [orderBy] and [take] of [findMany] *)

Inductive Where :=
| UserIdIs (u : string)        (* { userId } *)
| MasteryLevelLt (n : Z)       (* { masteryLevel: { lt: n } } *)
| NextReviewLte (d : Z)        (* { nextReview: { lte: d } } *)
| NextReviewNull               (* { nextReview: null } *)
| AND (a b : Where)            (* two fields of one object *)
| OR (a b : Where).            (* { OR: [a, b] } *)

(** A comparison with a null column is never true. *)
Fixpoint holds (w : Where) (p : t) : bool :=
  match w with
  | UserIdIs u => String.eqb (userId p) u
  | MasteryLevelLt n => masteryLevel p <? n
  | NextReviewLte d =>
      match nextReview p with
      | Some r => r <=? d
      | None => false
      end
  | NextReviewNull =>
      match nextReview p with
      | Some _ => false
      | None => true
      end
  | AND a b => holds a p && holds b p
  | OR a b => holds a p || holds b p
  end.

Inductive Column := NextReviewColumn | UpdatedAtColumn.
Inductive Direction := asc | desc.

(** The handlers give [orderBy] no [nulls] option, so where an unset
    [nextReview] goes is left to the database.  The queries of
    index.ts:396 ([mode: 'insensitive']) are ones Prisma has for
    PostgreSQL only among its relational datasources, and PostgreSQL
    puts nulls last under ['asc'] (and so first under ['desc']): an
    unset date compares greater than every date. *)
Definition compareNullable (a b : option Z) : comparison :=
  match a, b with
  | None, None => Eq
  | None, Some _ => Gt
  | Some _, None => Lt
  | Some x, Some y => x ?= y
  end.

Definition compareColumn (c : Column) (p q : t) : comparison :=
  match c with
  | NextReviewColumn => compareNullable (nextReview p) (nextReview q)
  | UpdatedAtColumn => updatedAt p ?= updatedAt q
  end.

Definition directed (d : Direction) (c : comparison) : comparison :=
  match d with
  | asc => c
  | desc => CompOpp c
  end.

(** [orderBy: [k1, k2, ...]]: the first key that tells two rows apart
    decides. *)
Fixpoint compareBy (keys : list (Column * Direction)) (p q : t) : comparison :=
  match keys with
  | [] => Eq
  | (c, d) :: rest =>
      match directed d (compareColumn c p q) with
      | Eq => compareBy rest p q
      | r => r
      end
  end.

Definition precedes (keys : list (Column * Direction)) (p q : t) : Prop :=
  compareBy keys p q <> Gt.

Definition precedes_dec (keys : list (Column * Direction)) :
  RelDecision (precedes keys) :=
  fun p q => decide (compareBy keys p q <> Gt).

(** [prisma.userProgress.findMany({ where, orderBy, take })].  Rows
    that no key tells apart come in an order the database chooses; here
    it is the one of the merge. *)
Definition findMany (w : Where) (keys : list (Column * Direction))
    (limit : option nat) (rows : list t) : list t :=
  let found := List.filter (holds w) rows in
  let sorted :=
    match keys with
    | [] => found
    | _ => @merge_sort _ (precedes keys) (precedes_dec keys) found
    end in
  match limit with
  | Some n => take n sorted
  | None => sorted
  end.

(** [prisma.userProgress.count({ where })] *)
Definition count (w : Where) (rows : list t) : nat :=
  length (List.filter (holds w) rows).

End UserProgress.

Module QuizAttempt.

(** Modelled from the spec: [QuizAttempt] is declared in
    [prisma/schema.prisma], which is not among the sources; [score] is
    taken to be an integer column. *)
Record t := mk {
  userId : string;
  score : Z
}.

(** [prisma.quizAttempt.findMany({ where: { userId } })] *)
Definition ofUser (u : string) (rows : list t) : list t :=
  List.filter (fun a => String.eqb (userId a) u) rows.

End QuizAttempt.

(** ** The review scheduler *)

Module Scheduler.

Definition mapping : list Z := [1; 2; 4; 7; 14; 30].

(** [getNextIntervalDaysByMastery], index.ts:153 and 1051. *)
Definition getNextIntervalDaysByMastery (masteryLevel : Z) : option Z :=
  let idx := Z.max 0 (Z.min masteryLevel (Z.of_nat (length mapping) - 1)) in
  Js.index mapping idx.

(** The body of [POST /api/review/grade]. *)
Record GradeBody := {
  topicId : option string;
  quality : option Z
}.

Record Graded := {
  masteryLevel : Z;
  nextReview : option Z
}.

Definition msPerDay : Z := 24 * 60 * 60 * 1000.

(** [app.post('/api/review/grade')], index.ts:228, at time [now], for
    the [userId] that the [requireAuth] of index.ts:121 has set on the
    request.  The handler of index.ts:1125 has the same text behind a
    middleware that sets no [userId]: it is [ProgressRoutes.reviewGrade]. *)
Definition reviewGrade (now : Z) (userId : string) (body : GradeBody)
    (rows : list UserProgress.t) : list UserProgress.t * Response Graded :=
  match topicId body, quality body with
  | Some tp, Some q =>
      if negb (Js.truthy tp) then (rows, Failure 400 ErrTopicAndQualityRequired)
      else if (q <? 0) || (5 <? q) then (rows, Failure 400 ErrQualityOutOfRange)
      else
        let '(rows1, progress) :=
          match UserProgress.findFirst userId tp rows with
          | Some p => (rows, p)
          | None => UserProgress.create now userId tp rows
          end in
        let '(newMastery, nextDays) :=
          if 3 <=? q then
            let m := Z.min 5 (UserProgress.masteryLevel progress + 1) in
            (m, getNextIntervalDaysByMastery m)
          else (0, Some 1) in
        match nextDays with
        | Some days =>
            let next := now + days * msPerDay in
            match UserProgress.update (UserProgress.id progress)
                    (UserProgress.setReview now newMastery next) rows1 with
            | Some (rows2, updated) =>
                (rows2, Json {| masteryLevel := UserProgress.masteryLevel updated;
                                nextReview := UserProgress.nextReview updated |})
            | None => (rows1, Failure 500 ErrInternalServerError)
            end
        | None => (rows1, Failure 500 ErrInternalServerError)
        end
  | _, _ => (rows, Failure 400 ErrTopicAndQualityRequired)
  end.


(** *** Due items and the summary: what both versions share *)

Record DueItem := {
  item_topicId : string;
  item_masteryLevel : Z;
  item_nextReview : option Z
}.

Record DueList := {
  total : nat;
  items : list DueItem
}.

(** [d => ({ topicId, masteryLevel, nextReview, ... })]; the columns of
    the joined topic, which are copied through for display, are left
    out. *)
Definition dueItem (d : UserProgress.t) : DueItem :=
  {| item_topicId := UserProgress.topicId d;
     item_masteryLevel := UserProgress.masteryLevel d;
     item_nextReview := UserProgress.nextReview d |}.

Definition dueOrder : list (UserProgress.Column * UserProgress.Direction) :=
  [(UserProgress.NextReviewColumn, UserProgress.asc);
   (UserProgress.UpdatedAtColumn, UserProgress.desc)].

Record Summary := {
  totalAttempts : nat;
  avgScore : Z;
  masteredTopics : nat;
  totalTrackedTopics : nat;
  dueCount : nat
}.

(** [attempts.reduce((s, a) => s + a.score, 0)] *)
Definition sumScores (attempts : list QuizAttempt.t) : Z :=
  fold_left (fun s a => s + QuizAttempt.score a) attempts 0.

Definition averageScore (attempts : list QuizAttempt.t) : Z :=
  let totalAttempts := length attempts in
  if (0 <? totalAttempts)%nat
  then Js.round_div (sumScores attempts) (Z.of_nat totalAttempts)
  else 0.

(** [app.get('/api/progress/summary')] and [app.get('/api/review/due')]
    in the first version of the file, index.ts:160 and 187, behind the
    [requireAuth] of index.ts:121, which sets the [userId] they read;
    being due is a matter of the date.  The same two routes of the
    later version are in [ProgressRoutes]. *)
Module Earlier.

Definition dueRows (now : Z) (userId : string) (rows : list UserProgress.t)
    : list UserProgress.t :=
  UserProgress.findMany
    (UserProgress.AND (UserProgress.UserIdIs userId)
       (UserProgress.OR (UserProgress.NextReviewLte now) UserProgress.NextReviewNull))
    dueOrder (Some 20%nat) rows.

Definition reviewDue (now : Z) (userId : string) (rows : list UserProgress.t)
    : Response DueList :=
  let due := dueRows now userId rows in
  Json {| total := length due; items := map dueItem due |}.

Definition progressSummary (now : Z) (userId : string)
    (attemptRows : list QuizAttempt.t) (rows : list UserProgress.t)
    : Response Summary :=
  let attempts := QuizAttempt.ofUser userId attemptRows in
  let progress :=
    UserProgress.findMany (UserProgress.UserIdIs userId) [] None rows in
  let dueCount :=
    UserProgress.count
      (UserProgress.AND (UserProgress.UserIdIs userId) (UserProgress.NextReviewLte now))
      rows in
  Json {| totalAttempts := length attempts;
          avgScore := averageScore attempts;
          masteredTopics :=
            length (List.filter (fun p => 3 <=? UserProgress.masteryLevel p) progress);
          totalTrackedTopics := length progress;
          dueCount := dueCount |}.

End Earlier.

End Scheduler.

(** ** One-time codes *)

Module AuthCode.

(** A value of [global.authCodes]: [{ email?, phone?, expiresAt }] in the
    versions with email and SMS codes, [{ telegramId, expiresAt }] in
    the version with the bot. *)
Record t := mk {
  email : option string;
  phone : option string;
  telegramId : option string;
  expiresAt : Z
}.

End AuthCode.

Module User.

(** Modelled from the spec: [User] is declared in
    [prisma/schema.prisma], which is not among the sources; the columns
    are the ones the handlers read and write. *)
Record t := mk {
  id : nat;
  username : option string;
  email : option string;
  phone : option string;
  telegramId : option string;
  name : option string;
  firstName : option string;
  lastName : option string
}.

(** The [data] of a [prisma.user.create]. *)
Record Data := data {
  d_username : option string;
  d_email : option string;
  d_phone : option string;
  d_telegramId : option string;
  d_name : option string;
  d_firstName : option string;
  d_lastName : option string
}.

(** What reaches the user table. *)
Inductive Call :=
| FindByEmail (e : string)
| FindByPhone (p : string)
| FindByTelegramId (i : string)
| Create (d : Data).

Definition hasEmail (e : string) (u : t) : bool :=
  match email u with Some x => String.eqb x e | None => false end.

Definition hasPhone (p : string) (u : t) : bool :=
  match phone u with Some x => String.eqb x p | None => false end.

Definition hasTelegramId (i : string) (u : t) : bool :=
  match telegramId u with Some x => String.eqb x i | None => false end.

Definition freshId (rows : list t) : nat :=
  S (foldr Nat.max 0%nat (map id rows)).

Definition create (d : Data) (rows : list t) : list t * t :=
  let u := mk (freshId rows) (d_username d) (d_email d) (d_phone d)
              (d_telegramId d) (d_name d) (d_firstName d) (d_lastName d) in
  (rows ++ [u], u).

End User.

Module Auth.

(** A line written to the console. *)
Inductive Line :=
| LogEmailSent (email code : string)  (* console.log(`Email sent to ...`) *)
| ErrorEmailSending                   (* console.error('Email sending error:', _) *)
| WarnSmsSkipped                      (* console.warn('SMS_API_ID is not set; ...') *)
| LogSmsResponse                      (* console.log('SMS.ru response:', _) *)
| ErrorSmsSending                     (* console.error('SMS sending error:', _) *)
| LogTelegramSent                     (* console.log('Code sent to Telegram successfully') *)
| LogTelegramError.                   (* console.log('Telegram error:', _) *)

(** What the awaited delivery call does: it resolves, it resolves to a
    response that is not [ok], or it rejects (throws). *)
Inductive Delivery := Resolved | ResolvedNotOk | Rejected.

(** What a handler can read and change. *)
Record World := world {
  authCodes : option (gmap string AuthCode.t);   (* global.authCodes *)
  users : list User.t;
  calls : list User.Call;
  console : list Line
}.

Definition setAuthCodes (m : option (gmap string AuthCode.t)) (w : World) : World :=
  world m (users w) (calls w) (console w).

Definition print (l : Line) (w : World) : World :=
  world (authCodes w) (users w) (calls w) (console w ++ [l]).

(** [global.authCodes || new Map()] *)
Definition currentCodes (w : World) : gmap string AuthCode.t :=
  default ∅ (authCodes w).

(** [authCodes.set(code, data); global.authCodes = authCodes] on
    [authCodes = global.authCodes || new Map()]. *)
Definition bind (code : string) (data : AuthCode.t) (w : World) : World :=
  setAuthCodes (Some (<[code := data]> (currentCodes w))) w.

(** [authCodes.delete(code)] on the same alias: the stored map loses the
    key; a map made on the spot is not stored. *)
Definition unbind (code : string) (w : World) : World :=
  setAuthCodes (delete code <$> authCodes w) w.

(** A lookup in the user table, and [create] when the handler asks for
    it; both are recorded in [calls]. *)
Definition findUser (c : User.Call) (by_ : User.t -> bool) (w : World)
    : World * option User.t :=
  (world (authCodes w) (users w) (calls w ++ [c]) (console w),
   List.find by_ (users w)).

Definition createUser (d : User.Data) (w : World) : World * User.t :=
  let '(rows, u) := User.create d (users w) in
  (world (authCodes w) rows (calls w ++ [User.Create d]) (console w), u).

Definition findOrCreate (c : User.Call) (by_ : User.t -> bool) (d : User.Data)
    (w : World) : World * User.t :=
  let '(w1, found) := findUser c by_ w in
  match found with
  | Some u => (w1, u)
  | None => createUser d w1
  end.

(** [Math.floor(100000 + Math.random() * 900000).toString()], given the
    integer [n] that the floor yields. *)
Definition codeOf (n : Z) : string := pretty n.

Definition fiveMinutes : Z := 5 * 60 * 1000.

Inductive Sent := SentToEmail | SentBySms | SentToTelegram.

(** [app.post('/api/auth/send-email-code')], index.ts:490, 1387 and
    2240. *)
Definition sendEmailCode (now n : Z) (mail : Delivery) (email : option string)
    (w : World) : World * Response Sent :=
  match email with
  | Some e =>
      if negb (Js.truthy e) then (w, Failure 400 ErrEmailRequired)
      else
        let code := codeOf n in
        let expiresAt := now + fiveMinutes in
        let w1 := bind code (AuthCode.mk (Some e) None None expiresAt) w in
        let w2 :=
          match mail with
          | Rejected => print ErrorEmailSending w1
          | _ => print (LogEmailSent e code) w1
          end in
        (w2, Json SentToEmail)
  | None => (w, Failure 400 ErrEmailRequired)
  end.

(** [app.post('/api/auth/send-sms-code')], index.ts:603 and 1500;
    [smsApiId] is [SMS_API_ID]. *)
Definition sendSmsCode (smsApiId : string) (now n : Z) (sms : Delivery)
    (phone : option string) (w : World) : World * Response Sent :=
  match phone with
  | Some p =>
      if negb (Js.truthy p) then (w, Failure 400 ErrPhoneRequired)
      else
        let code := codeOf n in
        let expiresAt := now + fiveMinutes in
        let w1 := bind code (AuthCode.mk None (Some p) None expiresAt) w in
        let w2 :=
          if negb (Js.truthy smsApiId) then print WarnSmsSkipped w1
          else
            match sms with
            | Rejected => print ErrorSmsSending w1
            | _ => print LogSmsResponse w1
            end in
        (w2, Json SentBySms)
  | None => (w, Failure 400 ErrPhoneRequired)
  end.

(** [app.post('/api/auth/request-code')], index.ts:1852: the map is a
    [new Map()], not the stored one. *)
Definition requestCode (now n : Z) (bot : Delivery) (telegramId : option string)
    (w : World) : World * Response Sent :=
  match telegramId with
  | Some i =>
      if negb (Js.truthy i) then (w, Failure 400 ErrTelegramIdRequired)
      else
        let code := codeOf n in
        let expiresAt := now + fiveMinutes in
        let authCodes : gmap string AuthCode.t :=
          <[code := AuthCode.mk None None (Some i) expiresAt]> ∅ in
        let w1 := setAuthCodes (Some authCodes) w in
        let w2 :=
          match bot with
          | Resolved => print LogTelegramSent w1
          | ResolvedNotOk => print LogTelegramError w1
          | Rejected => print LogTelegramError w1
          end in
        (w2, Json SentToTelegram)
  | None => (w, Failure 400 ErrTelegramIdRequired)
  end.

(** [app.post('/api/auth/verify-email-code')], index.ts:550, 1447 and
    2300.  [findUnique] throws when its key is [undefined], which the
    handler's [catch] answers with a 500. *)
Definition verifyEmailCode (now : Z) (code : option string) (w : World)
    : World * Response User.t :=
  if negb (Js.present code) then (w, Failure 400 ErrCodeRequired)
  else
    let code := default "" code in
    match currentCodes w !! code with
    | None => (w, Failure 400 ErrInvalidCode)
    | Some codeData =>
        if AuthCode.expiresAt codeData <? now
        then (unbind code w, Failure 400 ErrCodeExpired)
        else
          match AuthCode.email codeData with
          | None => (w, Failure 500 ErrInternalServerError)
          | Some e =>
              let '(w1, user) :=
                findOrCreate (User.FindByEmail e) (User.hasEmail e)
                  (User.data None (Some e) None None (Some (Js.before_at e)) None None)
                  w in
              (unbind code w1, Json user)
          end
    end.

(** [app.post('/api/auth/verify-sms-code')], index.ts:648 and 1545. *)
Definition verifySmsCode (now : Z) (code phone : option string) (w : World)
    : World * Response User.t :=
  if negb (Js.present code) || negb (Js.present phone)
  then (w, Failure 400 ErrCodeAndPhoneRequired)
  else
    let code := default "" code in
    let phone := default "" phone in
    match currentCodes w !! code with
    | None => (w, Failure 400 ErrInvalidCode)
    | Some codeData =>
        if negb (bool_decide (AuthCode.phone codeData = Some phone))
        then (w, Failure 400 ErrInvalidCode)
        else if AuthCode.expiresAt codeData <? now
        then (unbind code w, Failure 400 ErrCodeExpired)
        else
          let '(w1, user) :=
            findOrCreate (User.FindByPhone phone) (User.hasPhone phone)
              (User.data None None (Some phone) None (Some phone) None None)
              w in
          (unbind code w1, Json user)
    end.

(** [app.post('/api/auth/verify-code')], index.ts:1903. *)
Definition verifyCode (now : Z) (code : option string) (w : World)
    : World * Response User.t :=
  if negb (Js.present code) then (w, Failure 400 ErrCodeRequired)
  else
    let code := default "" code in
    match currentCodes w !! code with
    | None => (w, Failure 400 ErrInvalidCode)
    | Some codeData =>
        if AuthCode.expiresAt codeData <? now
        then (unbind code w, Failure 400 ErrCodeExpired)
        else
          match AuthCode.telegramId codeData with
          | None => (w, Failure 500 ErrInternalServerError)
          | Some i =>
              let '(w1, user) :=
                findOrCreate (User.FindByTelegramId i) (User.hasTelegramId i)
                  (User.data None (Some (i +:+ "@telegram.local")) None (Some i)
                     None None None)
                  w in
              (unbind code w1, Json user)
          end
    end.

End Auth.

(** ** The authentication middleware and the routes behind it *)

Module Middleware.

(** What the middleware and the handlers read and write of a request. *)
Record Request := request {
  authorization : option string;     (* req.headers.authorization *)
  user : option (string * string);   (* req.user: { id, username } *)
  userId : option string             (* (req as any).userId *)
}.

(** [s.slice(n)] *)
Fixpoint slice (n : nat) (s : string) : string :=
  match n, s with
  | O, _ => s
  | S k, String _ rest => slice k rest
  | S _, EmptyString => EmptyString
  end.

(** [res.status(401).json({ error: 'Unauthorized' })], or [next()] with
    the request as the middleware left it. *)
Inductive Gate := Unauthorized | Next (req : Request).

(** [authHeader.startsWith('Bearer ') ? authHeader.slice(7) : ''] *)
Definition bearerToken (req : Request) : string :=
  let authHeader := default "" (authorization req) in
  if String.prefix "Bearer " authHeader then slice 7 authHeader else "".

(** [requireAuth], index.ts:831; [verify token] is the [userId] of
    [jwt.verify(token, JWT_SECRET)], and [None] when that throws. *)
Definition requireAuth (verify : string -> option string) (req : Request) : Gate :=
  let token := bearerToken req in
  if negb (Js.truthy token) then Unauthorized
  else
    match verify token with
    | Some uid => Next (request (authorization req) (Some (uid, "")) (userId req))
    | None => Unauthorized
    end.

(** The answer of a route behind the middleware. *)
Inductive Routed (A : Type) :=
| Denied                        (* the 401 of the middleware *)
| Handled (r : Response A).
Arguments Denied {A}.
Arguments Handled {A} r.

(** [app.post(path, requireAuth, handler)] *)
Definition route {S A} (gate : Request -> Gate)
    (handler : Request -> S -> S * Response A) (req : Request) (s : S)
    : S * Routed A :=
  match gate req with
  | Unauthorized => (s, Denied)
  | Next req' => let '(s', r) := handler req' s in (s', Handled r)
  end.

(** [requireAuth] in the first version of the file, index.ts:121. *)
Module Earlier.

Definition requireAuth (verify : string -> option string) (req : Request) : Gate :=
  let token := bearerToken req in
  if negb (Js.truthy token) then Unauthorized
  else
    match verify token with
    | Some uid => Next (request (authorization req) (user req) (Some uid))
    | None => Unauthorized
    end.

End Earlier.

End Middleware.

Module Attempt.

(** Modelled from the spec: [QuizAttempt] is declared in
    [prisma/schema.prisma], which is not among the sources; the columns
    are the ones the handlers write and select. *)
Record t := mk {
  id : nat;
  userId : string;
  topicId : string;
  score : Z;
  totalQuestions : Z;
  correctAnswers : Z;
  completedAt : Z
}.

Record Body := {
  b_topicId : string;
  b_score : Z;
  b_totalQuestions : Z;
  b_correctAnswers : Z
}.

Definition freshId (rows : list t) : nat :=
  S (foldr Nat.max 0%nat (map id rows)).

(** [app.post('/api/quiz/attempt')], index.ts:354 and 1251: the user is
    read as [req.user!.id], which throws when [req.user] is undefined; the
    [catch] answers that with a 500.  The lines written to the console are
    left out. *)
Definition quizAttempt (now : Z) (body : Body) (req : Middleware.Request)
    (rows : list t) : list t * Response t :=
  match Middleware.user req with
  | Some (userId, _) =>
      let attempt :=
        mk (freshId rows) userId (b_topicId body) (b_score body)
           (b_totalQuestions body) (b_correctAnswers body) now in
      (rows ++ [attempt], Json attempt)
  | None => (rows, Failure 500 ErrInternalServerError)
  end.

End Attempt.

(** ** The progress routes as they read the request *)

Module ProgressRoutes.

(** The handlers of the progress routes take the user as
    [(req as any).userId].  Prisma leaves a condition whose value is
    [undefined] out of a [where], and refuses a [create] whose required
    column is [undefined]. *)
Definition whereUser (userId : option string) (w : UserProgress.Where)
    : UserProgress.Where :=
  match userId with
  | Some u => UserProgress.AND (UserProgress.UserIdIs u) w
  | None => w
  end.

(** The [due] rows of [app.get('/api/review/due')], index.ts:1091. *)
Definition dueRows (userId : option string) (rows : list UserProgress.t)
    : list UserProgress.t :=
  UserProgress.findMany
    (whereUser userId (UserProgress.MasteryLevelLt 3))
    Scheduler.dueOrder (Some 20%nat) rows.

(** [app.get('/api/review/due')], index.ts:1087. *)
Definition reviewDue (req : Middleware.Request) (rows : list UserProgress.t)
    : list UserProgress.t * Response Scheduler.DueList :=
  let due := dueRows (Middleware.userId req) rows in
  (rows, Json {| Scheduler.total := length due;
                 Scheduler.items := map Scheduler.dueItem due |}).

(** [prisma.quizAttempt.findMany({ where: { userId } })] *)
Definition attemptsOf (userId : option string) (attemptRows : list QuizAttempt.t)
    : list QuizAttempt.t :=
  match userId with
  | Some u => QuizAttempt.ofUser u attemptRows
  | None => attemptRows
  end.

(** [prisma.userProgress.findMany({ where: { userId } })] *)
Definition progressOf (userId : option string) (rows : list UserProgress.t)
    : list UserProgress.t :=
  match userId with
  | Some u => UserProgress.findMany (UserProgress.UserIdIs u) [] None rows
  | None => rows
  end.

(** [app.get('/api/progress/summary')], index.ts:1058; the state is the
    two tables the handler reads. *)
Definition progressSummary (req : Middleware.Request)
    (s : list QuizAttempt.t * list UserProgress.t)
    : (list QuizAttempt.t * list UserProgress.t) * Response Scheduler.Summary :=
  let attempts := attemptsOf (Middleware.userId req) (fst s) in
  let progress := progressOf (Middleware.userId req) (snd s) in
  (s, Json {| Scheduler.totalAttempts := length attempts;
              Scheduler.avgScore := Scheduler.averageScore attempts;
              Scheduler.masteredTopics :=
                length (List.filter (fun p => 3 <=? UserProgress.masteryLevel p) progress);
              Scheduler.totalTrackedTopics := length progress;
              Scheduler.dueCount :=
                length (List.filter (fun p => UserProgress.masteryLevel p <? 3) progress) |}).

(** [findFirst({ where: { userId, topicId } })] *)
Definition findFirst (userId : option string) (tp : string)
    (rows : list UserProgress.t) : option UserProgress.t :=
  match userId with
  | Some u => UserProgress.findFirst u tp rows
  | None => List.find (fun p => String.eqb (UserProgress.topicId p) tp) rows
  end.

(** [app.post('/api/review/grade')], index.ts:1125, on the request. *)
Definition reviewGrade (now : Z) (body : Scheduler.GradeBody)
    (req : Middleware.Request) (rows : list UserProgress.t)
    : list UserProgress.t * Response Scheduler.Graded :=
  match Scheduler.topicId body, Scheduler.quality body with
  | Some tp, Some q =>
      if negb (Js.truthy tp) then (rows, Failure 400 ErrTopicAndQualityRequired)
      else if (q <? 0) || (5 <? q) then (rows, Failure 400 ErrQualityOutOfRange)
      else
        let found :=
          match findFirst (Middleware.userId req) tp rows with
          | Some p => Some (rows, p)
          | None =>
              match Middleware.userId req with
              | Some u => Some (UserProgress.create now u tp rows)
              | None => None
              end
          end in
        match found with
        | None => (rows, Failure 500 ErrInternalServerError)
        | Some (rows1, progress) =>
            let '(newMastery, nextDays) :=
              if 3 <=? q then
                let m := Z.min 5 (UserProgress.masteryLevel progress + 1) in
                (m, Scheduler.getNextIntervalDaysByMastery m)
              else (0, Some 1) in
            match nextDays with
            | Some days =>
                let next := now + days * Scheduler.msPerDay in
                match UserProgress.update (UserProgress.id progress)
                        (UserProgress.setReview now newMastery next) rows1 with
                | Some (rows2, updated) =>
                    (rows2,
                     Json {| Scheduler.masteryLevel := UserProgress.masteryLevel updated;
                             Scheduler.nextReview := UserProgress.nextReview updated |})
                | None => (rows1, Failure 500 ErrInternalServerError)
                end
            | None => (rows1, Failure 500 ErrInternalServerError)
            end
        end
  | _, _ => (rows, Failure 400 ErrTopicAndQualityRequired)
  end.

End ProgressRoutes.

(** ** Goals *)

Module Goal.

(** Modelled from the spec: [Goal] is declared in [prisma/schema.prisma],
    which is not among the sources; the columns are the ones the handlers
    write, with the [id] and [createdAt] they query by. *)
Record t := mk {
  id : nat;
  userId : string;
  name : string;
  type : string;
  targetPerDay : Z;
  startDate : Z;
  endDate : option Z;
  isActive : bool;
  createdAt : Z
}.

(** The body of [POST /api/goals]; a date is the time it parses to, and
    [None] where the field is missing or falsy. *)
Record NewGoal := {
  n_name : string;
  n_type : string;
  n_targetPerDay : option Z;
  n_startDate : option Z;
  n_endDate : option Z
}.

(** The body of [PATCH /api/goals/:id]: [None] is a field that is
    [undefined]; an [endDate] that is given but falsy is [Some None]. *)
Record Patch := {
  p_name : option string;
  p_type : option string;
  p_targetPerDay : option Z;
  p_isActive : option bool;
  p_endDate : option (option Z)
}.

Inductive Answer :=
| Ok (goal : t)           (* res.json({ goal }) *)
| Forbidden               (* res.status(403).json({ error: 'Forbidden' }) *)
| InternalServerError.    (* res.status(500).json({ error: 'Internal server error' }) *)

Definition freshId (rows : list t) : nat :=
  S (foldr Nat.max 0%nat (map id rows)).

(** [Number(targetPerDay) || 1] *)
Definition targetOrOne (x : option Z) : Z :=
  match x with
  | Some 0 | None => 1
  | Some n => n
  end.

(** [app.post('/api/goals')], index.ts:954, for the authenticated user. *)
Definition createGoal (now : Z) (userId : string) (body : NewGoal)
    (rows : list t) : list t * Answer :=
  let goal :=
    mk (freshId rows) userId (n_name body) (n_type body)
       (targetOrOne (n_targetPerDay body))
       (default now (n_startDate body))
       (n_endDate body) true now in
  (rows ++ [goal], Ok goal).

Definition newestFirst (g h : t) : Prop := createdAt h <= createdAt g.

Definition newestFirst_dec : RelDecision newestFirst :=
  fun g h => decide (createdAt h <= createdAt g).

(** [app.get('/api/goals')], index.ts:976:
    [findMany({ where: { userId }, orderBy: { createdAt: 'desc' } })]. *)
Definition listGoals (userId : string) (rows : list t) : list t :=
  @merge_sort _ newestFirst newestFirst_dec
    (List.filter (fun g => String.eqb (Goal.userId g) userId) rows).

(** The [data] of the update: only the fields that are not [undefined]. *)
Definition patched (body : Patch) (g : t) : t :=
  mk (id g) (Goal.userId g)
     (default (name g) (p_name body))
     (default (type g) (p_type body))
     (default (targetPerDay g) (p_targetPerDay body))
     (startDate g)
     (default (endDate g) (p_endDate body))
     (default (isActive g) (p_isActive body))
     (createdAt g).

(** [prisma.goal.update({ where: { id }, data })]; it throws ([None])
    when there is no such goal. *)
Definition update (i : nat) (f : t -> t) (rows : list t) : option (list t * t) :=
  match List.find (fun g => Nat.eqb (id g) i) rows with
  | Some g => Some (map (fun r => if Nat.eqb (id r) i then f r else r) rows, f g)
  | None => None
  end.

(** [app.patch('/api/goals/:id')], index.ts:987: the update comes first,
    the owner is compared afterwards. *)
Definition patchGoal (userId : string) (i : nat) (body : Patch) (rows : list t)
    : list t * Answer :=
  match update i (patched body) rows with
  | Some (rows', goal) =>
      if negb (String.eqb (Goal.userId goal) userId) then (rows', Forbidden)
      else (rows', Ok goal)
  | None => (rows, InternalServerError)
  end.

End Goal.

(** ** The import of a bundle of subjects, topics and questions *)

Module SubjectInput.
Record t := mk { slug : string; title : string; description : string }.
End SubjectInput.

Module TopicInput.
Record t := mk { subjectSlug : string; title : string; description : string }.
End TopicInput.

Module QuestionInput.

(** [correct?: number | number[]] *)
Inductive Correct := Index (i : Z) | Indices (l : list Z).

(** [correctAnswer?: string | string[]] *)
Inductive CorrectAnswer := Value (s : string) | Values (l : list string).

Record t := mk {
  topicTitle : string;
  type : string;
  text : string;
  options : list string;
  correct : option Correct;
  correctAnswer : option CorrectAnswer;
  explanation : string
}.

End QuestionInput.

Module Bundle.

Record Subject := subject {
  s_id : nat;
  s_slug : string;
  s_title : string;
  s_description : string;
  s_icon : string
}.

Record Topic := topic {
  t_id : nat;
  t_subjectId : nat;
  t_title : string;
  t_description : string;
  t_questionsCount : Z;
  t_difficulty : string
}.

(** The value that [createQuestion] gives as [correctAnswer]: one
    value, several, or [null]; a value read past the end of [options] is
    [undefined] ([None]). *)
Inductive Normalized :=
| One (v : option string)
| Many (vs : list (option string))
| Null.

Record Question := question {
  q_id : nat;
  q_topicId : nat;
  q_text : string;
  q_type : string;
  q_options : list string;
  q_correctAnswer : Normalized;
  q_explanation : string;
  q_difficulty : string
}.

(** Modelled from the spec: the three tables are declared in
    [prisma/schema.prisma], which is not among the sources; the columns
    are the ones the import writes, and a row holds the [data] of the
    call that made it. *)
Record Db := db {
  subjects : list Subject;
  topics : list Topic;
  questions : list Question
}.

Definition freshId {A} (key : A -> nat) (rows : list A) : nat :=
  S (foldr Nat.max 0%nat (map key rows)).

(** [upsertSubject]: [prisma.subject.upsert({ where: { slug }, update,
    create })]. *)
Definition upsertSubject (input : SubjectInput.t) (d : Db) : Db * Subject :=
  let bySlug := fun s => String.eqb (s_slug s) (SubjectInput.slug input) in
  match List.find bySlug (subjects d) with
  | Some found =>
      let updated :=
        subject (s_id found) (s_slug found) (SubjectInput.title input)
          (SubjectInput.description input) (s_icon found) in
      (db (map (fun s => if bySlug s then
                           subject (s_id s) (s_slug s) (SubjectInput.title input)
                             (SubjectInput.description input) (s_icon s)
                         else s) (subjects d))
          (topics d) (questions d),
       updated)
  | None =>
      let created :=
        subject (freshId s_id (subjects d)) (SubjectInput.slug input)
          (SubjectInput.title input) (SubjectInput.description input) "book" in
      (db (subjects d ++ [created]) (topics d) (questions d), created)
  end.

(** [createTopic] *)
Definition createTopic (subjectId : nat) (input : TopicInput.t) (d : Db) : Db * Topic :=
  let created :=
    topic (freshId t_id (topics d)) subjectId (TopicInput.title input)
      (TopicInput.description input) 0 "medium" in
  (db (subjects d) (topics d ++ [created]) (questions d), created).

(** The normalisation in [createQuestion]: [correctAnswer] when it is
    given, else the options that [correct] points at, else [null]. *)
Definition normalizedCorrect (q : QuestionInput.t) : Normalized :=
  match QuestionInput.correctAnswer q with
  | Some (QuestionInput.Value v) => One (Some v)
  | Some (QuestionInput.Values vs) => Many (map Some vs)
  | None =>
      match QuestionInput.correct q with
      | Some (QuestionInput.Indices l) =>
          Many (map (fun i => Js.index (QuestionInput.options q) i) l)
      | Some (QuestionInput.Index i) => One (Js.index (QuestionInput.options q) i)
      | None => Null
      end
  end.

(** [createQuestion].  [prisma.question.create] checks its [data]
    against the columns of [prisma/schema.prisma], which is not among the
    sources, and throws when it refuses a value: [accepts] is that check
    on the value given as [correctAnswer], and [None] is the throw. *)
Definition createQuestion (accepts : Normalized -> bool) (topicId : nat)
    (q : QuestionInput.t) (d : Db) : option (Db * Question) :=
  let created :=
    question (freshId q_id (questions d)) topicId (QuestionInput.text q)
      (QuestionInput.type q) (QuestionInput.options q) (normalizedCorrect q)
      (QuestionInput.explanation q) "medium" in
  if accepts (normalizedCorrect q)
  then Some (db (subjects d) (topics d) (questions d ++ [created]), created)
  else None.

(** The first two loops of [importBundle], each with the map it fills. *)
Definition importSubjects (inputs : list SubjectInput.t) (d : Db)
    : Db * gmap string nat :=
  fold_left
    (fun '(d, slugToId) s =>
       let '(d', subj) := upsertSubject s d in
       (d', <[SubjectInput.slug s := s_id subj]> slugToId))
    inputs (d, ∅).

Definition importTopics (slugToId : gmap string nat) (inputs : list TopicInput.t)
    (d : Db) : Db * gmap string nat :=
  fold_left
    (fun '(d, topicTitleToId) t =>
       match slugToId !! TopicInput.subjectSlug t with
       | None => (d, topicTitleToId)
       | Some subjectId =>
           let '(d', created) := createTopic subjectId t d in
           (d', <[TopicInput.title t := t_id created]> topicTitleToId)
       end)
    inputs (d, ∅).

(** The third loop, from [created] questions on; a [create] that
    throws ends the import there, with what was written so far left in
    the tables, and [None] for the number that is then never logged. *)
Fixpoint importQuestions (accepts : Normalized -> bool)
    (topicTitleToId : gmap string nat) (inputs : list QuestionInput.t)
    (d : Db) (created : nat) : Db * option nat :=
  match inputs with
  | [] => (d, Some created)
  | q :: rest =>
      match topicTitleToId !! QuestionInput.topicTitle q with
      | None => importQuestions accepts topicTitleToId rest d created
      | Some topicId =>
          match createQuestion accepts topicId q d with
          | Some (d', _) =>
              importQuestions accepts topicTitleToId rest d' (S created)
          | None => (d, None)
          end
      end
  end.

(** [importBundle], on the three lists read from the files of the
    bundle; the number is the [created] that is logged, and [None] when
    the import threw, which [main] logs before it exits with 1. *)
Definition importBundle (accepts : Normalized -> bool)
    (subjectInputs : list SubjectInput.t)
    (topicInputs : list TopicInput.t) (questionInputs : list QuestionInput.t)
    (d : Db) : Db * option nat :=
  let '(d1, slugToId) := importSubjects subjectInputs d in
  let '(d2, topicTitleToId) := importTopics slugToId topicInputs d1 in
  importQuestions accepts topicTitleToId questionInputs d2 0.

End Bundle.

(** ** The history of attempts *)

Module AttemptHistory.

(** [Math.min(parseInt(String(req.query.limit || '20'), 10) || 20, 100)],
    given what [parseInt] yields ([None] for [NaN]). *)
Definition pageLimit (parsed : option Z) : Z :=
  Z.min (match parsed with
         | Some 0 | None => 20
         | Some n => n
         end) 100.

Definition newestFirst (a b : Attempt.t) : Prop :=
  Attempt.completedAt b <= Attempt.completedAt a.

Definition newestFirst_dec : RelDecision newestFirst :=
  fun a b => decide (Attempt.completedAt b <= Attempt.completedAt a).

(** [findMany({ where: { userId }, orderBy: { completedAt: 'desc' },
    take })] *)
Definition newest (userId : string) (take_ : nat) (rows : list Attempt.t)
    : list Attempt.t :=
  take take_
    (@merge_sort _ newestFirst newestFirst_dec
       (List.filter (fun a => String.eqb (Attempt.userId a) userId) rows)).

(** [results.slice(0, -1)] *)
Definition dropLast {A} (l : list A) : list A := take (length l - 1) l.

(** [app.get('/api/stats/attempts')], index.ts:913, for a request without
    a cursor and a limit of at least 0: the items and the [nextCursor].
    The title of the topic that is added to each item is left out. *)
Definition attemptsPage (limit : Z) (userId : string) (rows : list Attempt.t)
    : list Attempt.t * option nat :=
  let results := newest userId (Z.to_nat (limit + 1)) rows in
  let hasMore := limit <? Z.of_nat (length results) in
  let items := if hasMore then dropLast results else results in
  (items, if hasMore then Attempt.id <$> last items else None).

End AttemptHistory.

(** * The words of the specification *)

(** The level a grade starts from: the stored one, or 0 for a topic
    that has no row yet. *)
Definition previousLevel (u tp : string) (rows : list UserProgress.t) : Z :=
  match UserProgress.findFirst u tp rows with
  | Some p => UserProgress.masteryLevel p
  | None => 0
  end.

(** The order of the due list: the earlier next review first, an unset
    next review after every date, and of two rows with the same next
    review the one updated later first. *)
Definition dueBefore (p q : UserProgress.t) : Prop :=
  match UserProgress.nextReview p, UserProgress.nextReview q with
  | None, None => UserProgress.updatedAt q <= UserProgress.updatedAt p
  | None, Some _ => False
  | Some _, None => True
  | Some a, Some b =>
      a < b \/ (a = b /\ UserProgress.updatedAt q <= UserProgress.updatedAt p)
  end.


(** The first row of a table for a user and a topic, and its level, 0
    when there is no such row. *)
Fixpoint firstRow (u tp : string) (rows : list UserProgress.t)
    : option UserProgress.t :=
  match rows with
  | [] => None
  | p :: rest =>
      if decide (UserProgress.userId p = u /\ UserProgress.topicId p = tp)
      then Some p
      else firstRow u tp rest
  end.

(** A row of another user or of another topic. *)
Definition elsewhere (u tp : string) (r : UserProgress.t) : bool :=
  negb (bool_decide (UserProgress.userId r = u /\ UserProgress.topicId r = tp)).

Definition levelBefore (u tp : string) (rows : list UserProgress.t) : Z :=
  match firstRow u tp rows with
  | Some p => UserProgress.masteryLevel p
  | None => 0
  end.

(** The sum of the scores of a list of attempts. *)
Definition totalScore (attempts : list QuizAttempt.t) : Z :=
  foldr (fun a s => QuizAttempt.score a + s) 0 attempts.

(** A registry with one code, sent by SMS to one phone and good until
    1000. *)
Definition smsWorld : Auth.World :=
  Auth.world (Some (<["123456" := AuthCode.mk None (Some "+70000000001") None 1000]> ∅))
        [] [] [].

(** Every stored level is one of 0 to 5. *)
Definition levelsInRange (rows : list UserProgress.t) : Prop :=
  Forall (fun p => 0 <= UserProgress.masteryLevel p <= 5) rows.

(** The primary key: no two rows share an [id]. *)
Definition idsUnique (rows : list UserProgress.t) : Prop :=
  NoDup (map UserProgress.id rows).

(** At most one row for a user and a topic. *)
Definition keysUnique (rows : list UserProgress.t) : Prop :=
  NoDup (map (fun p => (UserProgress.userId p, UserProgress.topicId p)) rows).

(** The level and the interval that the grade [q] gives to a row at the
    level [prev]. *)
Definition gradedLevel (q prev : Z) : Z :=
  if 3 <=? q then Z.min 5 (prev + 1) else 0.

Definition gradedDays (q prev : Z) : Z :=
  if 3 <=? q
  then default 1 (Scheduler.getNextIntervalDaysByMastery (gradedLevel q prev))
  else 1.

(** What an accepted grade [q], found at the level [prev], writes into a
    row. *)
Definition graded (now q prev : Z) : UserProgress.t -> UserProgress.t :=
  UserProgress.setReview now (gradedLevel q prev)
    (now + gradedDays q prev * Scheduler.msPerDay).

(** The table after the grades [qs], one request after the other, for
    one user and topic. *)
Definition gradeAll (now : Z) (u tp : string) (qs : list Z)
    (rows : list UserProgress.t) : list UserProgress.t :=
  fold_left
    (fun rows q =>
       fst (Scheduler.reviewGrade now u
              {| Scheduler.topicId := Some tp; Scheduler.quality := Some q |} rows))
    qs rows.

(** The update of the row with the key [i]. *)
Definition rewriteKey (i : nat) (f : UserProgress.t -> UserProgress.t)
    (r : UserProgress.t) : UserProgress.t :=
  if Nat.eqb (UserProgress.id r) i then f r else r.

(** A row of the user whose next review has come or was never set:
    what the earlier version lists as due. *)
Definition dueByDate (now : Z) (u : string) (p : UserProgress.t) : bool :=
  String.eqb (UserProgress.userId p) u &&
  match UserProgress.nextReview p with
  | Some r => r <=? now
  | None => true
  end.

(** A row of the user that was never scheduled. *)
Definition neverScheduled (u : string) (p : UserProgress.t) : bool :=
  String.eqb (UserProgress.userId p) u &&
  match UserProgress.nextReview p with
  | Some _ => false
  | None => true
  end.

(** A decimal digit. *)
Definition isDigit (c : ascii) : bool :=
  (48 <=? nat_of_ascii c)%nat && (nat_of_ascii c <=? 57)%nat.

Fixpoint allDigits (s : string) : bool :=
  match s with
  | EmptyString => true
  | String c rest => isDigit c && allDigits rest
  end.

(** How a verification resolves its user: the first row that has the
    identity, or else a new row after the others, with a new [id]. *)
Definition resolved (by_ : User.t -> bool) (users users' : list User.t)
    (user : User.t) : Prop :=
  (List.find by_ users = Some user /\ users' = users) \/
  (List.find by_ users = None /\ users' = users ++ [user] /\
   forall x, In x users -> (User.id x < User.id user)%nat).

(** A row below level 3, whoever it belongs to. *)
Definition belowThree (p : UserProgress.t) : bool :=
  UserProgress.masteryLevel p <? 3.



(** The questions that are written before the first one whose correct
    answer is refused. *)
Fixpoint acceptedPrefix (accepts : Bundle.Normalized -> bool)
    (l : list QuestionInput.t) : list QuestionInput.t :=
  match l with
  | [] => []
  | q :: rest =>
      if accepts (Bundle.normalizedCorrect q)
      then q :: acceptedPrefix accepts rest
      else []
  end.

Definition allAccepted (accepts : Bundle.Normalized -> bool)
    (l : list QuestionInput.t) : bool :=
  forallb (fun q => accepts (Bundle.normalizedCorrect q)) l.

(** * Properties of the review scheduler *)

Section IntervalLadder.

Import Scheduler.

Lemma getNextIntervalDaysByMastery_clamp (level : Z) :
  getNextIntervalDaysByMastery level =
    Js.index mapping (Z.max 0 (Z.min level 5)).
Proof. reflexivity. Qed.

Lemma index_mapping (i : Z) :
  0 <= i <= 5 ->
  Js.index mapping i = Some (nth (Z.to_nat i) [1; 2; 4; 7; 14; 30] 0).
Proof.
  intros Hi.
  assert (i = 0 \/ i = 1 \/ i = 2 \/ i = 3 \/ i = 4 \/ i = 5) as Hc by lia.
  destruct Hc as [->|[->|[->|[->|[->| ->]]]]]; reflexivity.
Qed.

(** C2.  On the levels 0 to 5 [getNextIntervalDaysByMastery] reads the
    ladder 1, 2, 4, 7, 14, 30 at the level; below 0 it answers 1, the
    entry of level 0, and above 5 it answers 30, the entry of level 5. *)
Theorem interval_ladder (level : Z) :
  (0 <= level <= 5 ->
     getNextIntervalDaysByMastery level =
       Some (nth (Z.to_nat level) [1; 2; 4; 7; 14; 30] 0)) /\
  (level < 0 -> getNextIntervalDaysByMastery level = Some 1) /\
  (5 < level -> getNextIntervalDaysByMastery level = Some 30).
Proof.
  rewrite getNextIntervalDaysByMastery_clamp. repeat split; intros H.
  - replace (Z.max 0 (Z.min level 5)) with level by lia.
    now apply index_mapping.
  - replace (Z.max 0 (Z.min level 5)) with 0 by lia. reflexivity.
  - replace (Z.max 0 (Z.min level 5)) with 5 by lia. reflexivity.
Qed.

Lemma interval_ladder_witness :
  getNextIntervalDaysByMastery 3 = Some 7 /\
  getNextIntervalDaysByMastery (-2) = Some 1 /\
  getNextIntervalDaysByMastery 9 = Some 30.
Proof.
  split; [| split].
  - apply (proj1 (interval_ladder 3)). lia.
  - apply (proj1 (proj2 (interval_ladder (-2)))). lia.
  - apply (proj2 (proj2 (interval_ladder 9))). lia.
Defined.

(** The ladder read at a level of at most 5; a level below 0 reads the
    first entry. *)
Lemma interval_days (level : Z) :
  level <= 5 ->
  getNextIntervalDaysByMastery level =
    Some (nth (Z.to_nat level) [1; 2; 4; 7; 14; 30] 0) /\
  1 <= nth (Z.to_nat level) [1; 2; 4; 7; 14; 30] 0 <= 30.
Proof.
  intros H. rewrite getNextIntervalDaysByMastery_clamp.
  destruct (Z.le_gt_cases 0 level) as [H0|H0].
  - replace (Z.max 0 (Z.min level 5)) with level by lia.
    assert (level = 0 \/ level = 1 \/ level = 2 \/ level = 3 \/ level = 4 \/ level = 5)
      as Hc by lia.
    destruct Hc as [->|[->|[->|[->|[->| ->]]]]]; (split; [reflexivity | simpl; lia]).
  - replace (Z.max 0 (Z.min level 5)) with 0 by lia.
    replace (Z.to_nat level) with 0%nat by lia. split; [reflexivity | simpl; lia].
Qed.

Lemma getNextIntervalDaysByMastery_total (level : Z) :
  exists days, getNextIntervalDaysByMastery level = Some days /\ 1 <= days <= 30.
Proof.
  rewrite getNextIntervalDaysByMastery_clamp.
  assert (H : 0 <= Z.max 0 (Z.min level 5) <= 5) by lia.
  revert H. generalize (Z.max 0 (Z.min level 5)). intros i Hi.
  assert (i = 0 \/ i = 1 \/ i = 2 \/ i = 3 \/ i = 4 \/ i = 5) as Hc by lia.
  destruct Hc as [->|[->|[->|[->|[->| ->]]]]];
    eexists; (split; [reflexivity | lia]).
Qed.

End IntervalLadder.

Section ProgressStore.

Import UserProgress.

Lemma find_map_stable {A} (P : A -> bool) (g : A -> A) (l : list A) :
  (forall x, P (g x) = P x) ->
  List.find P (map g l) = g <$> List.find P l.
Proof.
  intros Hg. induction l as [|x l IH]; simpl; [reflexivity|].
  rewrite Hg. destruct (P x); [reflexivity | exact IH].
Qed.

Lemma find_app_last {A} (P : A -> bool) (l : list A) (x : A) :
  List.find P l = None -> P x = true -> List.find P (l ++ [x]) = Some x.
Proof.
  intros Hn Hx. induction l as [|y l IH]; simpl in *.
  - now rewrite Hx.
  - destruct (P y); [discriminate | now apply IH].
Qed.

Lemma find_key_exists (rows : list t) (p : t) :
  In p rows ->
  exists p0, List.find (fun r => Nat.eqb (id r) (id p)) rows = Some p0
             /\ id p0 = id p.
Proof.
  induction rows as [|r rows IH]; simpl; [tauto|]. intros [-> | Hin].
  - rewrite Nat.eqb_refl. eauto.
  - destruct (Nat.eqb (id r) (id p)) eqn:E.
    + exists r. split; [reflexivity | now apply Nat.eqb_eq].
    + now apply IH.
Qed.

Lemma ofUserTopic_setReview u tp now level next p :
  ofUserTopic u tp (setReview now level next p) = ofUserTopic u tp p.
Proof. reflexivity. Qed.

(** Updating the row that [findFirst] gave leaves it the first row of
    its user and topic, with the new content. *)
Lemma update_found u tp f rows p :
  (forall r, ofUserTopic u tp (f r) = ofUserTopic u tp r) ->
  findFirst u tp rows = Some p ->
  exists rows' p0,
    update (id p) f rows = Some (rows', f p0) /\ id p0 = id p /\
    findFirst u tp rows' = Some (f p).
Proof.
  intros Hf Hfind. unfold update.
  destruct (find_key_exists rows p) as (p0 & Hp0 & Hid).
  { unfold findFirst in Hfind. now apply find_some in Hfind. }
  rewrite Hp0. eexists _, p0. split; [reflexivity|]. split; [exact Hid|].
  unfold findFirst in *. rewrite find_map_stable.
  - rewrite Hfind. simpl. now rewrite Nat.eqb_refl.
  - intros x. destruct (Nat.eqb (id x) (id p)); [apply Hf | reflexivity].
Qed.

Lemma create_found now u tp rows :
  findFirst u tp rows = None ->
  findFirst u tp (fst (create now u tp rows)) = Some (snd (create now u tp rows))
  /\ masteryLevel (snd (create now u tp rows)) = 0
  /\ In (snd (create now u tp rows)) (fst (create now u tp rows)).
Proof.
  intros Hn. unfold create; simpl. repeat split.
  - apply find_app_last; [exact Hn|].
    unfold ofUserTopic; simpl. now rewrite !String.eqb_refl.
  - apply in_or_app. right. now left.
Qed.

End ProgressStore.

Section Grading.

Import Scheduler.

Lemma grade_step now u tp rows level next :
  exists rows1 progress rows2 updated,
    (rows1, progress) =
      match UserProgress.findFirst u tp rows with
      | Some p => (rows, p)
      | None => UserProgress.create now u tp rows
      end /\
    UserProgress.masteryLevel progress = previousLevel u tp rows /\
    UserProgress.update (UserProgress.id progress)
      (UserProgress.setReview now level next) rows1 = Some (rows2, updated) /\
    UserProgress.masteryLevel updated = level /\
    UserProgress.nextReview updated = Some next /\
    UserProgress.findFirst u tp rows2 =
      Some (UserProgress.setReview now level next progress).
Proof.
  unfold previousLevel.
  destruct (UserProgress.findFirst u tp rows) as [p|] eqn:Hfind.
  - destruct (update_found u tp (UserProgress.setReview now level next) rows p)
      as (rows2 & p0 & Hup & _ & Hfound); [reflexivity | exact Hfind |].
    exists rows, p, rows2, (UserProgress.setReview now level next p0).
    repeat split; eauto.
  - destruct (create_found now u tp rows Hfind) as (Hfirst & Hzero & _).
    destruct (UserProgress.create now u tp rows) as [rows1 p] eqn:Hc.
    simpl in Hfirst, Hzero.
    destruct (update_found u tp (UserProgress.setReview now level next) rows1 p)
      as (rows2 & p0 & Hup & _ & Hfound); [reflexivity | exact Hfirst |].
    exists rows1, p, rows2, (UserProgress.setReview now level next p0).
    repeat split; eauto.
Qed.

Lemma firstRow_findFirst (u tp : string) (rows : list UserProgress.t) :
  firstRow u tp rows = UserProgress.findFirst u tp rows.
Proof.
  unfold UserProgress.findFirst.
  induction rows as [|p rows IH]; [reflexivity|].
  cbn [firstRow List.find]. unfold UserProgress.ofUserTopic at 1.
  destruct (decide (UserProgress.userId p = u /\ UserProgress.topicId p = tp))
    as [[Hu Ht]|Hne].
  - apply String.eqb_eq in Hu, Ht. now rewrite Hu, Ht.
  - rewrite IH.
    destruct (String.eqb (UserProgress.userId p) u) eqn:Eu;
      destruct (String.eqb (UserProgress.topicId p) tp) eqn:Et; try reflexivity.
    apply String.eqb_eq in Eu, Et. now contradiction Hne.
Qed.

Lemma firstRow_key (u tp : string) (rows : list UserProgress.t) (p : UserProgress.t) :
  firstRow u tp rows = Some p ->
  UserProgress.userId p = u /\ UserProgress.topicId p = tp /\ In p rows.
Proof.
  induction rows as [|r rows IH]; [discriminate|]. cbn [firstRow].
  destruct (decide (UserProgress.userId r = u /\ UserProgress.topicId r = tp))
    as [[Hu Ht]|_].
  - intros [= <-]. split; [exact Hu|]. split; [exact Ht | now left].
  - intros H. destruct (IH H) as (Hu & Ht & Hin). split; [exact Hu|].
    split; [exact Ht | now right].
Qed.

Lemma levelBefore_previousLevel (u tp : string) (rows : list UserProgress.t) :
  levelBefore u tp rows = previousLevel u tp rows.
Proof. unfold levelBefore, previousLevel. now rewrite firstRow_findFirst. Qed.

(** C1.  A grade from 0 to 5 for a topic is stored and answered as
    follows.  From 3 up the level becomes min(5, previous level + 1),
    the previous level being that of the first row with the user and the
    topic, or 0 without one, and the next review is as many days of
    86400000 ms after now as the ladder 1, 2, 4, 7, 14, 30 has at the new
    level; below 3 the level becomes 0 and the next review is one day
    after now.  Either way the first row with the user and the topic
    then carries that level and next review and now as its last review,
    and the answer carries the stored level and next review. *)
Theorem reviewGrade_schedule (now : Z) (u tp : string) (q : Z)
    (rows : list UserProgress.t) :
  Js.truthy tp = true ->
  0 <= q <= 5 ->
  exists rows' stored level days,
    reviewGrade now u {| topicId := Some tp; quality := Some q |} rows =
      (rows', Json {| masteryLevel := level;
                      nextReview := Some (now + days * 86400000) |}) /\
    (3 <= q ->
       level = Z.min 5 (levelBefore u tp rows + 1) /\
       days = nth (Z.to_nat level) [1; 2; 4; 7; 14; 30] 0) /\
    (q < 3 -> level = 0 /\ days = 1) /\
    firstRow u tp rows' = Some stored /\
    UserProgress.userId stored = u /\
    UserProgress.topicId stored = tp /\
    UserProgress.masteryLevel stored = level /\
    UserProgress.nextReview stored = Some (now + days * 86400000) /\
    UserProgress.lastReviewed stored = Some now.
Proof.
  intros Htp Hq. unfold reviewGrade; simpl. rewrite Htp; simpl.
  replace ((q <? 0) || (5 <? q)) with false by
    (symmetry; apply orb_false_iff; split; apply Z.ltb_ge; lia).
  set (level := if 3 <=? q then Z.min 5 (previousLevel u tp rows + 1) else 0).
  destruct (getNextIntervalDaysByMastery_total level) as (d & Hd & _).
  set (days := if 3 <=? q then d else 1).
  destruct (grade_step now u tp rows level (now + days * msPerDay))
    as (rows1 & progress & rows2 & updated & Hget & Hprev & Hup & Hlev & Hnext & Hfound).
  rewrite <- Hget.
  assert (Hpair : (if 3 <=? q
                   then (Z.min 5 (UserProgress.masteryLevel progress + 1),
                         getNextIntervalDaysByMastery
                           (Z.min 5 (UserProgress.masteryLevel progress + 1)))
                   else (0, Some 1)) = (level, Some days)).
  { subst level days. rewrite Hprev. destruct (3 <=? q) eqn:E.
    - now rewrite Hd.
    - reflexivity. }
  rewrite Hpair. rewrite Hup.
  exists rows2, (UserProgress.setReview now level (now + days * msPerDay) progress),
    level, days.
  rewrite Hlev, Hnext. rewrite <- firstRow_findFirst in Hfound.
  destruct (firstRow_key _ _ _ _ Hfound) as (Hu & Ht & _).
  change msPerDay with 86400000 in *.
  split; [reflexivity|].
  split; [| split; [| split; [exact Hfound | split; [exact Hu | split; [exact Ht|]]]]].
  - intros H3. subst level days. rewrite levelBefore_previousLevel.
    replace (3 <=? q) with true in * by (symmetry; apply Z.leb_le; lia).
    split; [reflexivity|].
    destruct (interval_days (Z.min 5 (previousLevel u tp rows + 1))) as [Hi _].
    { lia. }
    rewrite Hi in Hd. now inversion Hd.
  - intros H3. subst level days.
    replace (3 <=? q) with false by (symmetry; apply Z.leb_gt; lia).
    split; reflexivity.
  - repeat split.
Qed.

Lemma reviewGrade_schedule_witness :
  exists rows' stored level days,
    reviewGrade 1000 "u1" {| topicId := Some "t1"; quality := Some 5 |} [] =
      (rows', Json {| masteryLevel := level;
                      nextReview := Some (1000 + days * 86400000) |}) /\
    (3 <= 5 ->
       level = Z.min 5 (levelBefore "u1" "t1" [] + 1) /\
       days = nth (Z.to_nat level) [1; 2; 4; 7; 14; 30] 0) /\
    (5 < 3 -> level = 0 /\ days = 1) /\
    firstRow "u1" "t1" rows' = Some stored /\
    UserProgress.userId stored = "u1" /\
    UserProgress.topicId stored = "t1" /\
    UserProgress.masteryLevel stored = level /\
    UserProgress.nextReview stored = Some (1000 + days * 86400000) /\
    UserProgress.lastReviewed stored = Some 1000.
Proof.
  apply (reviewGrade_schedule 1000 "u1" "t1" 5 []); [reflexivity | lia].
Defined.

(** The examples of the specification, run. *)
Example grade_fresh_topic :
  snd (reviewGrade 0 "u1" {| topicId := Some "t1"; quality := Some 5 |} []) =
    Json {| masteryLevel := 1; nextReview := Some (2 * msPerDay) |}.
Proof. reflexivity. Qed.

Example grade_failure_resets :
  snd (reviewGrade 0 "u1" {| topicId := Some "t1"; quality := Some 2 |}
         [UserProgress.mk 1 "u1" "t1" 4 None None 0]) =
    Json {| masteryLevel := 0; nextReview := Some (1 * msPerDay) |}.
Proof. reflexivity. Qed.

(** Six passing grades in a row from a fresh topic stop at level 5. *)
Example grade_six_passes_saturate :
  let pass rows := fst (reviewGrade 0 "u1" {| topicId := Some "t1"; quality := Some 5 |} rows) in
  map UserProgress.masteryLevel (pass (pass (pass (pass (pass (pass [])))))) = [5] /\
  map UserProgress.masteryLevel (pass (pass (pass (pass (pass [])))))  = [5] /\
  map UserProgress.masteryLevel (pass (pass (pass (pass []))))  = [4].
Proof. repeat split. Qed.

(** C3.  A grade below 0 or above 5 is answered with a 400 of the
    invalid-input kind and the progress table is returned as it was:
    no row is created and none is updated. *)
Theorem reviewGrade_out_of_range (now : Z) (u : string) (body : GradeBody)
    (q : Z) (rows : list UserProgress.t) :
  quality body = Some q ->
  q < 0 \/ 5 < q ->
  fst (reviewGrade now u body rows) = rows /\
  failsWith (snd (reviewGrade now u body rows)) InvalidInput.
Proof.
  intros Hq Hout. unfold reviewGrade. rewrite Hq.
  destruct (topicId body) as [tp|].
  - destruct (negb (Js.truthy tp)).
    + split; [reflexivity|]. eexists; split; reflexivity.
    + replace ((q <? 0) || (5 <? q)) with true.
      * split; [reflexivity|]. eexists; split; reflexivity.
      * symmetry. apply orb_true_iff.
        destruct Hout; [left; apply Z.ltb_lt | right; apply Z.ltb_lt]; lia.
  - split; [reflexivity|]. eexists; split; reflexivity.
Qed.

Lemma reviewGrade_out_of_range_witness :
  (fst (reviewGrade 0 "u1" {| topicId := Some "t1"; quality := Some 6 |} []) = [] /\
   failsWith
     (snd (reviewGrade 0 "u1" {| topicId := Some "t1"; quality := Some 6 |} []))
     InvalidInput) /\
  (fst (reviewGrade 0 "u1" {| topicId := Some "t1"; quality := Some (-1) |} []) = [] /\
   failsWith
     (snd (reviewGrade 0 "u1" {| topicId := Some "t1"; quality := Some (-1) |} []))
     InvalidInput).
Proof.
  split.
  - apply (reviewGrade_out_of_range 0 "u1" _ 6 []); [reflexivity | lia].
  - apply (reviewGrade_out_of_range 0 "u1" _ (-1) []); [reflexivity | lia].
Defined.

(** A body without a topic is turned away before the grade is looked
    at. *)
Lemma reviewGrade_topic_required now u body rows :
  Js.present (topicId body) = false ->
  reviewGrade now u body rows = (rows, Failure 400 ErrTopicAndQualityRequired).
Proof.
  unfold reviewGrade, Js.present. destruct (topicId body) as [tp|]; intros H.
  - rewrite H. simpl. now destruct (quality body).
  - reflexivity.
Qed.

End Grading.

Section Headers.

Import Middleware.

Lemma prefix_slice (p h : string) :
  String.prefix p h = true -> h = p +:+ slice (String.length p) h.
Proof.
  revert h. induction p as [|a p IH]; intros h H; [reflexivity|].
  destruct h as [|c h]; [discriminate H|].
  cbn [String.prefix] in H. destruct (ascii_dec a c) as [<-|]; [|discriminate H].
  cbn [String.length slice].
  change (String a h = String a (p +:+ slice (String.length p) h)).
  f_equal. now apply IH.
Qed.

Lemma bearer_prefix (h : string) :
  String.prefix "Bearer " h = true -> h = "Bearer " +:+ slice 7 h.
Proof. apply (prefix_slice "Bearer "). Qed.

Lemma prefix_append (p t : string) :
  String.prefix p (p +:+ t) = true /\ slice (String.length p) (p +:+ t) = t.
Proof.
  induction p as [|a p [IH1 IH2]].
  - split; [now destruct t | reflexivity].
  - change (String a p +:+ t) with (String a (p +:+ t)).
    cbn [String.prefix String.length slice].
    destruct (ascii_dec a a) as [_|Hne]; [now split | now contradiction Hne].
Qed.

Lemma bearerToken_of_header (token : string) (req : Request) :
  authorization req = Some ("Bearer " +:+ token) -> bearerToken req = token.
Proof.
  intros H. unfold bearerToken. rewrite H.
  destruct (prefix_append "Bearer " token) as [Hp Hs].
  change (default "" (Some ("Bearer " +:+ token))) with ("Bearer " +:+ token).
  rewrite Hp. exact Hs.
Qed.

Lemma bearerToken_truthy (req : Request) :
  Js.truthy (bearerToken req) = true ->
  authorization req = Some ("Bearer " +:+ bearerToken req).
Proof.
  unfold bearerToken. destruct (authorization req) as [h|]; simpl.
  - destruct (String.prefix "Bearer " h) eqn:Hp; [|discriminate].
    intros _. f_equal. now apply bearer_prefix.
  - discriminate.
Qed.

Lemma truthy_nonempty (s : string) : Js.truthy s = true <-> s <> "".
Proof.
  unfold Js.truthy. rewrite negb_true_iff. apply String.eqb_neq.
Qed.

(** A request with a token that verifies goes on to the handler, with
    the user of the token in [req.user] and [req.userId] as it came. *)
Lemma requireAuth_next (verify : string -> option string) (req : Request)
    (token uid : string) :
  authorization req = Some ("Bearer " +:+ token) -> token <> "" ->
  verify token = Some uid ->
  requireAuth verify req =
    Next (request (authorization req) (Some (uid, "")) (userId req)).
Proof.
  intros Hh Hne Hv. unfold requireAuth.
  rewrite (bearerToken_of_header token req Hh).
  apply truthy_nonempty in Hne. now rewrite Hne, Hv.
Qed.

End Headers.

Section DueItems.

Import Scheduler.

Lemma precedes_dueOrder p q :
  UserProgress.precedes dueOrder p q <-> dueBefore p q.
Proof.
  unfold UserProgress.precedes, dueBefore, dueOrder; simpl.
  unfold UserProgress.compareNullable.
  destruct (UserProgress.nextReview p) as [a|], (UserProgress.nextReview q) as [b|];
    simpl.
  - destruct (Z.compare_spec a b) as [Hab|Hab|Hab]; simpl.
    + destruct (Z.compare_spec (UserProgress.updatedAt p) (UserProgress.updatedAt q))
        as [Hpq|Hpq|Hpq]; simpl; split; intros Hx;
        try discriminate; try lia; try (exfalso; now apply Hx).
    + split; [intros _; now left | discriminate].
    + split; [intros Hx; now contradiction Hx | lia].
  - split; [intros _; exact I | discriminate].
  - split; [intros Hx; now contradiction Hx | tauto].
  - destruct (Z.compare_spec (UserProgress.updatedAt p) (UserProgress.updatedAt q))
      as [Hpq|Hpq|Hpq]; simpl; split; intros Hx;
      try discriminate; try lia; try (exfalso; now apply Hx).
Qed.

Lemma dueBefore_total p q : dueBefore p q \/ dueBefore q p.
Proof.
  unfold dueBefore.
  destruct (UserProgress.nextReview p), (UserProgress.nextReview q); try tauto; lia.
Qed.

Lemma dueBefore_trans p q r : dueBefore p q -> dueBefore q r -> dueBefore p r.
Proof.
  unfold dueBefore.
  destruct (UserProgress.nextReview p), (UserProgress.nextReview q),
    (UserProgress.nextReview r); try tauto; lia.
Qed.

#[local] Instance precedes_dueOrder_total : Total (UserProgress.precedes dueOrder).
Proof. intros p q. rewrite !precedes_dueOrder. apply dueBefore_total. Qed.

#[local] Instance precedes_dueOrder_trans : Transitive (UserProgress.precedes dueOrder).
Proof. intros p q r. rewrite !precedes_dueOrder. apply dueBefore_trans. Qed.

Lemma StronglySorted_iff {A} (R S : relation A) (l : list A) :
  (forall x y, R x y <-> S x y) -> StronglySorted R l -> StronglySorted S l.
Proof.
  intros HRS. induction 1 as [|x l _ IH Hall]; constructor; [exact IH|].
  eapply Forall_impl; [exact Hall|]. intros y. apply HRS.
Qed.

Lemma filter_complement {A} (f : A -> bool) (l : list A) :
  Permutation (List.filter f l ++ List.filter (fun x => negb (f x)) l) l.
Proof.
  induction l as [|x l IH]; simpl; [constructor|].
  destruct (f x); simpl.
  - now constructor.
  - rewrite <- Permutation_middle. now constructor.
Qed.

(** What [findMany] with the order of the due list and a [take] gives:
    the head of the rows that meet the [where], in that order. *)
Lemma findMany_dueOrder (w : UserProgress.Where) (n : nat)
    (rows : list UserProgress.t) :
  exists rest,
    Permutation (UserProgress.findMany w dueOrder (Some n) rows ++ rest)
      (List.filter (UserProgress.holds w) rows) /\
    StronglySorted dueBefore (UserProgress.findMany w dueOrder (Some n) rows) /\
    (forall p q,
       In p (UserProgress.findMany w dueOrder (Some n) rows) -> In q rest ->
       dueBefore p q) /\
    length (UserProgress.findMany w dueOrder (Some n) rows) =
      Nat.min n (length (List.filter (UserProgress.holds w) rows)).
Proof.
  set (found := List.filter (UserProgress.holds w) rows).
  pose (sorted := @merge_sort _ (UserProgress.precedes dueOrder)
                    (UserProgress.precedes_dec dueOrder) found).
  assert (Hdue : UserProgress.findMany w dueOrder (Some n) rows = take n sorted)
    by reflexivity.
  assert (Hperm : Permutation sorted found) by apply merge_sort_Permutation.
  assert (Hsort : StronglySorted dueBefore sorted).
  { apply (StronglySorted_iff (UserProgress.precedes dueOrder));
      [apply precedes_dueOrder|].
    apply StronglySorted_merge_sort; apply _. }
  rewrite Hdue. rewrite <- (take_drop n sorted) in Hsort, Hperm.
  exists (drop n sorted). split; [exact Hperm|]. split; [| split].
  - now apply StronglySorted_app_1_l in Hsort.
  - intros p q Hp Hq.
    apply (StronglySorted_app_1_elem_of _ _ _ p q Hsort);
      now apply list_elem_of_In.
  - rewrite length_take. f_equal.
    rewrite <- (Permutation_length Hperm), take_drop. reflexivity.
Qed.




(** The first version of the route goes by the date instead: a
    mastered row whose next review has come is listed there, and a row
    below level 3 whose next review is still ahead is not. *)
Example earlier_reviewDue_goes_by_date :
  let mastered := UserProgress.mk 1 "u1" "t1" 4 (Some 0) (Some 10) 0 in
  let fresh := UserProgress.mk 2 "u1" "t2" 1 (Some 0) (Some 500) 0 in
  Earlier.dueRows 100 "u1" [mastered; fresh] = [mastered] /\
  ProgressRoutes.dueRows (Some "u1") [mastered; fresh] = [fresh].
Proof. split; vm_compute; reflexivity. Qed.

End DueItems.

Section Summary.

Import Scheduler.

Lemma fold_left_scores attempts acc :
  fold_left (fun s a => s + QuizAttempt.score a) attempts acc =
    acc + totalScore attempts.
Proof.
  revert acc. induction attempts as [|a l IH]; intros acc; simpl.
  - lia.
  - rewrite IH. unfold totalScore. lia.
Qed.

Lemma sumScores_total attempts : sumScores attempts = totalScore attempts.
Proof. unfold sumScores. now rewrite fold_left_scores. Qed.

(** [Js.round_div a b] is within a half of [a / b], the half going up. *)
Lemma round_div_nearest (a b : Z) :
  0 < b ->
  2 * a - b < 2 * b * Js.round_div a b <= 2 * a + b.
Proof.
  intros Hb. unfold Js.round_div.
  pose proof (Z.div_mod (2 * a + b) (2 * b) ltac:(lia)) as Hdm.
  pose proof (Z.mod_pos_bound (2 * a + b) (2 * b) ltac:(lia)) as Hmod.
  lia.
Qed.

Lemma filter_filter_length {A} (f g : A -> bool) (l : list A) :
  length (List.filter f (List.filter g l)) =
    length (List.filter (fun x => g x && f x) l).
Proof.
  induction l as [|x l IH]; simpl; [reflexivity|].
  destruct (g x); simpl; [destruct (f x); simpl; congruence | exact IH].
Qed.

Lemma averageScore_nearest (attempts : list QuizAttempt.t) :
  (Z.of_nat (length attempts) = 0 /\ averageScore attempts = 0) \/
  (0 < Z.of_nat (length attempts) /\
   2 * totalScore attempts - Z.of_nat (length attempts)
     < 2 * Z.of_nat (length attempts) * averageScore attempts
     <= 2 * totalScore attempts + Z.of_nat (length attempts)).
Proof.
  unfold averageScore. destruct (0 <? length attempts)%nat eqn:E.
  - right. apply Nat.ltb_lt in E. split; [lia|].
    rewrite sumScores_total. apply round_div_nearest. lia.
  - left. apply Nat.ltb_ge in E. split; [lia | reflexivity].
Qed.

(** The handler itself counts as the specification says once it is given
    a user:
    with a user id on the request the five numbers are those of that
    user's attempts and rows. *)
Lemma progressSummary_with_user (req : Middleware.Request) (u : string)
    (attemptRows : list QuizAttempt.t) (rows : list UserProgress.t) :
  Middleware.userId req = Some u ->
  let attempts :=
    List.filter (fun a => String.eqb (QuizAttempt.userId a) u) attemptRows in
  let n := Z.of_nat (length attempts) in
  exists s,
    ProgressRoutes.progressSummary req (attemptRows, rows) =
      ((attemptRows, rows), Json s) /\
    totalAttempts s = length attempts /\
    ((n = 0 /\ avgScore s = 0) \/
     (0 < n /\
      2 * totalScore attempts - n < 2 * n * avgScore s <= 2 * totalScore attempts + n)) /\
    masteredTopics s =
      length (List.filter
                (fun p => String.eqb (UserProgress.userId p) u
                          && (3 <=? UserProgress.masteryLevel p)) rows) /\
    totalTrackedTopics s =
      length (List.filter (fun p => String.eqb (UserProgress.userId p) u) rows) /\
    dueCount s =
      length (List.filter
                (fun p => String.eqb (UserProgress.userId p) u
                          && (UserProgress.masteryLevel p <? 3)) rows).
Proof.
  intros Hu attempts n. unfold ProgressRoutes.progressSummary. rewrite Hu.
  eexists. split; [reflexivity|]. cbn [totalAttempts avgScore masteredTopics
    totalTrackedTopics dueCount fst snd ProgressRoutes.attemptsOf
    ProgressRoutes.progressOf].
  split; [reflexivity|]. split; [apply averageScore_nearest|].
  unfold UserProgress.findMany; simpl.
  split; [apply filter_filter_length|]. split; [reflexivity|].
  apply filter_filter_length.
Qed.

(** C7.  Behind the middleware of index.ts:831 the summary of
    index.ts:1058 is not the one of the user who asks.  The middleware
    leaves the user of the token in [req.user], the handler reads
    [req.userId], which nothing sets, and Prisma drops a filter whose
    value is [undefined]: whoever asks, the five numbers count the
    attempts and the progress rows of every user. *)
Theorem progressSummary_counts_every_user (verify : string -> option string)
    (req : Middleware.Request) (token uid : string)
    (attemptRows : list QuizAttempt.t) (rows : list UserProgress.t) :
  Middleware.authorization req = Some ("Bearer " +:+ token) -> token <> "" ->
  verify token = Some uid ->
  Middleware.userId req = None ->
  let n := Z.of_nat (length attemptRows) in
  exists s,
    Middleware.route (Middleware.requireAuth verify) ProgressRoutes.progressSummary
      req (attemptRows, rows) =
      ((attemptRows, rows), Middleware.Handled (Json s)) /\
    totalAttempts s = length attemptRows /\
    ((n = 0 /\ avgScore s = 0) \/
     (0 < n /\
      2 * totalScore attemptRows - n < 2 * n * avgScore s
        <= 2 * totalScore attemptRows + n)) /\
    masteredTopics s =
      length (List.filter (fun p => 3 <=? UserProgress.masteryLevel p) rows) /\
    totalTrackedTopics s = length rows /\
    dueCount s =
      length (List.filter (fun p => UserProgress.masteryLevel p <? 3) rows).
Proof.
  intros Hh Hne Hv Hnone n. unfold Middleware.route.
  rewrite (requireAuth_next verify req token uid Hh Hne Hv).
  unfold ProgressRoutes.progressSummary. cbn [Middleware.userId]. rewrite Hnone.
  eexists. split; [reflexivity|].
  cbn [totalAttempts avgScore masteredTopics totalTrackedTopics dueCount fst snd
       ProgressRoutes.attemptsOf ProgressRoutes.progressOf].
  split; [reflexivity|]. split; [apply averageScore_nearest|].
  repeat split.
Qed.

Lemma progressSummary_counts_every_user_witness :
  let verify := fun token => if String.eqb token "token-of-u1" then Some "u1" else None in
  let req := Middleware.request (Some "Bearer token-of-u1") None None in
  let attemptRows := [QuizAttempt.mk "u2" 40] in
  let rows := [UserProgress.mk 1 "u2" "t1" 1 None None 0] in
  exists s,
    Middleware.route (Middleware.requireAuth verify) ProgressRoutes.progressSummary
      req (attemptRows, rows) =
      ((attemptRows, rows), Middleware.Handled (Json s)) /\
    totalAttempts s = 1%nat /\
    ((1 = 0 /\ avgScore s = 0) \/
     (0 < 1 /\ 2 * 40 - 1 < 2 * 1 * avgScore s <= 2 * 40 + 1)) /\
    masteredTopics s = 0%nat /\
    totalTrackedTopics s = 1%nat /\
    dueCount s = 1%nat.
Proof.
  intros verify req attemptRows rows.
  apply (progressSummary_counts_every_user verify req "token-of-u1" "u1"
           attemptRows rows);
    [reflexivity | discriminate | reflexivity | reflexivity].
Defined.

(** The failing request, run: the user of the token has no attempt and
    no row, and is answered with the numbers of another user. *)
Example summary_of_another_user :
  Middleware.route
    (Middleware.requireAuth
       (fun token => if String.eqb token "token-of-u1" then Some "u1" else None))
    ProgressRoutes.progressSummary
    (Middleware.request (Some "Bearer token-of-u1") None None)
    ([QuizAttempt.mk "u2" 40], [UserProgress.mk 1 "u2" "t1" 1 None None 0]) =
  (([QuizAttempt.mk "u2" 40], [UserProgress.mk 1 "u2" "t1" 1 None None 0]),
   Middleware.Handled
     (Json {| totalAttempts := 1; avgScore := 40; masteredTopics := 0;
              totalTrackedTopics := 1; dueCount := 1 |})).
Proof. reflexivity. Qed.

Example summary_rounds_half_up :
  snd (ProgressRoutes.progressSummary
         (Middleware.request None None (Some "u1"))
         ([QuizAttempt.mk "u1" 80; QuizAttempt.mk "u1" 85; QuizAttempt.mk "u2" 10], [])) =
    Json {| totalAttempts := 2; avgScore := 83; masteredTopics := 0;
            totalTrackedTopics := 0; dueCount := 0 |}.
Proof. reflexivity. Qed.

(** The first version counts as due the rows whose next review has
    come, whatever their level. *)
Example earlier_summary_goes_by_date :
  let mastered := UserProgress.mk 1 "u1" "t1" 4 (Some 0) (Some 10) 0 in
  let fresh := UserProgress.mk 2 "u1" "t2" 1 None None 0 in
  Earlier.progressSummary 100 "u1" [] [mastered; fresh] =
    Json {| totalAttempts := 0; avgScore := 0; masteredTopics := 1;
            totalTrackedTopics := 2; dueCount := 1 |} /\
  UserProgress.holds (UserProgress.NextReviewLte 100) fresh = false.
Proof. split; reflexivity. Qed.

End Summary.

(** * Properties of the one-time codes *)

Section Registry.

Import Auth.

Lemma currentCodes_unbind code w :
  currentCodes (unbind code w) = delete code (currentCodes w).
Proof.
  unfold currentCodes, unbind, setAuthCodes; simpl.
  destruct (authCodes w); simpl; [reflexivity|]. now rewrite delete_empty.
Qed.

Lemma lookup_unbind code w : currentCodes (unbind code w) !! code = None.
Proof. rewrite currentCodes_unbind. apply lookup_delete_eq. Qed.

Lemma lookup_unbind_ne code other w :
  code <> other ->
  currentCodes (unbind code w) !! other = currentCodes w !! other.
Proof. intros Hne. rewrite currentCodes_unbind. now apply lookup_delete_ne. Qed.

Lemma lookup_bind code data w :
  currentCodes (bind code data w) !! code = Some data.
Proof. unfold bind, currentCodes at 1; simpl. apply lookup_insert_eq. Qed.

Lemma present_truthy s : Js.truthy s = true -> Js.present (Some s) = true.
Proof. intros H; exact H. Qed.

(** Resolving a user touches neither the registry nor the console, and
    gives a user found by the key or made from the data. *)
Lemma findOrCreate_frame c by_ d w :
  exists w1 u,
    findOrCreate c by_ d w = (w1, u) /\
    authCodes w1 = authCodes w /\
    console w1 = console w /\
    (by_ (snd (User.create d (users w))) = true -> by_ u = true).
Proof.
  unfold findOrCreate, findUser.
  destruct (List.find by_ (users w)) as [u|] eqn:Hfind.
  - eexists _, u. repeat split. intros _.
    now apply find_some in Hfind.
  - unfold createUser; simpl. eexists _, _. repeat split. tauto.
Qed.

Lemma unbind_after_resolve code w w1 :
  authCodes w1 = authCodes w ->
  authCodes (unbind code w1) = delete code <$> authCodes w /\
  currentCodes (unbind code w1) !! code = None.
Proof.
  intros H. split; [unfold unbind; simpl; now rewrite H | apply lookup_unbind].
Qed.

(** A code that is not bound is an invalid code on every route, and
    nothing changes. *)
Lemma verifyEmailCode_unbound now code w :
  Js.truthy code = true -> currentCodes w !! code = None ->
  verifyEmailCode now (Some code) w = (w, Failure 400 ErrInvalidCode).
Proof.
  intros Ht Hn. unfold verifyEmailCode. rewrite (present_truthy _ Ht); simpl.
  now rewrite Hn.
Qed.

Lemma verifySmsCode_unbound now code phone w :
  Js.truthy code = true -> Js.truthy phone = true ->
  currentCodes w !! code = None ->
  verifySmsCode now (Some code) (Some phone) w = (w, Failure 400 ErrInvalidCode).
Proof.
  intros Ht Hp Hn. unfold verifySmsCode.
  rewrite (present_truthy _ Ht), (present_truthy _ Hp); simpl.
  now rewrite Hn.
Qed.

Lemma verifyCode_unbound now code w :
  Js.truthy code = true -> currentCodes w !! code = None ->
  verifyCode now (Some code) w = (w, Failure 400 ErrInvalidCode).
Proof.
  intros Ht Hn. unfold verifyCode. rewrite (present_truthy _ Ht); simpl.
  now rewrite Hn.
Qed.

(** A request without a code is turned away before the registry is
    read. *)
Lemma verifyEmailCode_code_required now code w :
  Js.present code = false ->
  verifyEmailCode now code w = (w, Failure 400 ErrCodeRequired).
Proof. intros H. unfold verifyEmailCode. now rewrite H. Qed.

Lemma verifySmsCode_code_and_phone_required now code phone w :
  Js.present code = false \/ Js.present phone = false ->
  verifySmsCode now code phone w = (w, Failure 400 ErrCodeAndPhoneRequired).
Proof.
  intros H. unfold verifySmsCode.
  replace (negb (Js.present code) || negb (Js.present phone)) with true;
    [reflexivity|].
  symmetry. apply orb_true_iff. destruct H as [-> | ->]; auto.
Qed.

(** A live code that is not bound to an email is not consumed on the
    email route: the lookup of the user throws and the entry stays. *)
Lemma verifyEmailCode_without_email now code cd w :
  Js.truthy code = true -> currentCodes w !! code = Some cd ->
  now <= AuthCode.expiresAt cd -> AuthCode.email cd = None ->
  verifyEmailCode now (Some code) w = (w, Failure 500 ErrInternalServerError).
Proof.
  intros Ht Hcd Hlive He. unfold verifyEmailCode.
  rewrite (present_truthy _ Ht); simpl. rewrite Hcd.
  replace (AuthCode.expiresAt cd <? now) with false
    by (symmetry; apply Z.ltb_ge; lia).
  now rewrite He.
Qed.

(** A live code on its own route: the user is resolved and the code is
    unbound. *)
Lemma verifyEmailCode_live now code cd e w :
  Js.truthy code = true -> currentCodes w !! code = Some cd ->
  now <= AuthCode.expiresAt cd -> AuthCode.email cd = Some e ->
  exists w1 user,
    verifyEmailCode now (Some code) w = (w1, Json user) /\
    User.email user = Some e /\
    authCodes w1 = delete code <$> authCodes w /\
    currentCodes w1 !! code = None.
Proof.
  intros Ht Hcd Hlive He. unfold verifyEmailCode.
  rewrite (present_truthy _ Ht); simpl. rewrite Hcd.
  replace (AuthCode.expiresAt cd <? now) with false
    by (symmetry; apply Z.ltb_ge; lia).
  rewrite He.
  destruct (findOrCreate_frame (User.FindByEmail e) (User.hasEmail e)
              (User.data None (Some e) None None (Some (Js.before_at e)) None None) w)
    as (w1 & user & -> & Hcodes & _ & Hby).
  exists (unbind code w1), user. split; [reflexivity|]. split.
  - assert (Hu : User.hasEmail e user = true).
    { apply Hby. unfold User.hasEmail; simpl. apply String.eqb_refl. }
    unfold User.hasEmail in Hu. destruct (User.email user) as [x|]; [|discriminate].
    apply String.eqb_eq in Hu. now subst.
  - now apply unbind_after_resolve.
Qed.

Lemma verifySmsCode_live now code cd p w :
  Js.truthy code = true -> Js.truthy p = true ->
  currentCodes w !! code = Some cd ->
  now <= AuthCode.expiresAt cd -> AuthCode.phone cd = Some p ->
  exists w1 user,
    verifySmsCode now (Some code) (Some p) w = (w1, Json user) /\
    User.phone user = Some p /\
    authCodes w1 = delete code <$> authCodes w /\
    currentCodes w1 !! code = None.
Proof.
  intros Ht Hp Hcd Hlive Hphone. unfold verifySmsCode.
  rewrite (present_truthy _ Ht), (present_truthy _ Hp); simpl. rewrite Hcd.
  rewrite bool_decide_eq_true_2 by exact Hphone. simpl.
  replace (AuthCode.expiresAt cd <? now) with false
    by (symmetry; apply Z.ltb_ge; lia).
  destruct (findOrCreate_frame (User.FindByPhone p) (User.hasPhone p)
              (User.data None None (Some p) None (Some p) None None) w)
    as (w1 & user & -> & Hcodes & _ & Hby).
  exists (unbind code w1), user. split; [reflexivity|]. split.
  - assert (Hu : User.hasPhone p user = true).
    { apply Hby. unfold User.hasPhone; simpl. apply String.eqb_refl. }
    unfold User.hasPhone in Hu. destruct (User.phone user) as [x|]; [|discriminate].
    apply String.eqb_eq in Hu. now subst.
  - now apply unbind_after_resolve.
Qed.

Lemma verifyCode_live now code cd i w :
  Js.truthy code = true -> currentCodes w !! code = Some cd ->
  now <= AuthCode.expiresAt cd -> AuthCode.telegramId cd = Some i ->
  exists w1 user,
    verifyCode now (Some code) w = (w1, Json user) /\
    User.telegramId user = Some i /\
    authCodes w1 = delete code <$> authCodes w /\
    currentCodes w1 !! code = None.
Proof.
  intros Ht Hcd Hlive Hi. unfold verifyCode.
  rewrite (present_truthy _ Ht); simpl. rewrite Hcd.
  replace (AuthCode.expiresAt cd <? now) with false
    by (symmetry; apply Z.ltb_ge; lia).
  rewrite Hi.
  destruct (findOrCreate_frame (User.FindByTelegramId i) (User.hasTelegramId i)
              (User.data None (Some (i +:+ "@telegram.local")) None (Some i)
                 None None None) w)
    as (w1 & user & -> & Hcodes & _ & Hby).
  exists (unbind code w1), user. split; [reflexivity|]. split.
  - assert (Hu : User.hasTelegramId i user = true).
    { apply Hby. unfold User.hasTelegramId; simpl. apply String.eqb_refl. }
    unfold User.hasTelegramId in Hu.
    destruct (User.telegramId user) as [x|]; [|discriminate].
    apply String.eqb_eq in Hu. now subst.
  - now apply unbind_after_resolve.
Qed.

End Registry.

Section SingleUse.

Import Auth.

(** C4, as stated, fails twice.  A live code that is presented on the
    SMS route with another phone than the one it was sent to is not
    accepted, and its entry is not deleted, so that the call after it,
    with the right phone, is the one that succeeds.  And the empty
    string, which is no code of the registry, is not answered as an
    invalid code: the routes answer that the code is required, which is
    of the invalid-input kind. *)
Lemma single_use_needs_the_bound_phone :
  (currentCodes smsWorld !! "123456" =
     Some (AuthCode.mk None (Some "+70000000001") None 1000) /\
   0 <= 1000 /\
   verifySmsCode 0 (Some "123456") (Some "+70000000002") smsWorld =
     (smsWorld, Failure 400 ErrInvalidCode) /\
   ~ (exists w1 user,
        verifySmsCode 0 (Some "123456") (Some "+70000000002") smsWorld =
          (w1, Json user)) /\
   exists w1 user,
     verifySmsCode 0 (Some "123456") (Some "+70000000001")
       (fst (verifySmsCode 0 (Some "123456") (Some "+70000000002") smsWorld)) =
       (w1, Json user)) /\
  (currentCodes smsWorld !! "" = None /\
   verifyEmailCode 0 (Some "") smsWorld = (smsWorld, Failure 400 ErrCodeRequired) /\
   verifySmsCode 0 (Some "") (Some "+70000000001") smsWorld =
     (smsWorld, Failure 400 ErrCodeAndPhoneRequired) /\
   verifyCode 0 (Some "") smsWorld = (smsWorld, Failure 400 ErrCodeRequired) /\
   ~ failsWith (snd (verifyEmailCode 0 (Some "") smsWorld)) InvalidCode /\
   ~ failsWith (snd (verifySmsCode 0 (Some "") (Some "+70000000001") smsWorld))
       InvalidCode /\
   ~ failsWith (snd (verifyCode 0 (Some "") smsWorld)) InvalidCode).
Proof.
  split.
  - split; [reflexivity|]. split; [lia|]. split; [reflexivity|]. split.
    + intros (w1 & user & H). discriminate H.
    + eexists _, _. vm_compute. reflexivity.
  - split; [reflexivity|]. split; [reflexivity|]. split; [reflexivity|].
    split; [reflexivity|].
    repeat split; intros (e & He & Hk); simpl in He; inversion He; subst e;
      discriminate Hk.
Qed.

(** C4, amended.  A live code that is a non-empty string, presented on
    the route of its channel, on the SMS route together with the
    non-empty phone it was sent to, is accepted once: the call answers
    with the user of that identity and unbinds the code, and any later
    call with the same code, on the SMS route with any non-empty phone,
    is an invalid code that changes nothing.  A non-empty code that is
    not bound is an invalid code on every route, on the SMS route with
    any non-empty phone, and nothing changes. *)
Theorem code_single_use (now : Z) (code : string) (w : World) :
  Js.truthy code = true ->
  (forall cd, currentCodes w !! code = Some cd -> now <= AuthCode.expiresAt cd ->
     (forall e, AuthCode.email cd = Some e ->
        exists w1 user,
          verifyEmailCode now (Some code) w = (w1, Json user) /\
          User.email user = Some e /\
          authCodes w1 = delete code <$> authCodes w /\
          forall later,
            verifyEmailCode later (Some code) w1 = (w1, Failure 400 ErrInvalidCode)) /\
     (forall p, AuthCode.phone cd = Some p -> Js.truthy p = true ->
        exists w1 user,
          verifySmsCode now (Some code) (Some p) w = (w1, Json user) /\
          User.phone user = Some p /\
          authCodes w1 = delete code <$> authCodes w /\
          forall later p', Js.truthy p' = true ->
            verifySmsCode later (Some code) (Some p') w1 =
              (w1, Failure 400 ErrInvalidCode)) /\
     (forall i, AuthCode.telegramId cd = Some i ->
        exists w1 user,
          verifyCode now (Some code) w = (w1, Json user) /\
          User.telegramId user = Some i /\
          authCodes w1 = delete code <$> authCodes w /\
          forall later,
            verifyCode later (Some code) w1 = (w1, Failure 400 ErrInvalidCode))) /\
  (currentCodes w !! code = None ->
     verifyEmailCode now (Some code) w = (w, Failure 400 ErrInvalidCode) /\
     (forall p, Js.truthy p = true ->
        verifySmsCode now (Some code) (Some p) w = (w, Failure 400 ErrInvalidCode)) /\
     verifyCode now (Some code) w = (w, Failure 400 ErrInvalidCode)).
Proof.
  intros Ht. split.
  - intros cd Hcd Hlive. split; [| split].
    + intros e He.
      destruct (verifyEmailCode_live now code cd e w Ht Hcd Hlive He)
        as (w1 & user & Hv & Hu & Hcodes & Hgone).
      exists w1, user. repeat split; try assumption.
      intros later. now apply verifyEmailCode_unbound.
    + intros p Hp Htp.
      destruct (verifySmsCode_live now code cd p w Ht Htp Hcd Hlive Hp)
        as (w1 & user & Hv & Hu & Hcodes & Hgone).
      exists w1, user. repeat split; try assumption.
      intros later p' Hp'. now apply verifySmsCode_unbound.
    + intros i Hi.
      destruct (verifyCode_live now code cd i w Ht Hcd Hlive Hi)
        as (w1 & user & Hv & Hu & Hcodes & Hgone).
      exists w1, user. repeat split; try assumption.
      intros later. now apply verifyCode_unbound.
  - intros Hn. split; [| split].
    + now apply verifyEmailCode_unbound.
    + intros p Hp. now apply verifySmsCode_unbound.
    + now apply verifyCode_unbound.
Qed.

Lemma code_single_use_witness :
  (exists w1 user,
     verifySmsCode 0 (Some "123456") (Some "+70000000001") smsWorld = (w1, Json user) /\
     User.phone user = Some "+70000000001" /\
     authCodes w1 = delete "123456" <$> authCodes smsWorld /\
     forall later p', Js.truthy p' = true ->
       verifySmsCode later (Some "123456") (Some p') w1 =
         (w1, Failure 400 ErrInvalidCode)) /\
  verifyEmailCode 0 (Some "654321") smsWorld = (smsWorld, Failure 400 ErrInvalidCode).
Proof.
  split.
  - assert (Ht : Js.truthy "123456" = true) by reflexivity.
    destruct (code_single_use 0 "123456" smsWorld Ht) as [Hlive _].
    destruct (Hlive (AuthCode.mk None (Some "+70000000001") None 1000))
      as (_ & Hsms & _); [reflexivity | simpl; lia |].
    apply Hsms; reflexivity.
  - assert (Ht : Js.truthy "654321" = true) by reflexivity.
    destruct (code_single_use 0 "654321" smsWorld Ht) as [_ Hunbound].
    apply Hunbound. reflexivity.
Defined.

End SingleUse.

Section Expiry.

Import Auth.

(** C5, as stated, fails on the SMS route: the phone is compared before
    the expiry, so an expired code presented with another phone than the
    one it was sent to is an invalid code, and its entry stays. *)
Lemma expired_code_with_another_phone_stays :
  currentCodes smsWorld !! "123456" =
    Some (AuthCode.mk None (Some "+70000000001") None 1000) /\
  1000 < 2000 /\
  verifySmsCode 2000 (Some "123456") (Some "+70000000002") smsWorld =
    (smsWorld, Failure 400 ErrInvalidCode) /\
  snd (verifySmsCode 2000 (Some "123456") (Some "+70000000002") smsWorld) <>
    Failure 400 ErrCodeExpired /\
  currentCodes
    (fst (verifySmsCode 2000 (Some "123456") (Some "+70000000002") smsWorld))
    !! "123456" <> None.
Proof.
  split; [reflexivity|]. split; [lia|]. split; [reflexivity|].
  split; discriminate.
Qed.

(** C5, amended.  A bound code whose expiry is strictly before the time
    of the call is unbound and answered with the expired-code error, and
    the user table is neither read nor written: on the email route, on
    the bot route, and on the SMS route when the phone presented is the
    one the code was sent to. *)
Theorem expired_code_removed (now : Z) (code : string) (cd : AuthCode.t)
    (w : World) :
  Js.truthy code = true ->
  currentCodes w !! code = Some cd ->
  AuthCode.expiresAt cd < now ->
  let w' := unbind code w in
  verifyEmailCode now (Some code) w = (w', Failure 400 ErrCodeExpired) /\
  verifyCode now (Some code) w = (w', Failure 400 ErrCodeExpired) /\
  (forall p, AuthCode.phone cd = Some p -> Js.truthy p = true ->
     verifySmsCode now (Some code) (Some p) w = (w', Failure 400 ErrCodeExpired)) /\
  currentCodes w' !! code = None /\
  users w' = users w /\
  calls w' = calls w /\
  errorKind ErrCodeExpired = CodeExpired.
Proof.
  intros Ht Hcd Hexp w'.
  assert (Hlt : (AuthCode.expiresAt cd <? now) = true) by (apply Z.ltb_lt; lia).
  repeat split.
  - unfold verifyEmailCode. rewrite (present_truthy _ Ht); simpl.
    now rewrite Hcd, Hlt.
  - unfold verifyCode. rewrite (present_truthy _ Ht); simpl.
    now rewrite Hcd, Hlt.
  - intros p Hp Htp. unfold verifySmsCode.
    rewrite (present_truthy _ Ht), (present_truthy _ Htp); simpl.
    rewrite Hcd. rewrite bool_decide_eq_true_2 by exact Hp. simpl.
    now rewrite Hlt.
  - apply lookup_unbind.
Qed.

Lemma expired_code_removed_witness :
  let w' := unbind "123456" smsWorld in
  verifyEmailCode 2000 (Some "123456") smsWorld = (w', Failure 400 ErrCodeExpired) /\
  verifyCode 2000 (Some "123456") smsWorld = (w', Failure 400 ErrCodeExpired) /\
  (forall p, Some "+70000000001" = Some p -> Js.truthy p = true ->
     verifySmsCode 2000 (Some "123456") (Some p) smsWorld =
       (w', Failure 400 ErrCodeExpired)) /\
  currentCodes w' !! "123456" = None /\
  users w' = users smsWorld /\
  calls w' = calls smsWorld /\
  errorKind ErrCodeExpired = CodeExpired.
Proof.
  apply (expired_code_removed 2000 "123456"
           (AuthCode.mk None (Some "+70000000001") None 1000) smsWorld);
    [reflexivity | reflexivity | simpl; lia].
Defined.

End Expiry.

Section PhoneMismatch.

Import Auth.

(** C9.  On the SMS route a bound code presented with a phone that is
    not the one it was sent to is an invalid code, at any time, and
    nothing changes: the entry stays, and a call with the right phone
    before the expiry is still accepted.  An SMS verification changes the
    registry only when it succeeds or answers that the code expired. *)
Theorem sms_mismatch_keeps_code (now : Z) (code phone : string)
    (cd : AuthCode.t) (w : World) :
  Js.truthy code = true ->
  Js.truthy phone = true ->
  currentCodes w !! code = Some cd ->
  AuthCode.phone cd <> Some phone ->
  verifySmsCode now (Some code) (Some phone) w = (w, Failure 400 ErrInvalidCode) /\
  errorKind ErrInvalidCode = InvalidCode /\
  (forall bound, AuthCode.phone cd = Some bound -> Js.truthy bound = true ->
     now <= AuthCode.expiresAt cd ->
     exists w1 user,
       verifySmsCode now (Some code) (Some bound)
         (fst (verifySmsCode now (Some code) (Some phone) w)) = (w1, Json user)) /\
  (forall t c p w0,
     authCodes (fst (verifySmsCode t c p w0)) <> authCodes w0 ->
     (exists user, snd (verifySmsCode t c p w0) = Json user) \/
     snd (verifySmsCode t c p w0) = Failure 400 ErrCodeExpired).
Proof.
  intros Ht Hp Hcd Hne.
  assert (Hmis : verifySmsCode now (Some code) (Some phone) w =
                   (w, Failure 400 ErrInvalidCode)).
  { unfold verifySmsCode.
    rewrite (present_truthy _ Ht), (present_truthy _ Hp); simpl.
    rewrite Hcd. now rewrite bool_decide_eq_false_2 by exact Hne. }
  split; [exact Hmis|]. split; [reflexivity|]. split.
  - intros bound Hb Htb Hlive. rewrite Hmis; simpl.
    destruct (verifySmsCode_live now code cd bound w Ht Htb Hcd Hlive Hb)
      as (w1 & user & Hv & _).
    now exists w1, user.
  - intros t c p w0. unfold verifySmsCode.
    destruct (negb (Js.present c) || negb (Js.present p)); simpl; [congruence|].
    destruct (currentCodes w0 !! default "" c) as [cd0|]; simpl; [|congruence].
    destruct (negb (bool_decide (AuthCode.phone cd0 = Some (default "" p))));
      simpl; [congruence|].
    destruct (AuthCode.expiresAt cd0 <? t); simpl; [now right|].
    destruct (findOrCreate _ _ _ w0) as [w1 user]. simpl. intros _. left. eauto.
Qed.

Lemma sms_mismatch_keeps_code_witness :
  verifySmsCode 2000 (Some "123456") (Some "+70000000002") smsWorld =
    (smsWorld, Failure 400 ErrInvalidCode).
Proof.
  refine (proj1 (sms_mismatch_keeps_code 2000 "123456" "+70000000002"
                   (AuthCode.mk None (Some "+70000000001") None 1000) smsWorld
                   _ _ _ _)); try reflexivity.
  discriminate.
Defined.

End PhoneMismatch.

Section Issuing.

Import Auth.

Lemma console_bind code data w : console (bind code data w) = console w.
Proof. reflexivity. Qed.

Lemma lookup_print code l w :
  currentCodes (print l w) !! code = currentCodes w !! code.
Proof. reflexivity. Qed.

(** C8.  Issuing a code answers with success whatever the delivery call
    does, on all three routes: the code is bound to the identity with an
    expiry five minutes after now, and when the delivery call throws (or,
    for the bot, resolves to a response that is not ok) a line about it is
    written to the console and nothing else happens. *)
Theorem issue_reports_success (now n : Z) (outcome : Delivery)
    (identity smsApiId : string) (w : World) :
  Js.truthy identity = true ->
  let expiry := now + 5 * 60 * 1000 in
  (let r := sendEmailCode now n outcome (Some identity) w in
   snd r = Json SentToEmail /\
   currentCodes (fst r) !! codeOf n =
     Some (AuthCode.mk (Some identity) None None expiry) /\
   (outcome = Rejected -> console (fst r) = console w ++ [ErrorEmailSending])) /\
  (let r := sendSmsCode smsApiId now n outcome (Some identity) w in
   snd r = Json SentBySms /\
   currentCodes (fst r) !! codeOf n =
     Some (AuthCode.mk None (Some identity) None expiry) /\
   (outcome = Rejected -> Js.truthy smsApiId = true ->
      console (fst r) = console w ++ [ErrorSmsSending])) /\
  (let r := requestCode now n outcome (Some identity) w in
   snd r = Json SentToTelegram /\
   currentCodes (fst r) !! codeOf n =
     Some (AuthCode.mk None None (Some identity) expiry) /\
   (outcome <> Resolved -> console (fst r) = console w ++ [LogTelegramError])).
Proof.
  intros Ht expiry. unfold sendEmailCode, sendSmsCode, requestCode.
  rewrite Ht; simpl. split; [| split].
  - split; [reflexivity|]. split.
    + destruct outcome; rewrite lookup_print; apply lookup_bind.
    + intros ->. reflexivity.
  - split; [reflexivity|]. split.
    + destruct (negb (Js.truthy smsApiId)); [|destruct outcome];
        rewrite lookup_print; apply lookup_bind.
    + intros -> ->. reflexivity.
  - split; [reflexivity|]. split.
    + destruct outcome; rewrite lookup_print;
        unfold currentCodes; simpl; apply lookup_insert_eq.
    + intros Hne. destruct outcome; [now contradiction Hne | reflexivity..].
Qed.

Lemma issue_reports_success_witness :
  snd (sendEmailCode 0 123456 Rejected (Some "a@b.c") smsWorld) = Json SentToEmail /\
  snd (sendSmsCode "" 0 123456 Rejected (Some "+70000000001") smsWorld) =
    Json SentBySms /\
  snd (requestCode 0 123456 Rejected (Some "42") smsWorld) = Json SentToTelegram.
Proof.
  split; [| split].
  - apply (issue_reports_success 0 123456 Rejected "a@b.c" "" smsWorld). reflexivity.
  - apply (issue_reports_success 0 123456 Rejected "+70000000001" "" smsWorld).
    reflexivity.
  - apply (issue_reports_success 0 123456 Rejected "42" "" smsWorld). reflexivity.
Defined.

(** C10.  A code requested over the bot does not keep the registry: the
    stored map becomes a new one that holds the new code only, so that
    every other code, whatever bound it before, is invalid afterwards on
    every route. *)
Theorem requestCode_replaces_registry (now n : Z) (outcome : Delivery)
    (telegramId : string) (w : World) :
  Js.truthy telegramId = true ->
  let w' := fst (requestCode now n outcome (Some telegramId) w) in
  authCodes w' =
    Some {[ codeOf n := AuthCode.mk None None (Some telegramId) (now + fiveMinutes) ]} /\
  forall other, other <> codeOf n ->
    currentCodes w' !! other = None /\
    (Js.truthy other = true ->
     forall later,
       verifyCode later (Some other) w' = (w', Failure 400 ErrInvalidCode) /\
       verifyEmailCode later (Some other) w' = (w', Failure 400 ErrInvalidCode) /\
       forall p, Js.truthy p = true ->
         verifySmsCode later (Some other) (Some p) w' =
           (w', Failure 400 ErrInvalidCode)).
Proof.
  intros Ht w'.
  assert (Hcodes : authCodes w' =
            Some {[ codeOf n :=
                      AuthCode.mk None None (Some telegramId) (now + fiveMinutes) ]}).
  { subst w'. unfold requestCode. rewrite Ht; simpl. now destruct outcome. }
  split; [exact Hcodes|]. intros other Hne.
  assert (Hgone : currentCodes w' !! other = None).
  { unfold currentCodes. rewrite Hcodes; simpl. now apply lookup_singleton_ne. }
  split; [exact Hgone|]. intros Hto later. split; [| split].
  - now apply verifyCode_unbound.
  - now apply verifyEmailCode_unbound.
  - intros p Hp. now apply verifySmsCode_unbound.
Qed.

Lemma requestCode_replaces_registry_witness :
  currentCodes (fst (requestCode 0 654321 Resolved (Some "42") smsWorld))
    !! "123456" = None.
Proof.
  refine (proj1 (proj2 (requestCode_replaces_registry 0 654321 Resolved "42"
                          smsWorld _) "123456" _)).
  - reflexivity.
  - discriminate.
Defined.

End Issuing.


(** * Further properties of the review scheduler *)

Section GradeShape.

Import Scheduler.

Lemma gradedDays_defined q prev :
  (if 3 <=? q
   then getNextIntervalDaysByMastery (Z.min 5 (prev + 1))
   else Some 1) = Some (gradedDays q prev).
Proof.
  unfold gradedDays, gradedLevel. destruct (3 <=? q); [|reflexivity].
  destruct (getNextIntervalDaysByMastery_total (Z.min 5 (prev + 1))) as (d & Hd & _).
  now rewrite Hd.
Qed.

Lemma gradedDays_range q prev : 1 <= gradedDays q prev <= 30.
Proof.
  unfold gradedDays. destruct (3 <=? q); [|lia].
  destruct (getNextIntervalDaysByMastery_total (gradedLevel q prev)) as (d & Hd & Hr).
  now rewrite Hd.
Qed.

Lemma gradedLevel_range q prev : -1 <= prev <= 5 -> 0 <= gradedLevel q prev <= 5.
Proof. unfold gradedLevel. destruct (3 <=? q); lia. Qed.

(** An accepted grade rewrites the rows that carry the key of the row it
    found or created, and answers with what it wrote. *)
Lemma reviewGrade_accepted now u body tp q rows :
  topicId body = Some tp -> quality body = Some q ->
  Js.truthy tp = true -> 0 <= q <= 5 ->
  exists rows1 progress,
    (rows1, progress) =
      match UserProgress.findFirst u tp rows with
      | Some p => (rows, p)
      | None => UserProgress.create now u tp rows
      end /\
    UserProgress.findFirst u tp rows1 = Some progress /\
    UserProgress.masteryLevel progress = previousLevel u tp rows /\
    reviewGrade now u body rows =
      (map (fun r => if Nat.eqb (UserProgress.id r) (UserProgress.id progress)
                     then graded now q (previousLevel u tp rows) r
                     else r) rows1,
       Json {| masteryLevel := gradedLevel q (previousLevel u tp rows);
               nextReview :=
                 Some (now + gradedDays q (previousLevel u tp rows) * msPerDay) |}).
Proof.
  intros Htp Hq Ht Hr. unfold reviewGrade. rewrite Htp, Hq, Ht; simpl.
  replace ((q <? 0) || (5 <? q)) with false by
    (symmetry; apply orb_false_iff; split; apply Z.ltb_ge; lia).
  set (found := match UserProgress.findFirst u tp rows with
                | Some p => (rows, p)
                | None => UserProgress.create now u tp rows
                end).
  assert (Hfound : UserProgress.findFirst u tp (fst found) = Some (snd found) /\
                   UserProgress.masteryLevel (snd found) = previousLevel u tp rows).
  { subst found. unfold previousLevel.
    destruct (UserProgress.findFirst u tp rows) as [p|] eqn:Hf; simpl.
    - now split.
    - destruct (create_found now u tp rows Hf) as (H1 & H2 & _). now split. }
  destruct found as [rows1 progress]. simpl in Hfound. destruct Hfound as [Hfirst Hlev].
  exists rows1, progress. split; [reflexivity|]. split; [exact Hfirst|].
  split; [exact Hlev|].
  assert (Hin : In progress rows1)
    by (unfold UserProgress.findFirst in Hfirst; now apply find_some in Hfirst).
  destruct (find_key_exists rows1 progress Hin) as (p0 & Hp0 & Hid).
  pose proof (gradedDays_defined q (previousLevel u tp rows)) as Hd.
  rewrite <- Hlev in Hd.
  replace (if 3 <=? q
           then (Z.min 5 (UserProgress.masteryLevel progress + 1),
                 getNextIntervalDaysByMastery
                   (Z.min 5 (UserProgress.masteryLevel progress + 1)))
           else (0, Some 1))
    with (gradedLevel q (UserProgress.masteryLevel progress),
          Some (gradedDays q (UserProgress.masteryLevel progress))).
  - unfold UserProgress.update. rewrite Hp0. rewrite Hlev. reflexivity.
  - unfold gradedLevel at 1. destruct (3 <=? q); [now rewrite Hd | now inversion Hd].
Qed.

(** A request that is not accepted leaves the table as it was. *)
Lemma reviewGrade_shape now u body rows :
  fst (reviewGrade now u body rows) = rows \/
  exists tp q,
    topicId body = Some tp /\ quality body = Some q /\
    Js.truthy tp = true /\ 0 <= q <= 5.
Proof.
  unfold reviewGrade.
  destruct (topicId body) as [tp|] eqn:Htp; [|now left].
  destruct (quality body) as [q|] eqn:Hq; [|now left].
  destruct (Js.truthy tp) eqn:Ht; simpl; [|now left].
  destruct ((q <? 0) || (5 <? q)) eqn:Hr; [now left|].
  apply orb_false_iff in Hr. destruct Hr as [H0 H5].
  apply Z.ltb_ge in H0. apply Z.ltb_ge in H5.
  right. exists tp, q. repeat split; first [assumption | lia].
Qed.

Lemma freshId_above (rows : list UserProgress.t) (p : UserProgress.t) :
  In p rows -> (UserProgress.id p < UserProgress.freshId rows)%nat.
Proof.
  unfold UserProgress.freshId. induction rows as [|r rows IH]; simpl; [tauto|].
  intros [-> | Hin]; [lia|]. specialize (IH Hin). lia.
Qed.

Lemma key_unique_in {A B} (f : A -> B) (l : list A) (x y : A) :
  NoDup (map f l) -> In x l -> In y l -> f x = f y -> x = y.
Proof.
  induction l as [|a l IH]; simpl; [tauto|].
  intros Hnd Hx Hy Hf. apply NoDup_cons in Hnd. destruct Hnd as [Hna Hnd].
  rewrite list_elem_of_In in Hna.
  destruct Hx as [-> | Hx], Hy as [-> | Hy]; auto.
  - exfalso. apply Hna. rewrite Hf. now apply in_map.
  - exfalso. apply Hna. rewrite <- Hf. now apply in_map.
Qed.

End GradeShape.

Section GradeInvariants.

Import Scheduler.

Lemma previousLevel_range u tp rows :
  levelsInRange rows -> 0 <= previousLevel u tp rows <= 5.
Proof.
  intros Hl. unfold previousLevel.
  destruct (UserProgress.findFirst u tp rows) as [p|] eqn:Hf; [|lia].
  unfold UserProgress.findFirst in Hf. apply find_some in Hf.
  unfold levelsInRange in Hl. rewrite List.Forall_forall in Hl.
  now apply Hl.
Qed.

(** The rows an accepted grade works on: the table, with the new row at
    its end when the topic had none. *)
Lemma found_or_created now u tp rows rows1 progress :
  (rows1, progress) =
    match UserProgress.findFirst u tp rows with
    | Some p => (rows, p)
    | None => UserProgress.create now u tp rows
    end ->
  (UserProgress.findFirst u tp rows = Some progress /\ rows1 = rows) \/
  (UserProgress.findFirst u tp rows = None /\
   progress = UserProgress.mk (UserProgress.freshId rows) u tp 0 None None now /\
   rows1 = rows ++ [progress]).
Proof.
  destruct (UserProgress.findFirst u tp rows) as [p|]; intros H.
  - left. now inversion H.
  - right. unfold UserProgress.create in H. now inversion H.
Qed.

(** X1.  Whatever the request, a table whose levels are all between 0
    and 5 still is so after [POST /api/review/grade]. *)
Theorem reviewGrade_keeps_levels (now : Z) (u : string) (body : GradeBody)
    (rows : list UserProgress.t) :
  levelsInRange rows ->
  levelsInRange (fst (reviewGrade now u body rows)).
Proof.
  intros Hl. destruct (reviewGrade_shape now u body rows)
    as [-> | (tp & q & Htp & Hq & Ht & Hr)]; [exact Hl|].
  destruct (reviewGrade_accepted now u body tp q rows Htp Hq Ht Hr)
    as (rows1 & progress & Hfound & _ & _ & ->). simpl.
  pose proof (previousLevel_range u tp rows Hl) as Hprev.
  assert (Hl1 : levelsInRange rows1).
  { destruct (found_or_created _ _ _ _ _ _ Hfound) as [[_ ->] | (_ & -> & ->)];
      [exact Hl|].
    unfold levelsInRange. apply Forall_app. split; [exact Hl|].
    constructor; [simpl; lia | constructor]. }
  unfold levelsInRange in *. rewrite List.Forall_forall in *.
  intros r Hr'. apply in_map_iff in Hr'. destruct Hr' as (r0 & <- & Hr0).
  destruct (Nat.eqb (UserProgress.id r0) (UserProgress.id progress)).
  - simpl. apply gradedLevel_range. lia.
  - now apply Hl1.
Qed.

Lemma reviewGrade_keeps_levels_witness :
  levelsInRange
    (fst (reviewGrade 0 "u1" {| topicId := Some "t1"; quality := Some 5 |}
            [UserProgress.mk 1 "u1" "t1" 5 None None 0])).
Proof.
  apply reviewGrade_keeps_levels. repeat constructor; simpl; lia.
Defined.

End GradeInvariants.

Section GradeFrame.

Import Scheduler.

Lemma rewriteKey_id i now q prev r :
  UserProgress.id (rewriteKey i (graded now q prev) r) = UserProgress.id r.
Proof. unfold rewriteKey. now destruct (Nat.eqb _ _). Qed.

Lemma rewriteKey_key i now q prev r :
  (UserProgress.userId (rewriteKey i (graded now q prev) r),
   UserProgress.topicId (rewriteKey i (graded now q prev) r)) =
  (UserProgress.userId r, UserProgress.topicId r).
Proof. unfold rewriteKey. now destruct (Nat.eqb _ _). Qed.

Lemma rewriteKey_ofUserTopic u tp i now q prev r :
  UserProgress.ofUserTopic u tp (rewriteKey i (graded now q prev) r) =
  UserProgress.ofUserTopic u tp r.
Proof. unfold rewriteKey. now destruct (Nat.eqb _ _). Qed.

(** The row of the topic after an accepted grade. *)
Lemma reviewGrade_stored now u body tp q rows :
  topicId body = Some tp -> quality body = Some q ->
  Js.truthy tp = true -> 0 <= q <= 5 ->
  exists progress,
    UserProgress.findFirst u tp (fst (reviewGrade now u body rows)) =
      Some (graded now q (previousLevel u tp rows) progress) /\
    UserProgress.userId progress = u /\ UserProgress.topicId progress = tp.
Proof.
  intros Htp Hq Ht Hr.
  destruct (reviewGrade_accepted now u body tp q rows Htp Hq Ht Hr)
    as (rows1 & progress & _ & Hfirst & _ & ->). simpl.
  exists progress. unfold UserProgress.findFirst in *.
  rewrite find_map_stable.
  - rewrite Hfirst. simpl. rewrite Nat.eqb_refl. split; [reflexivity|].
    apply find_some in Hfirst. destruct Hfirst as [_ Hk].
    unfold UserProgress.ofUserTopic in Hk. apply andb_true_iff in Hk.
    destruct Hk as [Hu Hk]. apply String.eqb_eq in Hu, Hk. now split.
  - intros r. apply (rewriteKey_ofUserTopic u tp).
Qed.

Lemma previousLevel_graded now u body tp q rows :
  topicId body = Some tp -> quality body = Some q ->
  Js.truthy tp = true -> 0 <= q <= 5 ->
  previousLevel u tp (fst (reviewGrade now u body rows)) =
    gradedLevel q (previousLevel u tp rows).
Proof.
  intros Htp Hq Ht Hr.
  destruct (reviewGrade_stored now u body tp q rows Htp Hq Ht Hr) as (p & Hp & _).
  unfold previousLevel at 1. now rewrite Hp.
Qed.

Lemma findFirst_none_key u tp rows :
  UserProgress.findFirst u tp rows = None ->
  ~ In (u, tp) (map (fun p => (UserProgress.userId p, UserProgress.topicId p)) rows).
Proof.
  intros Hn Hin. apply in_map_iff in Hin. destruct Hin as (r & Hk & Hr).
  unfold UserProgress.findFirst in Hn.
  pose proof (find_none _ _ Hn r Hr) as Hf.
  unfold UserProgress.ofUserTopic in Hf. inversion Hk; subst.
  now rewrite !String.eqb_refl in Hf.
Qed.

Lemma idsUnique_after now u body rows :
  idsUnique rows -> idsUnique (fst (reviewGrade now u body rows)).
Proof.
  destruct (reviewGrade_shape now u body rows)
    as [-> | (tp & q & Htp & Hq & Ht & Hr)]; [tauto|].
  destruct (reviewGrade_accepted now u body tp q rows Htp Hq Ht Hr)
    as (rows1 & progress & Hfound & _ & _ & ->). simpl.
  unfold idsUnique.
  change (map _ rows1) with
    (map (rewriteKey (UserProgress.id progress)
            (graded now q (previousLevel u tp rows))) rows1).
  rewrite map_map.
  rewrite (map_ext (fun r => UserProgress.id (rewriteKey _ _ r)) UserProgress.id)
    by (intros r; apply rewriteKey_id).
  destruct (found_or_created _ _ _ _ _ _ Hfound) as [[_ ->] | (Hnone & -> & ->)];
    [tauto|].
  rewrite map_app. simpl. intros Hnd.
  apply NoDup_app. split; [exact Hnd|]. split; [|apply NoDup_singleton].
  intros i Hi Hfresh. apply list_elem_of_singleton in Hfresh. subst i.
  apply list_elem_of_In, in_map_iff in Hi. destruct Hi as (r & Hid & Hr').
  pose proof (freshId_above rows r Hr'). lia.
Qed.

Lemma keysUnique_after now u body rows :
  keysUnique rows -> keysUnique (fst (reviewGrade now u body rows)).
Proof.
  destruct (reviewGrade_shape now u body rows)
    as [-> | (tp & q & Htp & Hq & Ht & Hr)]; [tauto|].
  destruct (reviewGrade_accepted now u body tp q rows Htp Hq Ht Hr)
    as (rows1 & progress & Hfound & _ & _ & ->). simpl.
  unfold keysUnique.
  change (map _ rows1) with
    (map (rewriteKey (UserProgress.id progress)
            (graded now q (previousLevel u tp rows))) rows1).
  rewrite map_map.
  rewrite (map_ext (fun r => (UserProgress.userId (rewriteKey _ _ r),
                              UserProgress.topicId (rewriteKey _ _ r)))
             (fun p => (UserProgress.userId p, UserProgress.topicId p)))
    by (intros r; apply rewriteKey_key).
  destruct (found_or_created _ _ _ _ _ _ Hfound) as [[_ ->] | (Hnone & -> & ->)];
    [tauto|].
  rewrite map_app. simpl. intros Hnd.
  apply NoDup_app. split; [exact Hnd|]. split; [|apply NoDup_singleton].
  intros k Hk Hnew. apply list_elem_of_singleton in Hnew. subst k.
  apply list_elem_of_In in Hk. now apply (findFirst_none_key u tp rows).
Qed.

(** X2.  [POST /api/review/grade] keeps the keys of the table: if no two
    rows share an [id] before the request, none do after it, and if there
    is at most one row for each user and topic, that stays so. *)
Theorem reviewGrade_keeps_keys (now : Z) (u : string) (body : GradeBody)
    (rows : list UserProgress.t) :
  (idsUnique rows -> idsUnique (fst (reviewGrade now u body rows))) /\
  (keysUnique rows -> keysUnique (fst (reviewGrade now u body rows))).
Proof.
  split; intros Hunique.
  - now apply idsUnique_after.
  - now apply keysUnique_after.
Qed.

Lemma reviewGrade_keeps_keys_witness :
  idsUnique (fst (reviewGrade 0 "u1" {| topicId := Some "t1"; quality := Some 5 |}
                    [UserProgress.mk 1 "u2" "t1" 2 None None 0])) /\
  keysUnique (fst (reviewGrade 0 "u1" {| topicId := Some "t1"; quality := Some 5 |}
                     [UserProgress.mk 1 "u2" "t1" 2 None None 0])).
Proof.
  split.
  - apply (proj1 (reviewGrade_keeps_keys 0 "u1" _ _)).
    unfold idsUnique; simpl. apply NoDup_singleton.
  - apply (proj2 (reviewGrade_keeps_keys 0 "u1" _ _)).
    unfold keysUnique; simpl. apply NoDup_singleton.
Defined.

Lemma filter_map_fixed {A} (keep : A -> bool) (g : A -> A) (l : list A) :
  (forall x, In x l -> keep (g x) = keep x) ->
  (forall x, In x l -> keep x = true -> g x = x) ->
  List.filter keep (map g l) = List.filter keep l.
Proof.
  induction l as [|x l IH]; simpl; [reflexivity|]. intros Hk Hg.
  rewrite Hk by now left. destruct (keep x) eqn:E.
  - rewrite Hg by (auto; now left). f_equal. apply IH; auto.
  - apply IH; auto.
Qed.

Lemma reviewGrade_frame_rows (now : Z) (u tp : string) (body : GradeBody)
    (rows : list UserProgress.t) :
  topicId body = Some tp ->
  idsUnique rows ->
  List.filter (fun r => negb (UserProgress.ofUserTopic u tp r))
    (fst (reviewGrade now u body rows)) =
  List.filter (fun r => negb (UserProgress.ofUserTopic u tp r)) rows.
Proof.
  intros Htp Hids. destruct (reviewGrade_shape now u body rows)
    as [-> | (tp' & q & Htp' & Hq & Ht & Hr)]; [reflexivity|].
  assert (tp' = tp) by congruence. subst tp'.
  destruct (reviewGrade_accepted now u body tp q rows Htp Hq Ht Hr)
    as (rows1 & progress & Hfound & Hfirst & _ & ->). simpl.
  assert (Hkey : UserProgress.ofUserTopic u tp progress = true).
  { unfold UserProgress.findFirst in Hfirst. now apply find_some in Hfirst. }
  assert (Hin : In progress rows1).
  { unfold UserProgress.findFirst in Hfirst. now apply find_some in Hfirst. }
  assert (Hids1 : idsUnique rows1).
  { destruct (found_or_created _ _ _ _ _ _ Hfound) as [[_ ->] | (Hnone & -> & ->)];
      [exact Hids|].
    unfold idsUnique. rewrite map_app. simpl.
    apply NoDup_app. split; [exact Hids|]. split; [|apply NoDup_singleton].
    intros i Hi Hfresh. apply list_elem_of_singleton in Hfresh. subst i.
    apply list_elem_of_In, in_map_iff in Hi. destruct Hi as (r & Hid & Hr').
    pose proof (freshId_above rows r Hr'). lia. }
  rewrite (filter_map_fixed _ (rewriteKey (UserProgress.id progress)
                                 (graded now q (previousLevel u tp rows)))).
  - destruct (found_or_created _ _ _ _ _ _ Hfound) as [[_ ->] | (Hnone & Hp & ->)];
      [reflexivity|].
    rewrite List.filter_app. cbn [List.filter]. rewrite Hkey. simpl. apply app_nil_r.
  - intros r _. now rewrite rewriteKey_ofUserTopic.
  - intros r Hr' Hother. unfold rewriteKey.
    destruct (Nat.eqb (UserProgress.id r) (UserProgress.id progress)) eqn:E;
      [|reflexivity].
    apply Nat.eqb_eq in E.
    assert (r = progress) by (eapply (key_unique_in UserProgress.id); eauto).
    subst r. now rewrite Hkey in Hother.
Qed.

Lemma elsewhere_ofUserTopic (u tp : string) (r : UserProgress.t) :
  elsewhere u tp r = negb (UserProgress.ofUserTopic u tp r).
Proof.
  unfold elsewhere, UserProgress.ofUserTopic.
  destruct (decide (UserProgress.userId r = u /\ UserProgress.topicId r = tp))
    as [[Hu Ht]|Hne].
  - rewrite bool_decide_eq_true_2 by now split.
    apply String.eqb_eq in Hu, Ht. now rewrite Hu, Ht.
  - rewrite bool_decide_eq_false_2 by exact Hne.
    destruct (String.eqb (UserProgress.userId r) u) eqn:Eu;
      destruct (String.eqb (UserProgress.topicId r) tp) eqn:Et; try reflexivity.
    apply String.eqb_eq in Eu, Et. now contradiction Hne.
Qed.

(** X3.  With [id] a key, a grade for one user and topic leaves the rows
    of every other user and topic as they were: the rows whose user or
    topic is another one are the same, in the same order, before and
    after the request. *)
Theorem reviewGrade_frame (now : Z) (u tp : string) (body : GradeBody)
    (rows : list UserProgress.t) :
  topicId body = Some tp ->
  idsUnique rows ->
  List.filter (elsewhere u tp) (fst (reviewGrade now u body rows)) =
  List.filter (elsewhere u tp) rows.
Proof.
  intros Htp Hids.
  rewrite !(filter_ext (elsewhere u tp)
              (fun r => negb (UserProgress.ofUserTopic u tp r)))
    by (intros r; apply elsewhere_ofUserTopic).
  now apply reviewGrade_frame_rows.
Qed.

Lemma reviewGrade_frame_witness :
  List.filter (elsewhere "u1" "t1")
    (fst (reviewGrade 0 "u1" {| topicId := Some "t1"; quality := Some 5 |}
            [UserProgress.mk 1 "u2" "t1" 2 None None 0])) =
  [UserProgress.mk 1 "u2" "t1" 2 None None 0].
Proof.
  apply (reviewGrade_frame 0 "u1" "t1" _ [UserProgress.mk 1 "u2" "t1" 2 None None 0]).
  - reflexivity.
  - unfold idsUnique; simpl. apply NoDup_singleton.
Defined.

End GradeFrame.

Section GradeSequences.

Import Scheduler.

(** X4.  An accepted grade adds a row exactly when the table had no row
    with the user and the topic, and a second accepted grade for the same
    user and topic never adds another. *)
Theorem reviewGrade_creates_once (now1 now2 : Z) (u tp : string) (q1 q2 : Z)
    (rows : list UserProgress.t) :
  Js.truthy tp = true -> 0 <= q1 <= 5 -> 0 <= q2 <= 5 ->
  let once :=
    fst (reviewGrade now1 u {| topicId := Some tp; quality := Some q1 |} rows) in
  let twice :=
    fst (reviewGrade now2 u {| topicId := Some tp; quality := Some q2 |} once) in
  length once =
    match firstRow u tp rows with
    | Some _ => length rows
    | None => S (length rows)
    end /\
  length twice = length once.
Proof.
  intros Ht H1 H2 once twice. rewrite firstRow_findFirst.
  assert (Hlen : forall now q table, 0 <= q <= 5 ->
            length (fst (reviewGrade now u
                           {| topicId := Some tp; quality := Some q |} table)) =
              match UserProgress.findFirst u tp table with
              | Some _ => length table
              | None => S (length table)
              end).
  { intros now q table Hq.
    destruct (reviewGrade_accepted now u {| topicId := Some tp; quality := Some q |} tp q table
             eq_refl eq_refl Ht Hq)
      as (rows1 & progress & Hfound & _ & _ & ->). simpl. rewrite length_map.
    destruct (found_or_created _ _ _ _ _ _ Hfound) as [[-> ->] | (-> & _ & ->)];
      [reflexivity|].
    rewrite length_app. simpl. lia. }
  split; [now apply Hlen|]. subst twice. rewrite Hlen by exact H2.
  destruct (reviewGrade_stored now1 u {| topicId := Some tp; quality := Some q1 |} tp q1 rows
             eq_refl eq_refl Ht H1)
    as (p & Hp & _).
  fold once in Hp. now rewrite Hp.
Qed.

Lemma reviewGrade_creates_once_witness :
  let once :=
    fst (reviewGrade 0 "u1" {| topicId := Some "t1"; quality := Some 4 |} []) in
  let twice :=
    fst (reviewGrade 9 "u1" {| topicId := Some "t1"; quality := Some 1 |} once) in
  length once =
    match firstRow "u1" "t1" [] with
    | Some _ => length (@nil UserProgress.t)
    | None => S (length (@nil UserProgress.t))
    end /\
  length twice = length once.
Proof.
  apply (reviewGrade_creates_once 0 9 "u1" "t1" 4 1 []); [reflexivity | lia | lia].
Defined.

Lemma gradeAll_snoc now u tp qs q rows :
  gradeAll now u tp (qs ++ [q]) rows =
    fst (reviewGrade now u {| topicId := Some tp; quality := Some q |}
           (gradeAll now u tp qs rows)).
Proof. unfold gradeAll. now rewrite fold_left_app. Qed.

Lemma gradeAll_passes now u tp ps rows :
  Js.truthy tp = true ->
  Forall (fun q => 3 <= q <= 5) ps ->
  previousLevel u tp rows <= 5 ->
  previousLevel u tp (gradeAll now u tp ps rows) =
    Z.min 5 (previousLevel u tp rows + Z.of_nat (length ps)).
Proof.
  intros Ht Hps Hprev. induction ps as [|q ps IH] using rev_ind.
  - simpl. lia.
  - apply Forall_app in Hps. destruct Hps as [Hps Hq].
    apply Forall_inv in Hq. rewrite gradeAll_snoc.
    rewrite previousLevel_graded with (tp := tp) (q := q);
      [| reflexivity | reflexivity | exact Ht | lia].
    rewrite IH by exact Hps. unfold gradedLevel.
    replace (3 <=? q) with true by (symmetry; apply Z.leb_le; lia).
    rewrite length_app. simpl. lia.
Qed.

Lemma gradeAll_level (now : Z) (u tp : string)
    (qs ps : list Z) (f : Z) (rows : list UserProgress.t) :
  Js.truthy tp = true ->
  0 <= f < 3 ->
  Forall (fun q => 3 <= q <= 5) ps ->
  previousLevel u tp (gradeAll now u tp (qs ++ f :: ps) rows) =
    Z.min 5 (Z.of_nat (length ps)).
Proof.
  intros Ht Hf Hps.
  replace (qs ++ f :: ps) with ((qs ++ [f]) ++ ps) by now rewrite <- app_assoc.
  unfold gradeAll at 1. rewrite fold_left_app. fold (gradeAll now u tp (qs ++ [f]) rows).
  fold (gradeAll now u tp ps (gradeAll now u tp (qs ++ [f]) rows)).
  assert (Hzero : previousLevel u tp (gradeAll now u tp (qs ++ [f]) rows) = 0).
  { rewrite gradeAll_snoc.
    rewrite previousLevel_graded with (tp := tp) (q := f);
      [| reflexivity | reflexivity | exact Ht | lia].
    unfold gradedLevel.
    now replace (3 <=? f) with false by (symmetry; apply Z.leb_gt; lia). }
  rewrite gradeAll_passes; [| exact Ht | exact Hps | lia].
  rewrite Hzero. lia.
Qed.

Lemma gradeAll_last_found (now : Z) (u tp : string) (qs : list Z) (q : Z)
    (rows : list UserProgress.t) :
  Js.truthy tp = true -> 0 <= q <= 5 ->
  UserProgress.findFirst u tp (gradeAll now u tp (qs ++ [q]) rows) <> None.
Proof.
  intros Ht Hq. rewrite gradeAll_snoc.
  destruct (reviewGrade_stored now u {| topicId := Some tp; quality := Some q |} tp q
              (gradeAll now u tp qs rows) eq_refl eq_refl Ht Hq) as (p & Hp & _).
  now rewrite Hp.
Qed.

(** X5.  Grades add up as a counter that a failure resets: after any
    grades, one grade below 3 and then [n] grades of 3 or more, all for
    one user and topic, the first row with that user and topic has the
    level min(5, n), whatever it was before. *)
Theorem grades_count_passes_since_failure (now : Z) (u tp : string)
    (qs ps : list Z) (f : Z) (rows : list UserProgress.t) :
  Js.truthy tp = true ->
  0 <= f < 3 ->
  Forall (fun q => 3 <= q <= 5) ps ->
  exists stored,
    firstRow u tp (gradeAll now u tp (qs ++ f :: ps) rows) = Some stored /\
    UserProgress.userId stored = u /\
    UserProgress.topicId stored = tp /\
    UserProgress.masteryLevel stored = Z.min 5 (Z.of_nat (length ps)).
Proof.
  intros Ht Hf Hps.
  assert (Hsome :
    UserProgress.findFirst u tp (gradeAll now u tp (qs ++ f :: ps) rows) <> None).
  { destruct ps as [|q0 ps0] using rev_ind.
    - apply gradeAll_last_found; [exact Ht | lia].
    - apply Forall_app in Hps. destruct Hps as [_ Hq]. apply Forall_inv in Hq.
      replace (qs ++ f :: ps0 ++ [q0]) with ((qs ++ f :: ps0) ++ [q0])
        by now rewrite <- app_assoc.
      apply gradeAll_last_found; [exact Ht | lia]. }
  pose proof (gradeAll_level now u tp qs ps f rows Ht Hf Hps) as Hlevel.
  unfold previousLevel in Hlevel. rewrite firstRow_findFirst.
  destruct (UserProgress.findFirst u tp (gradeAll now u tp (qs ++ f :: ps) rows))
    as [stored|] eqn:Hfound; [|now contradiction Hsome].
  exists stored. split; [reflexivity|].
  rewrite <- firstRow_findFirst in Hfound.
  destruct (firstRow_key _ _ _ _ Hfound) as (Hu & Hk & _). now repeat split.
Qed.

Lemma grades_count_passes_since_failure_witness :
  exists stored,
    firstRow "u1" "t1" (gradeAll 0 "u1" "t1" ([5; 5] ++ 1 :: [3; 4]) []) = Some stored /\
    UserProgress.userId stored = "u1" /\
    UserProgress.topicId stored = "t1" /\
    UserProgress.masteryLevel stored = Z.min 5 (Z.of_nat (length [3; 4])).
Proof.
  apply (grades_count_passes_since_failure 0 "u1" "t1" [5; 5] [3; 4] 1 []);
    [reflexivity | lia | repeat constructor; lia].
Defined.

(** X6.  Every accepted grade sets the next review at least one day
    (86400000 ms) and at most thirty days (2592000000 ms) after the
    request, and a grade of 3 or more for a topic whose first row of the
    user is at level 4 or more sets it thirty days after. *)
Theorem reviewGrade_next_review_window (now : Z) (u tp : string) (q : Z)
    (rows : list UserProgress.t) :
  Js.truthy tp = true -> 0 <= q <= 5 ->
  exists level next,
    snd (reviewGrade now u {| topicId := Some tp; quality := Some q |} rows) =
      Json {| masteryLevel := level; nextReview := Some next |} /\
    now + 86400000 <= next <= now + 2592000000 /\
    (3 <= q -> 4 <= levelBefore u tp rows -> next = now + 2592000000).
Proof.
  intros Ht Hq. rewrite levelBefore_previousLevel.
  destruct (reviewGrade_accepted now u {| topicId := Some tp; quality := Some q |} tp q rows
             eq_refl eq_refl Ht Hq)
    as (rows1 & progress & _ & _ & _ & ->). simpl.
  eexists _, _. split; [reflexivity|].
  pose proof (gradedDays_range q (previousLevel u tp rows)) as Hd.
  unfold msPerDay. split; [lia|].
  intros H3 H4. unfold gradedDays, gradedLevel.
  replace (3 <=? q) with true by (symmetry; apply Z.leb_le; lia).
  replace (Z.min 5 (previousLevel u tp rows + 1)) with 5 by lia.
  reflexivity.
Qed.

Lemma reviewGrade_next_review_window_witness :
  exists level next,
    snd (reviewGrade 7 "u1" {| topicId := Some "t1"; quality := Some 3 |} []) =
      Json {| masteryLevel := level; nextReview := Some next |} /\
    7 + 86400000 <= next <= 7 + 2592000000 /\
    (3 <= 3 -> 4 <= levelBefore "u1" "t1" [] -> next = 7 + 2592000000).
Proof.
  apply (reviewGrade_next_review_window 7 "u1" "t1" 3 []); [reflexivity | lia].
Defined.

End GradeSequences.

Section DueAfterGrade.

Import Scheduler.

(** X7.  A higher level never gets a shorter interval, and every
    interval is between 1 and 30 days. *)
Theorem interval_monotone (a b da db : Z) :
  a <= b ->
  getNextIntervalDaysByMastery a = Some da ->
  getNextIntervalDaysByMastery b = Some db ->
  1 <= da /\ da <= db /\ db <= 30.
Proof.
  intros Hab. rewrite !getNextIntervalDaysByMastery_clamp.
  assert (Hi : 0 <= Z.max 0 (Z.min a 5) <= Z.max 0 (Z.min b 5) /\
               Z.max 0 (Z.min b 5) <= 5) by lia.
  revert Hi. generalize (Z.max 0 (Z.min a 5)) (Z.max 0 (Z.min b 5)).
  intros i j [[Hi Hij] Hj].
  assert (Hci : i = 0 \/ i = 1 \/ i = 2 \/ i = 3 \/ i = 4 \/ i = 5) by lia.
  assert (Hcj : j = 0 \/ j = 1 \/ j = 2 \/ j = 3 \/ j = 4 \/ j = 5) by lia.
  destruct Hci as [->|[->|[->|[->|[->| ->]]]]];
    destruct Hcj as [->|[->|[->|[->|[->| ->]]]]];
    try lia; intros [= <-] [= <-]; lia.
Qed.

Lemma interval_monotone_witness : 1 <= 4 /\ 4 <= 14 /\ 14 <= 30.
Proof.
  apply (interval_monotone 2 4 4 14); [lia | reflexivity | reflexivity].
Defined.

Lemma sorted_candidates (keep : UserProgress.t -> bool) rows :
  Permutation
    (@merge_sort _ (UserProgress.precedes dueOrder)
       (UserProgress.precedes_dec dueOrder) (List.filter keep rows))
    (List.filter keep rows).
Proof. apply merge_sort_Permutation. Qed.

End DueAfterGrade.

Section EarlierVersion.

Import Scheduler.

Lemma holds_dueByDate now u p :
  UserProgress.holds
    (UserProgress.AND (UserProgress.UserIdIs u)
       (UserProgress.OR (UserProgress.NextReviewLte now) UserProgress.NextReviewNull)) p
  = dueByDate now u p.
Proof.
  unfold dueByDate; simpl. destruct (UserProgress.nextReview p); simpl.
  - now rewrite orb_false_r.
  - reflexivity.
Qed.

Lemma earlier_dueRows_unfold now u rows :
  Earlier.dueRows now u rows =
    take 20 (@merge_sort _ (UserProgress.precedes dueOrder)
               (UserProgress.precedes_dec dueOrder)
               (List.filter (dueByDate now u) rows)).
Proof.
  unfold Earlier.dueRows, UserProgress.findMany. cbn [dueOrder].
  do 2 f_equal. apply filter_ext. intros p. apply holds_dueByDate.
Qed.

(** The rows the first version lists are the head, in the order of the
    due list, of the rows that are due by the date. *)
Lemma earlier_dueRows_head (now : Z) (u : string) (rows : list UserProgress.t) :
  exists rest,
    Permutation (Earlier.dueRows now u rows ++ rest)
      (List.filter (dueByDate now u) rows) /\
    StronglySorted dueBefore (Earlier.dueRows now u rows) /\
    (forall p q, In p (Earlier.dueRows now u rows) -> In q rest -> dueBefore p q) /\
    length (Earlier.dueRows now u rows) =
      Nat.min 20 (length (List.filter (dueByDate now u) rows)).
Proof.
  destruct (findMany_dueOrder
              (UserProgress.AND (UserProgress.UserIdIs u)
                 (UserProgress.OR (UserProgress.NextReviewLte now)
                    UserProgress.NextReviewNull)) 20 rows)
    as (rest & Hperm & Hsort & Hafter & Hlen).
  rewrite (filter_ext _ (dueByDate now u)) in Hperm, Hlen
    by (intros p; apply holds_dueByDate).
  exists rest. now repeat split.
Qed.

(** X8.  In the first version the grade takes the topic off the due
    list and puts it back later: with at most one row for each user and
    topic, after an accepted grade at [now] the due list of the user at
    any time before [now] + 86400000 ms does not hold the topic, and at
    any time from [now] + 2592000000 ms on it holds the topic, unless the
    list is cut at 20. *)
Theorem graded_topic_due (now : Z) (u tp : string) (q : Z)
    (rows : list UserProgress.t) :
  Js.truthy tp = true -> 0 <= q <= 5 ->
  keysUnique rows ->
  let rows' :=
    fst (reviewGrade now u {| topicId := Some tp; quality := Some q |} rows) in
  (forall t, t < now + 86400000 ->
     ~ exists p, In p (Earlier.dueRows t u rows') /\ UserProgress.topicId p = tp) /\
  (forall t, now + 2592000000 <= t ->
     (length (List.filter (dueByDate t u) rows') <= 20)%nat ->
     exists p, In p (Earlier.dueRows t u rows') /\
               UserProgress.userId p = u /\ UserProgress.topicId p = tp).
Proof.
  intros Ht Hq Hkeys rows'.
  destruct (reviewGrade_stored now u {| topicId := Some tp; quality := Some q |}
              tp q rows eq_refl eq_refl Ht Hq) as (progress & Hstored & Hu & Htp).
  fold rows' in Hstored.
  set (stored := graded now q (previousLevel u tp rows) progress) in *.
  assert (Hin : In stored rows').
  { unfold UserProgress.findFirst in Hstored. now apply find_some in Hstored. }
  assert (Hkeys' : keysUnique rows') by now apply keysUnique_after.
  pose proof (gradedDays_range q (previousLevel u tp rows)) as Hdays.
  assert (Hnext : UserProgress.nextReview stored =
                    Some (now + gradedDays q (previousLevel u tp rows) * 86400000))
    by reflexivity.
  split.
  - intros t Hbefore (p & Hp & Hptp).
    destruct (earlier_dueRows_head t u rows') as (rest & Hperm & _).
    assert (Hc : In p (List.filter (dueByDate t u) rows')).
    { apply (Permutation_in p Hperm). apply in_or_app. now left. }
    apply filter_In in Hc. destruct Hc as [Hprows Hd].
    unfold dueByDate in Hd. apply andb_true_iff in Hd.
    destruct Hd as [Hpu Hd]. apply String.eqb_eq in Hpu.
    assert (p = stored).
    { eapply (key_unique_in
                (fun p => (UserProgress.userId p, UserProgress.topicId p)));
        eauto. subst stored. simpl. congruence. }
    subst p. rewrite Hnext in Hd. apply Z.leb_le in Hd. lia.
  - intros t Hafter Hlen.
    destruct (earlier_dueRows_head t u rows') as (rest & Hperm & _ & _ & Hl).
    assert (Hrest : rest = []).
    { apply length_zero_iff_nil.
      pose proof (Permutation_length Hperm) as Hpl. rewrite length_app in Hpl. lia. }
    subst rest. rewrite app_nil_r in Hperm.
    exists stored. split; [| split].
    + apply (Permutation_in stored (Permutation_sym Hperm)).
      apply filter_In. split; [exact Hin|].
      unfold dueByDate. rewrite Hnext.
      replace (UserProgress.userId stored) with u by (subst stored; simpl; congruence).
      rewrite String.eqb_refl. simpl. apply Z.leb_le. lia.
    + subst stored; simpl. exact Hu.
    + subst stored; simpl. exact Htp.
Qed.

Lemma graded_topic_due_witness :
  let rows' :=
    fst (reviewGrade 0 "u1" {| topicId := Some "t1"; quality := Some 5 |}
           [UserProgress.mk 1 "u1" "t1" 2 None None 0]) in
  (forall t, t < 0 + 86400000 ->
     ~ exists p, In p (Earlier.dueRows t "u1" rows') /\ UserProgress.topicId p = "t1") /\
  (forall t, 0 + 2592000000 <= t ->
     (length (List.filter (dueByDate t "u1") rows') <= 20)%nat ->
     exists p, In p (Earlier.dueRows t "u1" rows') /\
               UserProgress.userId p = "u1" /\ UserProgress.topicId p = "t1").
Proof.
  apply (graded_topic_due 0 "u1" "t1" 5 [UserProgress.mk 1 "u1" "t1" 2 None None 0]);
    [reflexivity | lia |].
  unfold keysUnique; simpl. apply NoDup_singleton.
Defined.

(** X9.  The due list of the first version, [GET /api/review/due] by
    date.  Its candidates are the rows of the user whose next review is
    unset or not after now, whatever their level.  It lists 20 of them,
    or all when they are fewer, each with its topic, level and next
    review: the first ones in the order that puts the earlier next review
    first and the unset ones after every date.  The table splits into the
    rows listed, the candidates left out, each of which comes after every
    row listed, and the rows that are no candidates. *)
Theorem earlier_reviewDue_selection (now : Z) (u : string)
    (rows : list UserProgress.t) :
  exists listed rest others,
    Earlier.reviewDue now u rows =
      Json {| total := length listed;
              items :=
                map (fun d => {| item_topicId := UserProgress.topicId d;
                                 item_masteryLevel := UserProgress.masteryLevel d;
                                 item_nextReview := UserProgress.nextReview d |})
                    listed |} /\
    Permutation (listed ++ rest ++ others) rows /\
    Forall (fun p => UserProgress.userId p = u /\
                     match UserProgress.nextReview p with
                     | Some r => r <= now
                     | None => True
                     end) (listed ++ rest) /\
    Forall (fun p => ~ (UserProgress.userId p = u /\
                        match UserProgress.nextReview p with
                        | Some r => r <= now
                        | None => True
                        end)) others /\
    StronglySorted dueBefore listed /\
    (forall p q, In p listed -> In q rest -> dueBefore p q) /\
    length listed = Nat.min 20 (length (listed ++ rest)).
Proof.
  destruct (earlier_dueRows_head now u rows) as (rest & Hperm & Hsort & Hafter & Hlen).
  assert (Hdate : forall p, dueByDate now u p = true <->
            UserProgress.userId p = u /\
            match UserProgress.nextReview p with
            | Some r => r <= now
            | None => True
            end).
  { intros p. unfold dueByDate. rewrite andb_true_iff, String.eqb_eq.
    destruct (UserProgress.nextReview p); [rewrite Z.leb_le|]; tauto. }
  exists (Earlier.dueRows now u rows), rest,
    (List.filter (fun p => negb (dueByDate now u p)) rows).
  split; [reflexivity|]. split; [| split; [| split; [| split; [| split]]]].
  - rewrite app_assoc, Hperm. apply filter_complement.
  - apply List.Forall_forall. intros p Hp.
    apply (Permutation_in p Hperm) in Hp. apply filter_In in Hp.
    apply Hdate, Hp.
  - apply List.Forall_forall. intros p Hp Hc.
    apply filter_In in Hp. destruct Hp as [_ Hp].
    apply Hdate in Hc. now rewrite Hc in Hp.
  - exact Hsort.
  - exact Hafter.
  - rewrite Hlen. now rewrite (Permutation_length Hperm).
Qed.

Lemma filter_split_length {A} (f g h : A -> bool) (l : list A) :
  (forall x, f x = g x || h x) ->
  (forall x, g x && h x = false) ->
  length (List.filter f l) =
    (length (List.filter g l) + length (List.filter h l))%nat.
Proof.
  intros Hf Hgh. induction l as [|x l IH]; simpl; [reflexivity|].
  rewrite Hf. specialize (Hgh x).
  destruct (g x), (h x); simpl in *; try discriminate; lia.
Qed.

(** X10.  In the earlier version the summary and the due list disagree
    on rows that were never scheduled: the due count of
    [GET /api/progress/summary] leaves them out, while the due list takes
    them, so that the rows the list chooses from are the counted ones and
    the never scheduled ones together. *)
Theorem earlier_dueCount_misses_unscheduled (now : Z) (u : string)
    (attemptRows : list QuizAttempt.t) (rows : list UserProgress.t) :
  exists s,
    Earlier.progressSummary now u attemptRows rows = Json s /\
    length (List.filter (dueByDate now u) rows) =
      (dueCount s + length (List.filter (neverScheduled u) rows))%nat /\
    length (Earlier.dueRows now u rows) =
      Nat.min 20 (dueCount s + length (List.filter (neverScheduled u) rows)).
Proof.
  eexists. split; [reflexivity|]. simpl.
  assert (Hsplit : length (List.filter (dueByDate now u) rows) =
            (UserProgress.count
               (UserProgress.AND (UserProgress.UserIdIs u)
                  (UserProgress.NextReviewLte now)) rows
             + length (List.filter (neverScheduled u) rows))%nat).
  { unfold UserProgress.count. apply filter_split_length.
    - intros p. unfold dueByDate, neverScheduled; simpl.
      destruct (String.eqb (UserProgress.userId p) u),
        (UserProgress.nextReview p); simpl; try reflexivity.
      now rewrite orb_false_r.
    - intros p. unfold neverScheduled; simpl.
      destruct (String.eqb (UserProgress.userId p) u),
        (UserProgress.nextReview p); simpl; try reflexivity.
      now rewrite andb_false_r. }
  split; [exact Hsplit|].
  rewrite <- Hsplit, earlier_dueRows_unfold, length_take.
  now rewrite (Permutation_length (sorted_candidates _ rows)).
Qed.

(** X11.  In the summary of the later version every tracked topic is
    either mastered or due: whatever the request, the two counts add up
    to the number of tracked topics. *)
Theorem summary_counts_partition (req : Middleware.Request)
    (attemptRows : list QuizAttempt.t) (rows : list UserProgress.t) :
  exists s,
    ProgressRoutes.progressSummary req (attemptRows, rows) =
      ((attemptRows, rows), Json s) /\
    (masteredTopics s + dueCount s = totalTrackedTopics s)%nat.
Proof.
  eexists. split; [reflexivity|].
  cbn [masteredTopics dueCount totalTrackedTopics].
  generalize (ProgressRoutes.progressOf (Middleware.userId req)
                (snd (attemptRows, rows))).
  intros progress. induction progress as [|p l IH]; simpl; [reflexivity|].
  destruct (Z.leb_spec 3 (UserProgress.masteryLevel p)),
    (Z.ltb_spec (UserProgress.masteryLevel p) 3); simpl; lia.
Qed.

Lemma totalScore_bounds lo hi attempts :
  Forall (fun a => lo <= QuizAttempt.score a <= hi) attempts ->
  lo * Z.of_nat (length attempts) <= totalScore attempts
    <= hi * Z.of_nat (length attempts).
Proof.
  induction 1 as [|a l Ha _ IH]; simpl; [lia|].
  unfold totalScore in *. simpl. lia.
Qed.

(** X12.  The average of the summary stays within the scores: when
    every attempt of the user scored between [lo] and [hi], so does the
    average score, and a user without attempts gets 0. *)
Theorem average_within_scores (lo hi : Z) (attempts : list QuizAttempt.t) :
  Forall (fun a => lo <= QuizAttempt.score a <= hi) attempts ->
  (attempts = [] -> averageScore attempts = 0) /\
  (attempts <> [] -> lo <= averageScore attempts <= hi).
Proof.
  intros Hall. split.
  - now intros ->.
  - intros Hne. unfold averageScore.
    assert (Hn : (0 < length attempts)%nat)
      by (destruct attempts; [congruence | simpl; lia]).
    replace (0 <? length attempts)%nat with true
      by (symmetry; now apply Nat.ltb_lt).
    rewrite sumScores_total.
    pose proof (totalScore_bounds lo hi attempts Hall) as Hsum.
    pose proof (round_div_nearest (totalScore attempts)
                  (Z.of_nat (length attempts)) ltac:(lia)) as Hr.
    nia.
Qed.

Lemma average_within_scores_witness :
  ([QuizAttempt.mk "u1" 80; QuizAttempt.mk "u1" 85] = [] ->
   averageScore [QuizAttempt.mk "u1" 80; QuizAttempt.mk "u1" 85] = 0) /\
  ([QuizAttempt.mk "u1" 80; QuizAttempt.mk "u1" 85] <> [] ->
   0 <= averageScore [QuizAttempt.mk "u1" 80; QuizAttempt.mk "u1" 85] <= 100).
Proof.
  apply (average_within_scores 0 100). repeat constructor; simpl; lia.
Defined.

End EarlierVersion.


(** * Further properties of the one-time codes *)

Section Codes.

Import Auth.

Lemma pretty_N_go_length (x : N) (s : string) :
  (String.length s <= String.length (pretty_N_go x s))%nat.
Proof.
  revert s. induction (N.lt_wf_0 x) as [x _ IH]; intros s.
  assert (x = 0 \/ 0 < x)%N as [-> | Hx] by lia.
  - now rewrite pretty_N_go_0.
  - rewrite pretty_N_go_step by exact Hx.
    etransitivity; [| apply IH; now apply N.div_lt]. simpl. lia.
Qed.

Lemma pretty_positive_nonempty (x : positive) : pretty x <> "".
Proof.
  unfold pretty, pretty_positive, pretty, pretty_N.
  destruct (decide (N.pos x = 0%N)) as [H|_]; [discriminate H|].
  rewrite pretty_N_go_step by lia.
  intros Hempty.
  pose proof (pretty_N_go_length (N.pos x `div` 10)
                (String (pretty_N_char (N.pos x `mod` 10)) "")) as Hlen.
  rewrite Hempty in Hlen. simpl in Hlen. lia.
Qed.

(** The text of a number is never empty, so a code is never falsy. *)
Lemma codeOf_truthy (n : Z) : Js.truthy (codeOf n) = true.
Proof.
  unfold Js.truthy, codeOf. apply negb_true_iff, String.eqb_neq.
  destruct n as [|x|x]; simpl.
  - discriminate.
  - apply pretty_positive_nonempty.
  - discriminate.
Qed.

Lemma codeOf_inj (m n : Z) : codeOf m = codeOf n -> m = n.
Proof. apply (inj pretty). Qed.

Lemma pretty_N_char_digit (x : N) : isDigit (pretty_N_char x) = true.
Proof.
  unfold pretty_N_char.
  destruct x as [|p]; [reflexivity|].
  do 4 (destruct p as [p|p|]; try reflexivity).
Qed.

Lemma pretty_N_char_nonzero (x : N) :
  (1 <= x)%N -> pretty_N_char x <> "0"%char.
Proof.
  unfold pretty_N_char. intros Hx.
  destruct x as [|p]; [lia|].
  do 4 (destruct p as [p|p|]; try discriminate).
Qed.

(** X13.  A code drawn from 100000 to 999999 is a text of exactly six
    decimal digits that does not start with 0, and two different numbers
    never give the same code. *)
Theorem codeOf_six_digits (n : Z) :
  100000 <= n <= 999999 ->
  String.length (codeOf n) = 6%nat /\
  allDigits (codeOf n) = true /\
  (forall c rest, codeOf n = String c rest -> c <> "0"%char) /\
  (forall m, m <> n -> codeOf m <> codeOf n).
Proof.
  intros Hn.
  assert (Hshape : exists x : N,
            (100000 <= x <= 999999)%N /\
            codeOf n =
              String (pretty_N_char ((x `div` 100000) `mod` 10))
                (String (pretty_N_char ((x `div` 10000) `mod` 10))
                   (String (pretty_N_char ((x `div` 1000) `mod` 10))
                      (String (pretty_N_char ((x `div` 100) `mod` 10))
                         (String (pretty_N_char ((x `div` 10) `mod` 10))
                            (String (pretty_N_char (x `mod` 10)) "")))))).
  { destruct n as [|p|p]; try lia. exists (N.pos p). split; [lia|].
    unfold codeOf, pretty, pretty_Z, pretty, pretty_positive, pretty, pretty_N.
    destruct (decide (N.pos p = 0%N)) as [H|_]; [discriminate H|].
    set (x := N.pos p) in *. assert (Hx : (100000 <= x <= 999999)%N) by lia.
    clearbody x.
    rewrite pretty_N_go_step by lia.
    rewrite pretty_N_go_step by (apply N.div_str_pos; lia).
    rewrite !N.Div0.div_div.
    rewrite pretty_N_go_step by (apply N.div_str_pos; lia).
    rewrite !N.Div0.div_div.
    rewrite pretty_N_go_step by (apply N.div_str_pos; lia).
    rewrite !N.Div0.div_div.
    rewrite pretty_N_go_step by (apply N.div_str_pos; lia).
    rewrite !N.Div0.div_div.
    rewrite pretty_N_go_step by (apply N.div_str_pos; lia).
    rewrite !N.Div0.div_div.
    replace (x `div` (10 * 10 * 10 * 10 * 10 * 10))%N with 0%N
      by (symmetry; apply N.div_small; lia).
    rewrite pretty_N_go_0. reflexivity. }
  destruct Hshape as (x & Hx & Hcode). rewrite Hcode.
  split; [reflexivity|]. split; [| split].
  - simpl. now rewrite !pretty_N_char_digit.
  - intros c rest [= <- _]. apply pretty_N_char_nonzero.
    assert (1 <= x `div` 100000 < 10)%N.
    { split; [apply N.div_le_lower_bound; lia
             | apply N.Div0.div_lt_upper_bound; lia]. }
    rewrite N.mod_small by lia. lia.
  - intros m Hm. rewrite <- Hcode. intros He. apply Hm. now apply codeOf_inj.
Qed.

Lemma codeOf_six_digits_witness :
  String.length (codeOf 123456) = 6%nat /\
  allDigits (codeOf 123456) = true /\
  (forall c rest, codeOf 123456 = String c rest -> c <> "0"%char) /\
  (forall m, m <> 123456 -> codeOf m <> codeOf 123456).
Proof. apply codeOf_six_digits. lia. Defined.

End Codes.

Section IssueThenVerify.

Import Auth.

Lemma sendEmailCode_bound now n outcome e w :
  Js.truthy e = true ->
  currentCodes (fst (sendEmailCode now n outcome (Some e) w)) !! codeOf n =
    Some (AuthCode.mk (Some e) None None (now + fiveMinutes)).
Proof.
  intros Ht. unfold sendEmailCode. rewrite Ht; simpl.
  destruct outcome; rewrite lookup_print; apply lookup_bind.
Qed.

Lemma sendSmsCode_bound smsApiId now n outcome p w :
  Js.truthy p = true ->
  currentCodes (fst (sendSmsCode smsApiId now n outcome (Some p) w)) !! codeOf n =
    Some (AuthCode.mk None (Some p) None (now + fiveMinutes)).
Proof.
  intros Ht. unfold sendSmsCode. rewrite Ht; simpl.
  destruct (negb (Js.truthy smsApiId)); [|destruct outcome];
    rewrite lookup_print; apply lookup_bind.
Qed.

Lemma requestCode_bound now n outcome i w :
  Js.truthy i = true ->
  currentCodes (fst (requestCode now n outcome (Some i) w)) !! codeOf n =
    Some (AuthCode.mk None None (Some i) (now + fiveMinutes)).
Proof.
  intros Ht. unfold requestCode. rewrite Ht; simpl.
  destruct outcome; rewrite lookup_print;
    unfold currentCodes; simpl; apply lookup_insert_eq.
Qed.

(** X14.  A code that was just issued verifies on the route of its
    channel at any time up to five minutes after it was issued, whatever
    the delivery call did: the answer is a user with the identity the code
    was issued for, and the code is unbound by it. *)
Theorem issued_code_verifies (now later n : Z) (outcome : Delivery)
    (identity smsApiId : string) (w : World) :
  Js.truthy identity = true ->
  later <= now + 5 * 60 * 1000 ->
  (exists w2 user,
     verifyEmailCode later (Some (codeOf n))
       (fst (sendEmailCode now n outcome (Some identity) w)) = (w2, Json user) /\
     User.email user = Some identity /\
     currentCodes w2 !! codeOf n = None) /\
  (exists w2 user,
     verifySmsCode later (Some (codeOf n)) (Some identity)
       (fst (sendSmsCode smsApiId now n outcome (Some identity) w)) =
       (w2, Json user) /\
     User.phone user = Some identity /\
     currentCodes w2 !! codeOf n = None) /\
  (exists w2 user,
     verifyCode later (Some (codeOf n))
       (fst (requestCode now n outcome (Some identity) w)) = (w2, Json user) /\
     User.telegramId user = Some identity /\
     currentCodes w2 !! codeOf n = None).
Proof.
  intros Ht Hlater. pose proof (codeOf_truthy n) as Hcode.
  split; [| split].
  - destruct (verifyEmailCode_live later (codeOf n) _ identity _ Hcode
                (sendEmailCode_bound now n outcome identity w Ht))
      as (w2 & user & Hv & Hu & _ & Hgone); [simpl; unfold fiveMinutes; lia | reflexivity |].
    now exists w2, user.
  - destruct (verifySmsCode_live later (codeOf n) _ identity _ Hcode Ht
                (sendSmsCode_bound smsApiId now n outcome identity w Ht))
      as (w2 & user & Hv & Hu & _ & Hgone); [simpl; unfold fiveMinutes; lia | reflexivity |].
    now exists w2, user.
  - destruct (verifyCode_live later (codeOf n) _ identity _ Hcode
                (requestCode_bound now n outcome identity w Ht))
      as (w2 & user & Hv & Hu & _ & Hgone); [simpl; unfold fiveMinutes; lia | reflexivity |].
    now exists w2, user.
Qed.

Lemma issued_code_verifies_witness :
  exists w2 user,
    verifyEmailCode 300000 (Some (codeOf 123456))
      (fst (sendEmailCode 0 123456 Rejected (Some "a@b.c") smsWorld)) =
      (w2, Json user) /\
    User.email user = Some "a@b.c" /\
    currentCodes w2 !! codeOf 123456 = None.
Proof.
  apply (issued_code_verifies 0 300000 123456 Rejected "a@b.c" "" smsWorld);
    [reflexivity | lia].
Defined.

Lemma verifyEmailCode_expired now code cd w :
  Js.truthy code = true -> currentCodes w !! code = Some cd ->
  AuthCode.expiresAt cd < now ->
  verifyEmailCode now (Some code) w = (unbind code w, Failure 400 ErrCodeExpired).
Proof.
  intros Ht Hcd Hexp. unfold verifyEmailCode.
  rewrite (present_truthy _ Ht); simpl. rewrite Hcd.
  now replace (AuthCode.expiresAt cd <? now) with true
    by (symmetry; apply Z.ltb_lt; lia).
Qed.

Lemma verifySmsCode_expired now code p cd w :
  Js.truthy code = true -> Js.truthy p = true ->
  currentCodes w !! code = Some cd -> AuthCode.phone cd = Some p ->
  AuthCode.expiresAt cd < now ->
  verifySmsCode now (Some code) (Some p) w =
    (unbind code w, Failure 400 ErrCodeExpired).
Proof.
  intros Ht Hp Hcd Hphone Hexp. unfold verifySmsCode.
  rewrite (present_truthy _ Ht), (present_truthy _ Hp); simpl. rewrite Hcd.
  rewrite bool_decide_eq_true_2 by exact Hphone. simpl.
  now replace (AuthCode.expiresAt cd <? now) with true
    by (symmetry; apply Z.ltb_lt; lia).
Qed.

Lemma verifyCode_expired now code cd w :
  Js.truthy code = true -> currentCodes w !! code = Some cd ->
  AuthCode.expiresAt cd < now ->
  verifyCode now (Some code) w = (unbind code w, Failure 400 ErrCodeExpired).
Proof.
  intros Ht Hcd Hexp. unfold verifyCode.
  rewrite (present_truthy _ Ht); simpl. rewrite Hcd.
  now replace (AuthCode.expiresAt cd <? now) with true
    by (symmetry; apply Z.ltb_lt; lia).
Qed.

(** X15.  Later than five minutes after it was issued, even by one
    millisecond, a code is answered as expired on the route of its channel,
    no user is resolved, and the code is unbound, so that one more try is an
    invalid code. *)
Theorem issued_code_expires (now later n : Z) (outcome : Delivery)
    (identity smsApiId : string) (w : World) :
  Js.truthy identity = true ->
  now + 5 * 60 * 1000 < later ->
  (let w1 := fst (sendEmailCode now n outcome (Some identity) w) in
   verifyEmailCode later (Some (codeOf n)) w1 =
     (unbind (codeOf n) w1, Failure 400 ErrCodeExpired) /\
   users (unbind (codeOf n) w1) = users w /\
   forall t, verifyEmailCode t (Some (codeOf n)) (unbind (codeOf n) w1) =
               (unbind (codeOf n) w1, Failure 400 ErrInvalidCode)) /\
  (let w1 := fst (sendSmsCode smsApiId now n outcome (Some identity) w) in
   verifySmsCode later (Some (codeOf n)) (Some identity) w1 =
     (unbind (codeOf n) w1, Failure 400 ErrCodeExpired) /\
   users (unbind (codeOf n) w1) = users w /\
   forall t, verifySmsCode t (Some (codeOf n)) (Some identity) (unbind (codeOf n) w1) =
               (unbind (codeOf n) w1, Failure 400 ErrInvalidCode)) /\
  (let w1 := fst (requestCode now n outcome (Some identity) w) in
   verifyCode later (Some (codeOf n)) w1 =
     (unbind (codeOf n) w1, Failure 400 ErrCodeExpired) /\
   users (unbind (codeOf n) w1) = users w /\
   forall t, verifyCode t (Some (codeOf n)) (unbind (codeOf n) w1) =
               (unbind (codeOf n) w1, Failure 400 ErrInvalidCode)).
Proof.
  intros Ht Hlater. pose proof (codeOf_truthy n) as Hcode.
  split; [| split]; intros w1.
  - split; [| split].
    + eapply verifyEmailCode_expired;
        [exact Hcode | now apply sendEmailCode_bound | simpl; unfold fiveMinutes; lia].
    + subst w1. unfold sendEmailCode. rewrite Ht; simpl. now destruct outcome.
    + intros t. apply verifyEmailCode_unbound; [exact Hcode | apply lookup_unbind].
  - split; [| split].
    + eapply verifySmsCode_expired;
        [exact Hcode | exact Ht | now apply sendSmsCode_bound | reflexivity
        | simpl; unfold fiveMinutes; lia].
    + subst w1. unfold sendSmsCode. rewrite Ht; simpl.
      destruct (negb (Js.truthy smsApiId)); [|destruct outcome]; reflexivity.
    + intros t. apply verifySmsCode_unbound;
        [exact Hcode | exact Ht | apply lookup_unbind].
  - split; [| split].
    + eapply verifyCode_expired;
        [exact Hcode | now apply requestCode_bound | simpl; unfold fiveMinutes; lia].
    + subst w1. unfold requestCode. rewrite Ht; simpl. now destruct outcome.
    + intros t. apply verifyCode_unbound; [exact Hcode | apply lookup_unbind].
Qed.

Lemma issued_code_expires_witness :
  let w1 := fst (sendEmailCode 0 123456 Resolved (Some "a@b.c") smsWorld) in
  verifyEmailCode 300001 (Some (codeOf 123456)) w1 =
    (unbind (codeOf 123456) w1, Failure 400 ErrCodeExpired) /\
  users (unbind (codeOf 123456) w1) = users smsWorld /\
  forall t, verifyEmailCode t (Some (codeOf 123456)) (unbind (codeOf 123456) w1) =
              (unbind (codeOf 123456) w1, Failure 400 ErrInvalidCode).
Proof.
  apply (issued_code_expires 0 300001 123456 Resolved "a@b.c" "" smsWorld);
    [reflexivity | lia].
Defined.

End IssueThenVerify.

Section IssueFrame.

Import Auth.

(** X16.  A code issued by email or by SMS leaves the rest of the
    registry alone: the code of every other number is bound after the
    request exactly as it was before, and the user table is not touched.
    (The bot route is different: see [requestCode_replaces_registry].) *)
Theorem issue_keeps_other_codes (now n m : Z) (outcome : Delivery)
    (identity smsApiId : string) (w : World) :
  m <> n ->
  (let w1 := fst (sendEmailCode now n outcome (Some identity) w) in
   currentCodes w1 !! codeOf m = currentCodes w !! codeOf m /\
   users w1 = users w /\ calls w1 = calls w) /\
  (let w1 := fst (sendSmsCode smsApiId now n outcome (Some identity) w) in
   currentCodes w1 !! codeOf m = currentCodes w !! codeOf m /\
   users w1 = users w /\ calls w1 = calls w).
Proof.
  intros Hmn.
  assert (Hne : codeOf n <> codeOf m)
    by (intros He; apply Hmn; symmetry; now apply codeOf_inj).
  assert (Hbind : forall data,
            currentCodes (bind (codeOf n) data w) !! codeOf m =
              currentCodes w !! codeOf m).
  { intros data. unfold bind, currentCodes at 1; simpl.
    now apply lookup_insert_ne. }
  split; intros w1; subst w1.
  - unfold sendEmailCode. destruct (Js.truthy identity); simpl;
      [|repeat split].
    destruct outcome; rewrite lookup_print, Hbind; repeat split.
  - unfold sendSmsCode. destruct (Js.truthy identity); simpl;
      [|repeat split].
    destruct (negb (Js.truthy smsApiId)); [|destruct outcome];
      rewrite lookup_print, Hbind; repeat split.
Qed.

Lemma issue_keeps_other_codes_witness :
  let w1 := fst (sendEmailCode 0 654321 Resolved (Some "a@b.c") smsWorld) in
  currentCodes w1 !! codeOf 123456 = currentCodes smsWorld !! codeOf 123456 /\
  users w1 = users smsWorld /\ calls w1 = calls smsWorld.
Proof.
  apply (issue_keeps_other_codes 0 654321 123456 Resolved "a@b.c" "" smsWorld).
  lia.
Defined.

(** X17.  The last issue wins: when the same number is drawn again for
    another phone while the first code is still bound, the code now
    belongs to the second phone only: presented with the first phone it is
    an invalid code, and with the second it verifies. *)
Theorem reissued_code_belongs_to_last (now1 now2 later n : Z)
    (out1 out2 : Delivery) (p1 p2 smsApiId : string) (w : World) :
  Js.truthy p1 = true -> Js.truthy p2 = true ->
  p1 <> p2 ->
  later <= now2 + 5 * 60 * 1000 ->
  let w1 := fst (sendSmsCode smsApiId now1 n out1 (Some p1) w) in
  let w2 := fst (sendSmsCode smsApiId now2 n out2 (Some p2) w1) in
  verifySmsCode later (Some (codeOf n)) (Some p1) w2 =
    (w2, Failure 400 ErrInvalidCode) /\
  exists w3 user,
    verifySmsCode later (Some (codeOf n)) (Some p2) w2 = (w3, Json user) /\
    User.phone user = Some p2.
Proof.
  intros H1 H2 Hne Hlater w1 w2. pose proof (codeOf_truthy n) as Hcode.
  pose proof (sendSmsCode_bound smsApiId now2 n out2 p2 w1 H2) as Hbound.
  fold w2 in Hbound. split.
  - unfold verifySmsCode.
    rewrite (present_truthy _ Hcode), (present_truthy _ H1); simpl.
    rewrite Hbound. simpl.
    rewrite bool_decide_eq_false_2; [reflexivity | congruence].
  - destruct (verifySmsCode_live later (codeOf n) _ p2 w2 Hcode H2 Hbound)
      as (w3 & user & Hv & Hu & _); [simpl; unfold fiveMinutes; lia | reflexivity |].
    now exists w3, user.
Qed.

Lemma reissued_code_belongs_to_last_witness :
  let w1 := fst (sendSmsCode "" 0 123456 Resolved (Some "+1") smsWorld) in
  let w2 := fst (sendSmsCode "" 5 123456 Resolved (Some "+2") w1) in
  verifySmsCode 9 (Some (codeOf 123456)) (Some "+1") w2 =
    (w2, Failure 400 ErrInvalidCode) /\
  exists w3 user,
    verifySmsCode 9 (Some (codeOf 123456)) (Some "+2") w2 = (w3, Json user) /\
    User.phone user = Some "+2".
Proof.
  apply (reissued_code_belongs_to_last 0 5 9 123456 Resolved Resolved "+1" "+2" ""
           smsWorld); first [reflexivity | discriminate | lia].
Defined.

End IssueFrame.

Section UserResolution.

Import Auth.

Lemma userFreshId_above (rows : list User.t) (x : User.t) :
  In x rows -> (User.id x < User.freshId rows)%nat.
Proof.
  unfold User.freshId. induction rows as [|r rows IH]; simpl; [tauto|].
  intros [-> | Hin]; [lia|]. specialize (IH Hin). lia.
Qed.

Lemma findOrCreate_resolved c by_ d w :
  resolved by_ (users w) (users (fst (findOrCreate c by_ d w)))
    (snd (findOrCreate c by_ d w)) /\
  authCodes (fst (findOrCreate c by_ d w)) = authCodes w /\
  (snd (findOrCreate c by_ d w) = snd (User.create d (users w)) \/
   List.find by_ (users w) = Some (snd (findOrCreate c by_ d w))).
Proof.
  unfold findOrCreate, findUser, resolved.
  destruct (List.find by_ (users w)) as [u|] eqn:Hfind; simpl.
  - split; [now left|]. split; [reflexivity | now right].
  - split; [|split; [reflexivity | now left]].
    right. split; [reflexivity|]. split; [reflexivity|].
    intros x Hx. simpl. now apply userFreshId_above.
Qed.



Lemma find_after_resolved by_ users users' user :
  resolved by_ users users' user -> by_ user = true ->
  List.find by_ users' = Some user.
Proof.
  intros [[Hf ->] | (Hn & -> & _)] Hby; [exact Hf|].
  now apply find_app_last.
Qed.

(** X19.  Two codes for one email lead to one account: when two live
    codes are bound to the same email, verifying one and then the other
    answers with the same user both times, and the second verification
    does not change the user table. *)
Theorem two_codes_one_account (t1 t2 : Z) (c1 c2 e : string)
    (cd1 cd2 : AuthCode.t) (w : World) :
  Js.truthy c1 = true -> Js.truthy c2 = true -> c1 <> c2 ->
  currentCodes w !! c1 = Some cd1 -> currentCodes w !! c2 = Some cd2 ->
  AuthCode.email cd1 = Some e -> AuthCode.email cd2 = Some e ->
  t1 <= AuthCode.expiresAt cd1 -> t2 <= AuthCode.expiresAt cd2 ->
  exists w1 w2 user,
    verifyEmailCode t1 (Some c1) w = (w1, Json user) /\
    verifyEmailCode t2 (Some c2) w1 = (w2, Json user) /\
    users w2 = users w1 /\
    (length (users w2) <= S (length (users w)))%nat.
Proof.
  intros H1 H2 Hne Hcd1 Hcd2 He1 He2 Hl1 Hl2.
  assert (Hstep : forall t c cd w0,
            Js.truthy c = true -> currentCodes w0 !! c = Some cd ->
            t <= AuthCode.expiresAt cd -> AuthCode.email cd = Some e ->
            exists w1 user,
              verifyEmailCode t (Some c) w0 = (w1, Json user) /\
              resolved (User.hasEmail e) (users w0) (users w1) user /\
              User.hasEmail e user = true /\
              currentCodes w1 = delete c (currentCodes w0)).
  { intros t c cd w0 Hc Hcd Hl He. unfold verifyEmailCode.
    rewrite (present_truthy _ Hc); simpl. rewrite Hcd.
    replace (AuthCode.expiresAt cd <? t) with false
      by (symmetry; apply Z.ltb_ge; lia).
    rewrite He.
    pose proof (findOrCreate_resolved (User.FindByEmail e) (User.hasEmail e)
                  (User.data None (Some e) None None (Some (Js.before_at e)) None None)
                  w0) as (Hres & Hcodes & Hwho).
    destruct (findOrCreate _ _ _ w0) as [w1 user]. simpl in *.
    exists (unbind c w1), user. split; [reflexivity|]. split; [exact Hres|]. split.
    - destruct Hwho as [-> | Hfound].
      + unfold User.hasEmail; simpl. apply String.eqb_refl.
      + now apply find_some in Hfound.
    - rewrite currentCodes_unbind. unfold currentCodes. now rewrite Hcodes. }
  destruct (Hstep t1 c1 cd1 w H1 Hcd1 Hl1 He1) as (w1 & user & Hv1 & Hres1 & Hby & Hc1).
  assert (Hcd2' : currentCodes w1 !! c2 = Some cd2)
    by (rewrite Hc1, lookup_delete_ne by exact Hne; exact Hcd2).
  destruct (Hstep t2 c2 cd2 w1 H2 Hcd2' Hl2 He2) as (w2 & user2 & Hv2 & Hres2 & _ & _).
  pose proof (find_after_resolved _ _ _ _ Hres1 Hby) as Hfound.
  destruct Hres2 as [[Hf2 Hu2] | (Hn2 & _)]; [|congruence].
  assert (user2 = user) by congruence. subst user2.
  exists w1, w2, user. repeat split; try assumption.
  rewrite Hu2. destruct Hres1 as [[_ ->] | (_ & -> & _)];
    [lia | rewrite length_app; simpl; lia].
Qed.

Lemma two_codes_one_account_witness :
  exists w1 w2 user,
    verifyEmailCode 0 (Some "111111")
      (world (Some (<["111111" := AuthCode.mk (Some "ann@b.c") None None 10]>
                      (<["222222" := AuthCode.mk (Some "ann@b.c") None None 20]> ∅)))
         [] [] []) = (w1, Json user) /\
    verifyEmailCode 5 (Some "222222") w1 = (w2, Json user) /\
    users w2 = users w1 /\
    (length (users w2) <= S (length (@nil User.t)))%nat.
Proof.
  apply (two_codes_one_account 0 5 "111111" "222222" "ann@b.c"
           (AuthCode.mk (Some "ann@b.c") None None 10)
           (AuthCode.mk (Some "ann@b.c") None None 20));
    first [reflexivity | discriminate | simpl; lia].
Defined.

End UserResolution.

(** * Properties of the middleware and of the routes behind it *)

Section Gatekeeping.

Import Middleware.

(** X20.  The middleware lets a request through exactly when its
    [authorization] header is [Bearer ] followed by a non-empty token that
    verifies; the later version then leaves the user in [req.user] and does
    not touch [req.userId], the first version leaves it in [req.userId]
    and does not touch [req.user]. *)
Theorem requireAuth_passes (verify : string -> option string) (req req' : Request) :
  (requireAuth verify req = Next req' <->
   exists token uid,
     authorization req = Some ("Bearer " +:+ token) /\ token <> "" /\
     verify token = Some uid /\
     req' = request (authorization req) (Some (uid, "")) (userId req)) /\
  (Earlier.requireAuth verify req = Next req' <->
   exists token uid,
     authorization req = Some ("Bearer " +:+ token) /\ token <> "" /\
     verify token = Some uid /\
     req' = request (authorization req) (user req) (Some uid)).
Proof.
  split; split.
  - unfold requireAuth. destruct (Js.truthy (bearerToken req)) eqn:Ht; simpl;
      [|discriminate].
    destruct (verify (bearerToken req)) as [uid|] eqn:Hv; [|discriminate].
    intros [= <-]. exists (bearerToken req), uid.
    split; [now apply bearerToken_truthy|]. split; [now apply truthy_nonempty|].
    now split.
  - intros (token & uid & Hh & Hne & Hv & ->). unfold requireAuth.
    rewrite (bearerToken_of_header token req Hh).
    apply truthy_nonempty in Hne. now rewrite Hne, Hv.
  - unfold Earlier.requireAuth.
    destruct (Js.truthy (bearerToken req)) eqn:Ht; simpl; [|discriminate].
    destruct (verify (bearerToken req)) as [uid|] eqn:Hv; [|discriminate].
    intros [= <-]. exists (bearerToken req), uid.
    split; [now apply bearerToken_truthy|]. split; [now apply truthy_nonempty|].
    now split.
  - intros (token & uid & Hh & Hne & Hv & ->). unfold Earlier.requireAuth.
    rewrite (bearerToken_of_header token req Hh).
    apply truthy_nonempty in Hne. now rewrite Hne, Hv.
Qed.

(** X21.  In the first version of the file no quiz attempt is ever
    stored: the middleware leaves the user in [req.userId] while
    [POST /api/quiz/attempt] reads [req.user], so a request that arrives
    without [req.user] is answered 401 or 500 and the table is unchanged.
    Behind the later middleware the same handler stores the attempt under
    the user of the token. *)
Theorem first_version_stores_no_attempt (verify : string -> option string)
    (now : Z) (body : Attempt.Body) (req : Request) (rows : list Attempt.t) :
  user req = None ->
  (route (Earlier.requireAuth verify) (Attempt.quizAttempt now body) req rows =
     (rows, Denied) \/
   route (Earlier.requireAuth verify) (Attempt.quizAttempt now body) req rows =
     (rows, Handled (Failure 500 ErrInternalServerError))) /\
  (forall token uid,
     authorization req = Some ("Bearer " +:+ token) -> token <> "" ->
     verify token = Some uid ->
     exists attempt,
       route (requireAuth verify) (Attempt.quizAttempt now body) req rows =
         (rows ++ [attempt], Handled (Json attempt)) /\
       Attempt.userId attempt = uid /\ Attempt.score attempt = Attempt.b_score body).
Proof.
  intros Huser. split.
  - unfold route, Earlier.requireAuth.
    destruct (negb (Js.truthy (bearerToken req))); [now left|].
    destruct (verify (bearerToken req)); [|now left].
    unfold Attempt.quizAttempt; simpl. rewrite Huser. now right.
  - intros token uid Hh Hne Hv. unfold route, requireAuth.
    rewrite (bearerToken_of_header token req Hh).
    apply truthy_nonempty in Hne. rewrite Hne, Hv; simpl.
    eexists. split; [reflexivity|]. now split.
Qed.

Lemma first_version_stores_no_attempt_witness :
  let req := request (Some "Bearer abc") None None in
  let body := {| Attempt.b_topicId := "t1"; Attempt.b_score := 80;
                 Attempt.b_totalQuestions := 5; Attempt.b_correctAnswers := 4 |} in
  route (Earlier.requireAuth (fun _ => Some "u1")) (Attempt.quizAttempt 0 body) req [] =
    (@nil Attempt.t, Denied) \/
  route (Earlier.requireAuth (fun _ => Some "u1")) (Attempt.quizAttempt 0 body) req [] =
    (@nil Attempt.t, Handled (Failure 500 ErrInternalServerError)).
Proof.
  intros req body.
  apply (proj1 (first_version_stores_no_attempt (fun _ => Some "u1") 0 body req []
                  eq_refl)).
Defined.

End Gatekeeping.

Section LaterProgressRoutes.

Import Middleware.

(** With a user in [req.userId] the grade route on the request is the
    handler of the first version for that user. *)
Lemma reviewGrade_of_user now body req u rows :
  userId req = Some u ->
  ProgressRoutes.reviewGrade now body req rows = Scheduler.reviewGrade now u body rows.
Proof.
  intros H. unfold ProgressRoutes.reviewGrade, Scheduler.reviewGrade. rewrite H.
  destruct (Scheduler.topicId body) as [tp|]; [|reflexivity].
  destruct (Scheduler.quality body) as [q|]; [|reflexivity].
  destruct (negb (Js.truthy tp)); [reflexivity|].
  destruct ((q <? 0) || (5 <? q)); [reflexivity|].
  unfold ProgressRoutes.findFirst.
  destruct (UserProgress.findFirst u tp rows) as [p|]; [reflexivity|].
  now destruct (UserProgress.create now u tp rows).
Qed.

(** X22.  Behind the later middleware the due list does not depend on
    who asks: the middleware leaves the user in [req.user], the route
    reads [req.userId], and so every request that arrives without
    [req.userId] and with a token that verifies, of whatever user, gets
    the same list.  Its rows are rows of the table below level 3, of any
    user; it has 20 of them, or all when they are fewer; and when they
    are at most 20, every row below level 3 is listed. *)
Theorem later_due_route_ignores_user (rows : list UserProgress.t) :
  exists listed,
    (forall (verify : string -> option string) (req : Request) (token uid : string),
       authorization req = Some ("Bearer " +:+ token) -> token <> "" ->
       verify token = Some uid ->
       userId req = None ->
       route (requireAuth verify) ProgressRoutes.reviewDue req rows =
         (rows,
          Handled
            (Json {| Scheduler.total := length listed;
                     Scheduler.items :=
                       map (fun d =>
                              {| Scheduler.item_topicId := UserProgress.topicId d;
                                 Scheduler.item_masteryLevel := UserProgress.masteryLevel d;
                                 Scheduler.item_nextReview := UserProgress.nextReview d |})
                           listed |}))) /\
    (forall p, In p listed -> In p rows /\ UserProgress.masteryLevel p < 3) /\
    length listed = Nat.min 20 (length (List.filter belowThree rows)) /\
    ((length (List.filter belowThree rows) <= 20)%nat ->
     forall p, In p rows -> UserProgress.masteryLevel p < 3 -> In p listed).
Proof.
  destruct (findMany_dueOrder (UserProgress.MasteryLevelLt 3) 20 rows)
    as (rest & Hperm & _ & _ & Hlen).
  change (List.filter (UserProgress.holds (UserProgress.MasteryLevelLt 3)) rows)
    with (List.filter belowThree rows) in Hperm, Hlen.
  exists (ProgressRoutes.dueRows None rows).
  change (ProgressRoutes.dueRows None rows)
    with (UserProgress.findMany (UserProgress.MasteryLevelLt 3)
            Scheduler.dueOrder (Some 20%nat) rows).
  split; [| split; [| split]].
  - intros verify req token uid Hh Hne Hv Hnone. unfold route.
    rewrite (requireAuth_next verify req token uid Hh Hne Hv).
    unfold ProgressRoutes.reviewDue. cbn [userId]. rewrite Hnone. reflexivity.
  - intros p Hp.
    assert (Hc : In p (List.filter belowThree rows)).
    { apply (Permutation_in p Hperm). apply in_or_app. now left. }
    apply filter_In in Hc. destruct Hc as [Hrows Hl]. split; [exact Hrows|].
    now apply Z.ltb_lt.
  - exact Hlen.
  - intros Hle p Hp Hlevel.
    assert (Hrest : rest = []).
    { apply length_zero_iff_nil.
      pose proof (Permutation_length Hperm) as Hpl. rewrite length_app in Hpl. lia. }
    subst rest. rewrite app_nil_r in Hperm.
    apply (Permutation_in p (Permutation_sym Hperm)).
    apply filter_In. split; [exact Hp|]. now apply Z.ltb_lt.
Qed.

Lemma later_due_route_ignores_user_witness :
  let rows := [UserProgress.mk 1 "u2" "t1" 1 None None 0] in
  exists listed,
    route (requireAuth (fun _ => Some "u1")) ProgressRoutes.reviewDue
      (request (Some "Bearer abc") None None) rows =
      (rows,
       Handled
         (Json {| Scheduler.total := length listed;
                  Scheduler.items :=
                    map (fun d =>
                           {| Scheduler.item_topicId := UserProgress.topicId d;
                              Scheduler.item_masteryLevel := UserProgress.masteryLevel d;
                              Scheduler.item_nextReview := UserProgress.nextReview d |})
                        listed |})) /\
    (forall p, In p listed -> In p rows /\ UserProgress.masteryLevel p < 3).
Proof.
  intros rows.
  destruct (later_due_route_ignores_user rows) as (listed & Hroute & Hrows & _).
  exists listed. split; [| exact Hrows].
  apply (Hroute (fun _ => Some "u1") (request (Some "Bearer abc") None None)
           "abc" "u1"); [reflexivity | discriminate | reflexivity | reflexivity].
Defined.

Lemma update_found_by (P : UserProgress.t -> bool) f rows p :
  (forall r, P (f r) = P r) ->
  List.find P rows = Some p ->
  exists rows' p0,
    UserProgress.update (UserProgress.id p) f rows = Some (rows', f p0) /\
    UserProgress.id p0 = UserProgress.id p /\
    List.find P rows' = Some (f p).
Proof.
  intros Hf Hfind. unfold UserProgress.update.
  destruct (find_key_exists rows p) as (p0 & Hp0 & Hid).
  { now apply find_some in Hfind. }
  rewrite Hp0. eexists _, p0. split; [reflexivity|]. split; [exact Hid|].
  rewrite find_map_stable.
  - rewrite Hfind. simpl. now rewrite Nat.eqb_refl.
  - intros x. destruct (Nat.eqb (UserProgress.id x) (UserProgress.id p));
      [apply Hf | reflexivity].
Qed.

(** X23.  Behind the later middleware a grade does not go to the user
    who sends it: for a request that arrives without [req.userId], an
    accepted grade for a topic that has no row at all is answered 500 and
    stores nothing, and otherwise it is the first row of the topic, of
    whatever user, that is graded and answered. *)
Theorem later_grade_route_ignores_user (now : Z) (tp : string) (q : Z)
    (req : Request) (rows : list UserProgress.t) :
  userId req = None ->
  Js.truthy tp = true -> 0 <= q <= 5 ->
  let body := {| Scheduler.topicId := Some tp; Scheduler.quality := Some q |} in
  let ofTopic := fun p => String.eqb (UserProgress.topicId p) tp in
  (List.find ofTopic rows = None ->
   ProgressRoutes.reviewGrade now body req rows =
     (rows, Failure 500 ErrInternalServerError)) /\
  (forall p, List.find ofTopic rows = Some p ->
     exists rows',
       ProgressRoutes.reviewGrade now body req rows =
         (rows',
          Json {| Scheduler.masteryLevel := gradedLevel q (UserProgress.masteryLevel p);
                  Scheduler.nextReview :=
                    Some (now + gradedDays q (UserProgress.masteryLevel p)
                                * Scheduler.msPerDay) |}) /\
       List.find ofTopic rows' =
         Some (graded now q (UserProgress.masteryLevel p) p)).
Proof.
  intros Hnone Ht Hq body ofTopic.
  unfold ProgressRoutes.reviewGrade; simpl. rewrite Ht; simpl.
  replace ((q <? 0) || (5 <? q)) with false by
    (symmetry; apply orb_false_iff; split; apply Z.ltb_ge; lia).
  rewrite Hnone. unfold ProgressRoutes.findFirst. fold ofTopic. split.
  - now intros ->.
  - intros p Hp. rewrite Hp.
    pose proof (gradedDays_defined q (UserProgress.masteryLevel p)) as Hd.
    replace (if 3 <=? q
             then (Z.min 5 (UserProgress.masteryLevel p + 1),
                   Scheduler.getNextIntervalDaysByMastery
                     (Z.min 5 (UserProgress.masteryLevel p + 1)))
             else (0, Some 1))
      with (gradedLevel q (UserProgress.masteryLevel p),
            Some (gradedDays q (UserProgress.masteryLevel p))).
    + destruct (update_found_by ofTopic
                  (graded now q (UserProgress.masteryLevel p)) rows p)
        as (rows' & p0 & Hup & _ & Hfound); [reflexivity | exact Hp |].
      unfold graded in Hup. rewrite Hup. exists rows'. split; [reflexivity|].
      exact Hfound.
    + unfold gradedLevel at 1. destruct (3 <=? q); [now rewrite Hd | now inversion Hd].
Qed.

Lemma later_grade_route_ignores_user_witness :
  let rows := [UserProgress.mk 1 "u2" "t1" 1 None None 0] in
  let body := {| Scheduler.topicId := Some "t1"; Scheduler.quality := Some 5 |} in
  let ofTopic := fun p => String.eqb (UserProgress.topicId p) "t1" in
  (List.find ofTopic rows = None ->
   ProgressRoutes.reviewGrade 0 body (request None (Some ("u1", "")) None) rows =
     (rows, Failure 500 ErrInternalServerError)) /\
  (forall p, List.find ofTopic rows = Some p ->
     exists rows',
       ProgressRoutes.reviewGrade 0 body (request None (Some ("u1", "")) None) rows =
         (rows',
          Json {| Scheduler.masteryLevel := gradedLevel 5 (UserProgress.masteryLevel p);
                  Scheduler.nextReview :=
                    Some (0 + gradedDays 5 (UserProgress.masteryLevel p)
                              * Scheduler.msPerDay) |}) /\
       List.find ofTopic rows' =
         Some (graded 0 5 (UserProgress.masteryLevel p) p)).
Proof.
  intros rows.
  apply (later_grade_route_ignores_user 0 "t1" 5
           (request None (Some ("u1", "")) None) rows); [reflexivity | reflexivity | lia].
Defined.

End LaterProgressRoutes.

(** * Properties of the goals *)

Section Goals.

Import Goal.

Lemma goal_find_map (i : nat) (f : t -> t) (rows : list t) :
  (forall r, id (f r) = id r) ->
  List.find (fun g => Nat.eqb (id g) i)
    (map (fun r => if Nat.eqb (id r) i then f r else r) rows) =
  f <$> List.find (fun g => Nat.eqb (id g) i) rows.
Proof.
  intros Hf. induction rows as [|r rows IH]; simpl; [reflexivity|].
  destruct (Nat.eqb (id r) i) eqn:E.
  - rewrite Hf, E. reflexivity.
  - rewrite E. exact IH.
Qed.

(** X24.  [PATCH /api/goals/:id] writes first and asks afterwards: when
    the goal exists, each of [name], [type], [targetPerDay], [isActive]
    and [endDate] that the body gives is stored on it, whoever sends the
    request, and the fields the body does not give stay as they were; a
    sender who is not its owner is answered 403, but the goal has been
    changed all the same.  The owner, the [id], the start and the creation
    date and the other goals are never changed, and a goal that does not
    exist is a 500 that changes nothing. *)
Theorem patchGoal_writes_before_asking (u : string) (i : nat) (body : Patch)
    (rows : list t) :
  (List.find (fun g => Nat.eqb (id g) i) rows = None ->
   patchGoal u i body rows = (rows, InternalServerError)) /\
  (forall g, List.find (fun g => Nat.eqb (id g) i) rows = Some g ->
     exists rows' stored,
       patchGoal u i body rows =
         (rows', if String.eqb (userId g) u then Ok stored else Forbidden) /\
       List.find (fun g => Nat.eqb (id g) i) rows' = Some stored /\
       id stored = id g /\
       userId stored = userId g /\
       startDate stored = startDate g /\
       createdAt stored = createdAt g /\
       name stored = match p_name body with Some x => x | None => name g end /\
       type stored = match p_type body with Some x => x | None => type g end /\
       targetPerDay stored =
         match p_targetPerDay body with Some x => x | None => targetPerDay g end /\
       isActive stored =
         match p_isActive body with Some x => x | None => isActive g end /\
       endDate stored =
         match p_endDate body with Some x => x | None => endDate g end /\
       length rows' = length rows /\
       forall h, In h rows -> id h <> i -> In h rows').
Proof.
  unfold patchGoal, update. split.
  - now intros ->.
  - intros g Hg. rewrite Hg. eexists _, _. split; [|split].
    + change (userId (patched body g)) with (userId g).
      destruct (String.eqb (userId g) u); reflexivity.
    + rewrite goal_find_map by reflexivity. now rewrite Hg.
    + cbn [patched id userId startDate createdAt name type targetPerDay isActive
           endDate].
      repeat (split; [reflexivity|]).
      repeat (split; [now destruct body as [[?|] [?|] [?|] [?|] [?|]]|]).
      split; [apply length_map|].
      intros h Hh Hne. apply in_map_iff. exists h. split; [|exact Hh].
      destruct (Nat.eqb (id h) i) eqn:E; [|reflexivity].
      apply Nat.eqb_eq in E. contradiction.
Qed.

(** A patch by a stranger, run. *)
Example patchGoal_by_stranger :
  let goal := mk 1 "owner" "Read" "daily" 3 0 None true 0 in
  let body := {| p_name := Some "Hacked"; p_type := None; p_targetPerDay := Some 99;
                 p_isActive := Some false; p_endDate := None |} in
  patchGoal "stranger" 1 body [goal] =
    ([mk 1 "owner" "Hacked" "daily" 99 0 None false 0], Forbidden).
Proof. reflexivity. Qed.

#[local] Instance newestFirst_total : Total newestFirst.
Proof. intros g h. unfold newestFirst. lia. Qed.

#[local] Instance newestFirst_trans : Transitive newestFirst.
Proof. intros g h k. unfold newestFirst. lia. Qed.

Lemma listGoals_perm u rows :
  Permutation (listGoals u rows)
    (List.filter (fun g => String.eqb (userId g) u) rows).
Proof. apply merge_sort_Permutation. Qed.

(** X25.  A goal that was created is on the list of its user and on no
    other: [POST /api/goals] answers with a new active goal of the sender
    whose daily target is never 0; [GET /api/goals] of the sender then
    holds it, holds only goals of the sender, newest first, and the list of
    every other user is what it was. *)
Theorem created_goal_is_listed (now : Z) (u : string) (body : NewGoal)
    (rows : list t) :
  exists goal,
    createGoal now u body rows = (rows ++ [goal], Ok goal) /\
    userId goal = u /\ isActive goal = true /\ targetPerDay goal <> 0 /\
    (forall h, In h rows -> id h <> id goal) /\
    In goal (listGoals u (rows ++ [goal])) /\
    (forall h, In h (listGoals u (rows ++ [goal])) -> userId h = u) /\
    StronglySorted newestFirst (listGoals u (rows ++ [goal])) /\
    (forall v, v <> u -> listGoals v (rows ++ [goal]) = listGoals v rows).
Proof.
  eexists. split; [reflexivity|]. simpl.
  split; [reflexivity|]. split; [reflexivity|]. split; [| split; [| split; [| split; [| split]]]].
  - unfold targetOrOne. destruct (n_targetPerDay body) as [[|n|n]|]; lia.
  - intros h Hh. unfold freshId.
    assert (id h <= foldr Nat.max 0 (map id rows))%nat; [|lia].
    clear -Hh. induction rows as [|r rows IH]; simpl; [contradiction|].
    destruct Hh as [-> | Hh]; [lia|]. specialize (IH Hh). lia.
  - apply (Permutation_in _ (Permutation_sym (listGoals_perm _ _))).
    apply filter_In. split; [apply in_or_app; right; now left|].
    simpl. apply String.eqb_refl.
  - intros h Hh. apply (Permutation_in _ (listGoals_perm _ _)) in Hh.
    apply filter_In in Hh. destruct Hh as [_ Hh]. now apply String.eqb_eq.
  - apply StronglySorted_merge_sort; apply _.
  - intros v Hv. unfold listGoals. rewrite List.filter_app. simpl.
    replace (String.eqb u v) with false
      by (symmetry; apply String.eqb_neq; congruence).
    now rewrite app_nil_r.
Qed.

End Goals.


(** * Properties of the import *)

Section ImportBundle.

Import Bundle.








Lemma acceptedPrefix_refused accepts (l : list QuestionInput.t) :
  allAccepted accepts l = false ->
  exists q rest,
    l = acceptedPrefix accepts l ++ q :: rest /\
    accepts (normalizedCorrect q) = false.
Proof.
  induction l as [|q l IH]; [discriminate|]. cbn [allAccepted forallb acceptedPrefix].
  destruct (accepts (normalizedCorrect q)) eqn:Hq.
  - simpl. intros H. destruct (IH H) as (q' & rest & Hl & Hr).
    exists q', rest. split; [now f_equal | exact Hr].
  - intros _. now exists q, l.
Qed.

End ImportBundle.

Section ImportTheorems.

Import Bundle.




Example normalizedCorrect_out_of_range :
  normalizedCorrect
    (QuestionInput.mk "T" "multiple" "?" ["a"; "b"]
       (Some (QuestionInput.Indices [1; 2; -1])) None "") =
    Many [Some "b"; None; None].
Proof. reflexivity. Qed.





(** A bundle with a topic of an unknown subject and an index past the
    options, run with a [create] that accepts defined strings only: the
    question of the unknown topic is skipped, the one with the index out
    of range stops the import. *)
Example importBundle_skips :
  let accepts := fun v =>
    match v with
    | One (Some _) => true
    | Many vs => forallb (fun x => match x with Some _ => true | None => false end) vs
    | _ => false
    end in
  let subjects := [SubjectInput.mk "civil" "Civil law" ""] in
  let topics := [TopicInput.mk "civil" "Property" ""; TopicInput.mk "penal" "Theft" ""] in
  let questions :=
    [QuestionInput.mk "Property" "single" "?" ["a"; "b"]
       (Some (QuestionInput.Index 1)) None "";
     QuestionInput.mk "Theft" "single" "?" ["a"; "b"]
       (Some (QuestionInput.Index 0)) None ""] in
  let refused :=
    QuestionInput.mk "Property" "multiple" "?" ["a"; "b"]
      (Some (QuestionInput.Indices [0; 2])) None "" in
  snd (importBundle accepts subjects topics questions (db [] [] [])) = Some 1%nat /\
  map q_correctAnswer
    (Bundle.questions
       (fst (importBundle accepts subjects topics questions (db [] [] [])))) =
    [One (Some "b")] /\
  snd (importBundle accepts subjects topics (questions ++ [refused]) (db [] [] [])) =
    None /\
  map q_correctAnswer
    (Bundle.questions
       (fst (importBundle accepts subjects topics (questions ++ [refused])
               (db [] [] [])))) =
    [One (Some "b")].
Proof. repeat split; vm_compute; reflexivity. Qed.

End ImportTheorems.


(** * Properties of the history of attempts *)

Section History.

Import AttemptHistory.

Lemma dropLast_take {A} (n : nat) (l : list A) :
  (n < length l)%nat -> dropLast (take (S n) l) = take n l.
Proof.
  intros Hn. unfold dropLast. rewrite length_take.
  replace (S n `min` length l - 1)%nat with n by lia.
  rewrite take_take. f_equal. lia.
Qed.

#[local] Instance attempts_newestFirst_total : Total newestFirst.
Proof. intros a b. unfold newestFirst. lia. Qed.

#[local] Instance attempts_newestFirst_trans : Transitive newestFirst.
Proof. intros a b c. unfold newestFirst. lia. Qed.

(** The head of the attempts of a user, newest first. *)
Lemma newest_head (u : string) (n : nat) (rows : list Attempt.t) :
  exists rest,
    Permutation (newest u n rows ++ rest)
      (List.filter (fun a => String.eqb (Attempt.userId a) u) rows) /\
    StronglySorted (fun a b => Attempt.completedAt b <= Attempt.completedAt a)
      (newest u n rows) /\
    (forall a b, In a (newest u n rows) -> In b rest ->
       Attempt.completedAt b <= Attempt.completedAt a).
Proof.
  unfold newest.
  set (mine := List.filter (fun a => String.eqb (Attempt.userId a) u) rows).
  set (sorted := @merge_sort _ newestFirst newestFirst_dec mine).
  assert (Hperm : Permutation sorted mine) by apply merge_sort_Permutation.
  assert (Hsort : StronglySorted newestFirst sorted)
    by (apply StronglySorted_merge_sort; apply _).
  rewrite <- (take_drop n sorted) in Hperm, Hsort.
  exists (drop n sorted). split; [exact Hperm|]. split.
  - now apply StronglySorted_app_1_l in Hsort.
  - intros a b Ha Hb.
    apply (StronglySorted_app_1_elem_of _ _ _ a b Hsort); now apply list_elem_of_In.
Qed.

(** X29.  The page size is 20 unless the query gives another number
    than 0, and never above 100.  For a page size of at least 1, the first
    page of [GET /api/stats/attempts] holds attempts of the user only, the
    later completed first; it holds as many as the page size, or all of
    the user's when they are fewer; no attempt of the user that is left
    out was completed after one on the page; and it carries a next cursor,
    the [id] of its last item, exactly when the user has more attempts
    than fit on the page. *)
Theorem attemptsPage_first (parsed : option Z) (u : string) (rows : list Attempt.t) :
  let limit := pageLimit parsed in
  let mine := List.filter (fun a => String.eqb (Attempt.userId a) u) rows in
  limit <= 100 /\
  (parsed = None \/ parsed = Some 0 -> limit = 20) /\
  (forall n, parsed = Some n -> n <> 0 -> limit = Z.min n 100) /\
  (1 <= limit ->
   let items := fst (attemptsPage limit u rows) in
   let nextCursor := snd (attemptsPage limit u rows) in
   StronglySorted (fun a b => Attempt.completedAt b <= Attempt.completedAt a) items /\
   (exists rest,
      Permutation (items ++ rest) mine /\
      forall a b, In a items -> In b rest ->
        Attempt.completedAt b <= Attempt.completedAt a) /\
   length items = Nat.min (Z.to_nat limit) (length mine) /\
   (forall a, In a items -> Attempt.userId a = u /\ In a rows) /\
   (nextCursor = None <-> (length mine <= Z.to_nat limit)%nat) /\
   (forall i, nextCursor = Some i -> Attempt.id <$> last items = Some i)).
Proof.
  intros limit mine. split; [|split; [|split]].
  - subst limit. unfold pageLimit. lia.
  - subst limit. unfold pageLimit. intros [-> | ->]; reflexivity.
  - subst limit. unfold pageLimit. intros n -> Hn. now destruct n.
  - intros Hlimit.
    destruct (newest_head u (Z.to_nat limit) rows) as (rest & Hhead & Hsorted & Hafter).
    fold mine in Hhead.
    assert (Hitems : fst (attemptsPage limit u rows) = newest u (Z.to_nat limit) rows /\
                     (snd (attemptsPage limit u rows) = None <->
                      (length mine <= Z.to_nat limit)%nat) /\
                     length (newest u (Z.to_nat limit) rows) =
                       Nat.min (Z.to_nat limit) (length mine)).
    { set (sorted := @merge_sort _ newestFirst newestFirst_dec mine).
      assert (Hperm : Permutation sorted mine) by apply merge_sort_Permutation.
      assert (Hlen : length sorted = length mine) by now apply Permutation_length.
      unfold attemptsPage, newest. fold mine. fold sorted.
      replace (Z.to_nat (limit + 1)) with (S (Z.to_nat limit)) by lia.
      rewrite !length_take.
      destruct (Nat.ltb_spec (Z.to_nat limit) (length sorted)) as [Hmore|Hfew].
      - replace (limit <? Z.of_nat (S (Z.to_nat limit) `min` length sorted)%nat)
          with true by (symmetry; apply Z.ltb_lt; lia).
        cbn [fst snd]. rewrite dropLast_take by exact Hmore.
        split; [reflexivity|]. split; [|lia].
        split; [|lia]. intros Hnone. exfalso.
        destruct (take (Z.to_nat limit) sorted) as [|a l] eqn:Ht.
        + apply (f_equal length) in Ht. rewrite length_take in Ht. simpl in Ht. lia.
        + destruct (last_is_Some (a :: l)) as [_ Hsome].
          destruct Hsome as [x Hx]; [discriminate|]. rewrite Hx in Hnone.
          discriminate.
      - replace (limit <? Z.of_nat (S (Z.to_nat limit) `min` length sorted)%nat)
          with false by (symmetry; apply Z.ltb_ge; lia).
        cbn [fst snd]. rewrite !take_ge by lia.
        split; [reflexivity|]. split; [|lia]. split; [lia | reflexivity]. }
    destruct Hitems as (Hfst & Hcursor & Hlen).
    cbv zeta. rewrite Hfst.
    split; [exact Hsorted|]. split; [now exists rest|]. split; [exact Hlen|].
    split; [|split].
    + intros a Ha.
      assert (Hin : In a mine).
      { apply (Permutation_in a Hhead). apply in_or_app. now left. }
      apply filter_In in Hin. destruct Hin as [Hrows Hu].
      split; [now apply String.eqb_eq | exact Hrows].
    + exact Hcursor.
    + intros i Hi. unfold attemptsPage in Hi. cbn [snd] in Hi.
      destruct (limit <? _) eqn:Hmore; [|discriminate].
      unfold attemptsPage in Hfst. cbn [fst] in Hfst. rewrite Hmore in Hfst.
      now rewrite <- Hfst.
Qed.

Lemma attemptsPage_first_witness :
  let rows := [Attempt.mk 1 "u1" "t1" 80 5 4 10; Attempt.mk 2 "u1" "t1" 90 5 5 20] in
  let mine := List.filter (fun a => String.eqb (Attempt.userId a) "u1") rows in
  let items := fst (attemptsPage (pageLimit (Some 1)) "u1" rows) in
  let nextCursor := snd (attemptsPage (pageLimit (Some 1)) "u1" rows) in
  StronglySorted (fun a b => Attempt.completedAt b <= Attempt.completedAt a) items /\
  (exists rest,
     Permutation (items ++ rest) mine /\
     forall a b, In a items -> In b rest ->
       Attempt.completedAt b <= Attempt.completedAt a) /\
  length items = Nat.min (Z.to_nat (pageLimit (Some 1))) (length mine) /\
  (forall a, In a items -> Attempt.userId a = "u1" /\ In a rows) /\
  (nextCursor = None <-> (length mine <= Z.to_nat (pageLimit (Some 1%Z)))%nat) /\
  (forall i, nextCursor = Some i -> Attempt.id <$> last items = Some i).
Proof.
  intros rows.
  apply (proj2 (proj2 (proj2 (attemptsPage_first (Some 1%Z) "u1" rows)))).
  unfold pageLimit. lia.
Defined.

Example attemptsPage_run :
  attemptsPage 1 "u1"
    [Attempt.mk 1 "u1" "t1" 80 5 4 10; Attempt.mk 2 "u1" "t1" 90 5 5 20;
     Attempt.mk 3 "u2" "t1" 10 5 1 30] =
    ([Attempt.mk 2 "u1" "t1" 90 5 5 20], Some 2%nat).
Proof. vm_compute. reflexivity. Qed.

End History.
